(** * TigerScope: the ingest-and-batch-persist pipeline

    A shallow embedding of the programs of TigerScope, and the
    properties their specification states about them:

    - [Gateway]: the ingestion API ([POST /ingest]): strict JSON decoding,
      defaulting and required-field check, publish to the log;
    - [Writer]: the writer-consumer: the consumer loop ([ConsumeClaim]),
      the in-memory batch, [flush], [writeParquet], [parseKafkaJSON];
    - [Query]: the query API: the listing of the stored files
      ([parquetFileList]), the list literal handed to DuckDB and the five
      endpoints;
    - [LoadGen]: the load generator;
    - [Dashboard]: the data refresh of the React dashboard.

    Effects (clock, random source, log broker, file system, object store,
    database, network) are threaded through an explicit world, in program
    order.  The library calls the programs make ([strings.TrimSpace],
    [hex.EncodeToString], [fmt.Sprintf] with [%0Nd], [strconv.Atoi],
    [fmt.Sscanf] with [%d], [encoding/json]) are modelled in [GoLib] and
    [Json] at the level of detail the programs depend on. *)

From Stdlib Require Import ZArith Lia Ascii String DecimalString DecimalN List.
From stdpp Require Import base strings list gmap sorting.

Open Scope Z_scope.

Set Warnings "-register-all".

(** ** Go library functions used by both programs *)
Module GoLib.

(** *** Fixed-width integers *)

Definition min_int64 : Z := - 2 ^ 63.
Definition max_int64 : Z := 2 ^ 63 - 1.
Definition min_int32 : Z := - 2 ^ 31.
Definition max_int32 : Z := 2 ^ 31 - 1.

(** Two's-complement wrap-around of an [int64] result. *)
Definition wrap64 (z : Z) : Z := (z + 2 ^ 63) mod 2 ^ 64 - 2 ^ 63.

(** [time.Time.Sub] saturates at the ends of [time.Duration]. *)
Definition sat64 (z : Z) : Z := Z.max min_int64 (Z.min max_int64 z).

Definition fits_int64 (z : Z) : bool := (min_int64 <=? z) && (z <=? max_int64).
Definition fits_int32 (z : Z) : bool := (min_int32 <=? z) && (z <=? max_int32).

(** [time.Second], in nanoseconds. *)
Definition Second : Z := 1000000000.

(** *** Text: Go strings are byte strings *)

Definition byte_of (c : ascii) : N := N_of_ascii c.

Definition bytes (l : list N) : string :=
  string_of_list_ascii (map ascii_of_N l).

Fixpoint isPrefix (p s : string) : option string :=
  match p, s with
  | EmptyString, _ => Some s
  | String a p', String b s' => if Ascii.eqb a b then isPrefix p' s' else None
  | String _ _, EmptyString => None
  end.

(** The white space of [unicode.IsSpace]: the six ASCII characters ... *)
Definition isSpaceASCII (c : ascii) : bool :=
  match byte_of c with
  | 9%N | 10%N | 11%N | 12%N | 13%N | 32%N => true
  | _ => false
  end.

(** ... and, UTF-8 encoded, U+0085, U+00A0, U+1680, U+2000 to U+200A,
    U+2028, U+2029, U+202F, U+205F and U+3000. *)
Definition spaceRunes : list string :=
  map bytes
    ([ [194; 133]; [194; 160]; [225; 154; 128] ]
     ++ map (fun k => [226; 128; 128 + k])
            [0; 1; 2; 3; 4; 5; 6; 7; 8; 9; 10; 40; 41; 47]
     ++ [ [226; 129; 159]; [227; 128; 128] ])%N.

(** One leading white-space rune removed, if there is one. *)
Definition dropSpace (runes : list string) (s : string) : option string :=
  match s with
  | EmptyString => None
  | String c s' =>
      if isSpaceASCII c then Some s'
      else
        fold_right
          (fun r acc => match isPrefix r s with Some t => Some t | None => acc end)
          None runes
  end.

Fixpoint trimLeftWith (runes : list string) (fuel : nat) (s : string) : string :=
  match fuel with
  | O => s
  | S fuel' =>
      match dropSpace runes s with
      | Some s' => trimLeftWith runes fuel' s'
      | None => s
      end
  end.

Definition TrimLeftSpace (s : string) : string :=
  trimLeftWith spaceRunes (String.length s) s.

Definition TrimRightSpace (s : string) : string :=
  String.rev
    (trimLeftWith (map String.rev spaceRunes) (String.length s) (String.rev s)).

(** [strings.TrimSpace]: all leading and trailing white space removed. *)
Definition TrimSpace (s : string) : string := TrimRightSpace (TrimLeftSpace s).

(** *** [encoding/hex] *)

Definition hextable : string := "0123456789abcdef".

Definition hexDigit (n : N) : ascii :=
  match String.get (N.to_nat n) hextable with
  | Some c => c
  | None => "0"%char
  end.

(** [hex.EncodeToString]: two lower-case digits per byte, high nibble first. *)
Fixpoint EncodeToString (src : list Byte.byte) : string :=
  match src with
  | [] => EmptyString
  | b :: rest =>
      String (hexDigit (N.shiftr (Byte.to_N b) 4))
        (String (hexDigit (N.land (Byte.to_N b) 15)) (EncodeToString rest))
  end.

Definition isHexDigit (c : ascii) : bool :=
  let n := byte_of c in
  ((48 <=? n) && (n <=? 57) || (97 <=? n) && (n <=? 102))%N.

Fixpoint allHex (s : string) : bool :=
  match s with
  | EmptyString => true
  | String c s' => isHexDigit c && allHex s'
  end.

Definition unhexDigit (c : ascii) : N :=
  let n := byte_of c in
  (if n <? 58 then n - 48 else n - 87)%N.

(** The inverse of [EncodeToString] on its image (used in proofs only). *)
Fixpoint DecodeString (s : string) : list N :=
  match s with
  | String hi (String lo rest) =>
      (unhexDigit hi * 16 + unhexDigit lo)%N :: DecodeString rest
  | _ => []
  end.

(** *** [fmt.Sprintf] with the verb [%0Nd] *)

Definition digits (n : N) : string := NilEmpty.string_of_uint (N.to_uint n).

Fixpoint zeros (n : nat) : string :=
  match n with
  | O => EmptyString
  | S n' => String "0" (zeros n')
  end.

(** [%0Nd]: decimal, padded with zeros to [width] characters, the sign
    (for a negative number) included in the width and written first. *)
Definition fmt_0d (width : nat) (z : Z) : string :=
  if z <? 0 then
    let d := digits (Z.to_N (- z)) in
    String "-" (zeros (width - 1 - String.length d)) +:+ d
  else
    let d := digits (Z.to_N z) in
    zeros (width - String.length d) +:+ d.

(** The value a run of decimal digits denotes (leading zeros ignored). *)
Definition digitsValue (s : string) : option N :=
  option_map N.of_uint (NilEmpty.uint_of_string s).

(** *** Vocabulary for the formats *)

Fixpoint allDigits (s : string) : bool :=
  match s with
  | EmptyString => true
  | String c s' => ((48 <=? byte_of c) && (byte_of c <=? 57))%N && allDigits s'
  end.

(** [%0Nd] of a number of at most [width] digits: exactly [width] digits,
    which denote the number. *)
Definition padded (width : nat) (z : Z) : bool :=
  (String.length (fmt_0d width z) =? width)%nat
  && allDigits (fmt_0d width z)
  && match digitsValue (fmt_0d width z) with
     | Some n => (Z.of_N n =? z)
     | None => false
     end.

(** A random source that counts: byte [n] is [n] modulo 256. *)
Definition countingBytes (n : nat) : Byte.byte :=
  match Byte.of_N (N.of_nat n mod 256) with
  | Some b => b
  | None => Byte.x00
  end.

(** *** State-passing computations over a world [W] *)

Definition State (W A : Type) : Type := W -> A * W.

Definition ret {W A} (a : A) : State W A := fun w => (a, w).

Definition bind {W A B} (m : State W A) (k : A -> State W B) : State W B :=
  fun w => let (a, w') := m w in k a w'.

(** An external source read in program order: the clock, the random
    device, the outcomes of calls that leave the process. *)
Record Stream (A : Type) : Type := mkStream { next : nat -> A; pos : nat }.
Arguments mkStream {A} _ _.
Arguments next {A} _ _.
Arguments pos {A} _.

Definition read {A} (s : Stream A) : A * Stream A :=
  (next s (pos s), mkStream (next s) (S (pos s))).

Definition readN {A} (n : nat) (s : Stream A) : list A * Stream A :=
  (map (next s) (seq (pos s) n), mkStream (next s) (pos s + n)).

(** *** Integers in decimal: [strconv.Itoa], [strconv.Atoi], [fmt.Sscanf] *)

(** [strconv.Itoa(z)], also the verb [%d]: the decimal digits, after a
    minus sign for a negative number. *)
Definition Itoa (z : Z) : string :=
  if z <? 0 then String "-" (digits (Z.to_N (- z))) else digits (Z.to_N z).

(** A leading sign, split off: whether it is a minus, and the rest. *)
Definition splitSign (s : string) : bool * string :=
  match s with
  | String c rest =>
      if Ascii.eqb c "-" then (true, rest)
      else if Ascii.eqb c "+" then (false, rest)
      else (false, s)
  | EmptyString => (false, s)
  end.

(** The [int] (of 64 bits) a sign and a run of digits denote, when the
    run is not empty, holds digits only and the number fits. *)
Definition parseDecimal (neg : bool) (ds : string) : option Z :=
  match ds with
  | EmptyString => None
  | _ =>
      match digitsValue ds with
      | Some n =>
          let z := if neg then - Z.of_N n else Z.of_N n in
          if fits_int64 z then Some z else None
      | None => None
      end
  end.

(** [strconv.Atoi(s)]: an optional sign and decimal digits, and nothing
    else; [None] is its error. *)
Definition Atoi (s : string) : option Z :=
  let (neg, ds) := splitSign s in parseDecimal neg ds.

(** The white space [fmt]'s scanner skips before a number.  [Sscanf]
    does not take a newline for a space: it is an error ([None]). *)
Fixpoint skipBlanks (fuel : nat) (s : string) : option string :=
  match fuel with
  | O => Some s
  | S fuel' =>
      match s with
      | EmptyString => Some s
      | String c _ =>
          if (byte_of c =? 10)%N then None
          else
            match dropSpace spaceRunes s with
            | Some s' => skipBlanks fuel' s'
            | None => Some s
            end
      end
  end.

(** The longest run of decimal digits a string starts with. *)
Fixpoint leadingDigits (s : string) : string :=
  match s with
  | String c rest =>
      if ((48 <=? byte_of c) && (byte_of c <=? 57))%N
      then String c (leadingDigits rest)
      else EmptyString
  | EmptyString => EmptyString
  end.

(** [fmt.Sscanf(v, "%d", &n)]: white space is skipped, then an optional
    sign and the digits that follow are read; what comes after them is
    left unread.  [None] is its error. *)
Definition Sscanf_d (v : string) : option Z :=
  match skipBlanks (String.length v) v with
  | None => None
  | Some s => let (neg, s1) := splitSign s in parseDecimal neg (leadingDigits s1)
  end.

(** [os.Getenv(key)] in an environment: the empty string for a variable
    that is not set. *)
Definition Getenv (environ : gmap string string) (key : string) : string :=
  match environ !! key with
  | Some v => v
  | None => EmptyString
  end.

(** *** Vocabulary for the readings of integers *)

(** A decimal digit. *)
Definition isDigit (c : ascii) : bool := ((48 <=? byte_of c) && (byte_of c <=? 57))%N.

(** A byte of ASCII that is no white space. *)
Definition plain (c : ascii) : bool :=
  (byte_of c <? 128)%N && negb (isSpaceASCII c).

(** The string holds such a byte. *)
Fixpoint hasPlain (s : string) : bool :=
  match s with
  | EmptyString => false
  | String c rest => plain c || hasPlain rest
  end.

(** [k] space characters. *)
Fixpoint spaces (k : nat) : string :=
  match k with
  | O => EmptyString
  | S k' => String " " (spaces k')
  end.

End GoLib.

Export GoLib.

Notation "'let*' x ':=' m 'in' k" := (bind m (fun x => k))
  (at level 10, x pattern, m at level 100, k at level 200).
Notation "m ';;;' k" := (bind m (fun _ => k))
  (at level 100, k at level 200, right associativity).

(** ** [encoding/json], as far as the two programs use it

    A message is modelled by the JSON text it carries, parsed: the byte
    level (white space, escapes, number syntax) is the library's. *)
Module Json.

(** A number literal either is an integer literal or has a fraction or
    an exponent; only the former can be stored in an integer field. *)
Inductive Number : Type :=
| Int (z : Z)
| NonInt.

Inductive Value : Type :=
| Null
| Bool (b : bool)
| Num (n : Number)
| Str (s : string)
| Arr (items : list Value)
| Obj (members : list (string * Value)).

(** The bytes handed to the decoder: not JSON at all, or one JSON value. *)
Inductive Document : Type :=
| Malformed
| WellFormed (v : Value).

Inductive Error : Type :=
| SyntaxError
| UnmarshalTypeError (field : string)
| UnknownField (key : string)
| TimeError (field : string).

(** *** Matching an object key to a struct field

    The decoder prefers an exact match of the [json] tag and accepts a
    match under Unicode simple case folding.  The tags of both programs
    are ASCII, so the folds that matter are the ASCII letters and the
    two runes that fold to one: U+017F (long s) and U+212A (Kelvin). *)

Definition upper (c : ascii) : ascii :=
  let n := byte_of c in
  if ((97 <=? n) && (n <=? 122))%N then ascii_of_N (n - 32) else c.

Fixpoint foldName (s : string) : string :=
  match s with
  | EmptyString => EmptyString
  | String a s1 =>
      match s1 with
      | EmptyString => String (upper a) EmptyString
      | String b s2 =>
          if ((byte_of a =? 197) && (byte_of b =? 191))%N
          then String "S" (foldName s2)
          else
            match s2 with
            | EmptyString => String (upper a) (foldName s1)
            | String c s3 =>
                if ((byte_of a =? 226) && (byte_of b =? 132) && (byte_of c =? 170))%N
                then String "K" (foldName s3)
                else String (upper a) (foldName s1)
            end
      end
  end.

(** How a field takes a JSON value: the new struct, or the error. *)
Definition Setter (T : Type) : Type := Value -> T -> Error + T.

Definition lookupField {T} (fields : list (string * Setter T)) (key : string)
  : option (Setter T) :=
  match find (fun f => String.eqb (fst f) key) fields with
  | Some f => Some (snd f)
  | None =>
      option_map snd
        (find (fun f => String.eqb (foldName (fst f)) (foldName key)) fields)
  end.

(** *** Storing a value in a field, by the field's Go type *)

(** [string]: a JSON string; [null] leaves the field as it is. *)
Definition storeString (field : string) (v : Value) (old : string) : Error + string :=
  match v with
  | Str s => inr s
  | Null => inr old
  | _ => inl (UnmarshalTypeError field)
  end.

(** [int], [int32]: an integer literal that fits the type. *)
Definition storeInt (fits : Z -> bool) (field : string) (v : Value) (old : Z) : Error + Z :=
  match v with
  | Num (Int z) => if fits z then inr z else inl (UnmarshalTypeError field)
  | Null => inr old
  | _ => inl (UnmarshalTypeError field)
  end.

(** [map[string]string]: an object of strings, added to the map the field
    already holds; [null] for the object resets the field to the nil map,
    [null] for a member stores the empty string. *)
Definition storeMap (field : string) (v : Value) (old : gmap string string)
  : Error + gmap string string :=
  match v with
  | Null => inr ∅
  | Obj ms =>
      fold_left
        (fun acc kv =>
           match acc with
           | inl e => inl e
           | inr m =>
               match snd kv with
               | Str s => inr (<[fst kv := s]> m)
               | Null => inr (<[fst kv := EmptyString]> m)
               | _ => inl (UnmarshalTypeError field)
               end
           end)
        ms (inr old)
  | _ => inl (UnmarshalTypeError field)
  end.

(** [time.Time] (through its [UnmarshalJSON]): a JSON string in RFC 3339. *)
Definition storeTime {Time} (parse : string -> option Time)
  (field : string) (v : Value) (old : Time) : Error + Time :=
  match v with
  | Null => inr old
  | Str s =>
      match parse s with
      | Some t => inr t
      | None => inl (TimeError field)
      end
  | _ => inl (TimeError field)
  end.

(** A struct field: its [json] tag, and the setter built from its
    accessor, its update and the store of its type. *)
Definition field {T A} (tag : string) (get : T -> A) (set : A -> T -> T)
  (store : string -> Value -> A -> Error + A) : string * Setter T :=
  (tag,
   fun v t =>
     match store tag v (get t) with
     | inl e => inl e
     | inr a => inr (set a t)
     end).

(** *** Decoding an object into a struct

    The members are taken in document order; a later duplicate of a key
    overwrites the earlier one.  With [strict]
    ([Decoder.DisallowUnknownFields]) a key that matches no field is an
    error, without it the member is skipped.  Whatever the error, the
    callers discard the struct, so decoding stops at the first one. *)
Fixpoint decodeMembers {T} (fields : list (string * Setter T)) (strict : bool)
  (ms : list (string * Value)) (t : T) : Error + T :=
  match ms with
  | [] => inr t
  | kv :: rest =>
      match lookupField fields (fst kv) with
      | Some set =>
          match set (snd kv) t with
          | inl e => inl e
          | inr t' => decodeMembers fields strict rest t'
          end
      | None =>
          if strict then inl (UnknownField (fst kv))
          else decodeMembers fields strict rest t
      end
  end.

(** [null] at the top level leaves the struct at its zero value. *)
Definition decodeStruct {T} (fields : list (string * Setter T)) (strict : bool)
  (zero : T) (d : Document) : Error + T :=
  match d with
  | Malformed => inl SyntaxError
  | WellFormed Null => inr zero
  | WellFormed (Obj ms) => decodeMembers fields strict ms zero
  | WellFormed _ => inl (UnmarshalTypeError EmptyString)
  end.

(** The value of a key in an object, the last occurrence winning. *)
Definition member (key : string) (v : Value) : option Value :=
  match v with
  | Obj ms =>
      option_map snd (find (fun kv => String.eqb (fst kv) key) (rev ms))
  | _ => None
  end.

End Json.

(** ** The ingestion API ([POST /ingest]) *)
Module Gateway.

(** [time.Time], as far as the handler looks at it: the instant, in
    nanoseconds since January 1 of year 1, 00:00:00 UTC (the zero [Time]),
    and the offset of the location it is shown in. *)
Record Time : Type := mkTime { instant : Z; zoneOffset : Z }.

Definition zeroTime : Time := mkTime 0 0.
Definition IsZero (t : Time) : bool := instant t =? 0.
Definition UTC (t : Time) : Time := mkTime (instant t) 0.

Record TelemetryEvent : Type := mkEvent {
  Timestamp : Time;
  Service : string;
  CustomerID : string;
  Endpoint : string;
  Method : string;
  StatusCode : Z;
  LatencyMs : Z;
  TraceID : string;
  Error : string;
  Attributes : gmap string string;
  RequestID : string;
  IngestedAt : Time;
  SchemaVer : Z;
  Environment : string
}.

(** [var ev TelemetryEvent] *)
Definition zeroEvent : TelemetryEvent :=
  mkEvent zeroTime "" "" "" "" 0 0 "" "" ∅ "" zeroTime 0 "".

Definition setTimestamp (x : Time) (ev : TelemetryEvent) : TelemetryEvent :=
  let '(mkEvent _ b c d e f g h i j k l m n) := ev in mkEvent x b c d e f g h i j k l m n.
Definition setService (x : string) (ev : TelemetryEvent) : TelemetryEvent :=
  let '(mkEvent a _ c d e f g h i j k l m n) := ev in mkEvent a x c d e f g h i j k l m n.
Definition setCustomerID (x : string) (ev : TelemetryEvent) : TelemetryEvent :=
  let '(mkEvent a b _ d e f g h i j k l m n) := ev in mkEvent a b x d e f g h i j k l m n.
Definition setEndpoint (x : string) (ev : TelemetryEvent) : TelemetryEvent :=
  let '(mkEvent a b c _ e f g h i j k l m n) := ev in mkEvent a b c x e f g h i j k l m n.
Definition setMethod (x : string) (ev : TelemetryEvent) : TelemetryEvent :=
  let '(mkEvent a b c d _ f g h i j k l m n) := ev in mkEvent a b c d x f g h i j k l m n.
Definition setStatusCode (x : Z) (ev : TelemetryEvent) : TelemetryEvent :=
  let '(mkEvent a b c d e _ g h i j k l m n) := ev in mkEvent a b c d e x g h i j k l m n.
Definition setLatencyMs (x : Z) (ev : TelemetryEvent) : TelemetryEvent :=
  let '(mkEvent a b c d e f _ h i j k l m n) := ev in mkEvent a b c d e f x h i j k l m n.
Definition setTraceID (x : string) (ev : TelemetryEvent) : TelemetryEvent :=
  let '(mkEvent a b c d e f g _ i j k l m n) := ev in mkEvent a b c d e f g x i j k l m n.
Definition setError (x : string) (ev : TelemetryEvent) : TelemetryEvent :=
  let '(mkEvent a b c d e f g h _ j k l m n) := ev in mkEvent a b c d e f g h x j k l m n.
Definition setAttributes (x : gmap string string) (ev : TelemetryEvent) : TelemetryEvent :=
  let '(mkEvent a b c d e f g h i _ k l m n) := ev in mkEvent a b c d e f g h i x k l m n.
Definition setRequestID (x : string) (ev : TelemetryEvent) : TelemetryEvent :=
  let '(mkEvent a b c d e f g h i j _ l m n) := ev in mkEvent a b c d e f g h i j x l m n.
Definition setIngestedAt (x : Time) (ev : TelemetryEvent) : TelemetryEvent :=
  let '(mkEvent a b c d e f g h i j k _ m n) := ev in mkEvent a b c d e f g h i j k x m n.
Definition setSchemaVer (x : Z) (ev : TelemetryEvent) : TelemetryEvent :=
  let '(mkEvent a b c d e f g h i j k l _ n) := ev in mkEvent a b c d e f g h i j k l x n.
Definition setEnvironment (x : string) (ev : TelemetryEvent) : TelemetryEvent :=
  let '(mkEvent a b c d e f g h i j k l m _) := ev in mkEvent a b c d e f g h i j k l m x.

Record Server : Type := mkServer { topic : string }.

(** [sarama.ProducerMessage] *)
Record ProducerMessage : Type := mkMessage {
  msgTopic : string;
  msgKey : string;
  msgValue : Json.Value;
  msgHeaders : list (string * string);
  msgTimestamp : Time
}.

Record Request : Type := mkRequest { reqMethod : string; reqBody : Json.Document }.

(** What the handler writes: the text of [http.Error], or the accepted
    reply's JSON object. *)
Inductive Reply : Type :=
| MethodNotAllowed
| InvalidJSON (e : Json.Error)
| MissingRequired
| MarshalError
| PublishFailed
| RequestTimeout
| Accepted (topic : string) (partition offset : Z) (trace_id request_id : string).

Record Response : Type := mkResponse { status : Z; reply : Reply }.

Definition StatusAccepted : Z := 202.
Definition StatusBadRequest : Z := 400.
Definition StatusMethodNotAllowed : Z := 405.
Definition StatusInternalServerError : Z := 500.
Definition StatusBadGateway : Z := 502.
Definition StatusGatewayTimeout : Z := 504.

(** What surrounds one request: the clock, [crypto/rand], the broker's
    answer to each [SendMessage] (partition and offset, or an error),
    whether the request's context is done when the handler looks, and
    the messages handed to the producer so far. *)
Record World : Type := mkWorld {
  clock : Stream Time;
  entropy : Stream Byte.byte;
  broker : Stream (option (Z * Z));
  ctxDone : Stream bool;
  sent : list ProducerMessage
}.

(** [time.Now().UTC()] *)
Definition timeNowUTC : State World Time :=
  fun w =>
    let (t, c) := read (clock w) in
    (UTC t, mkWorld c (entropy w) (broker w) (ctxDone w) (sent w)).

(** [rand.Read(b)] for a slice of [n] bytes. *)
Definition randRead (n : nat) : State World (list Byte.byte) :=
  fun w =>
    let (b, e) := readN n (entropy w) in
    (b, mkWorld (clock w) e (broker w) (ctxDone w) (sent w)).

(** [randomHex(nBytes)] *)
Definition randomHex (nBytes : nat) : State World string :=
  let* b := randRead nBytes in
  ret (EncodeToString b).

(** [s.producer.SendMessage(msg)] *)
Definition SendMessage (msg : ProducerMessage) : State World (option (Z * Z)) :=
  fun w =>
    let (r, b) := read (broker w) in
    (r, mkWorld (clock w) (entropy w) b (ctxDone w) (sent w ++ [msg])).

(** [select { case <-ctx.Done(): ...; default: }] *)
Definition contextDone : State World bool :=
  fun w =>
    let (d, c) := read (ctxDone w) in
    (d, mkWorld (clock w) (entropy w) (broker w) c (sent w)).

Section Handler.

(** RFC 3339, both ways, is [time.Time]'s own JSON code: parsing fails on
    a string that is no RFC 3339 time, formatting on a year outside
    0..9999. *)
Variable parseRFC3339 : string -> option Time.
Variable formatRFC3339 : Time -> option string.

(** The fields of [TelemetryEvent], by [json] tag, in declaration order. *)
Definition eventFields : list (string * Json.Setter TelemetryEvent) :=
  [ Json.field "timestamp" Timestamp setTimestamp (Json.storeTime parseRFC3339);
    Json.field "service" Service setService Json.storeString;
    Json.field "customer_id" CustomerID setCustomerID Json.storeString;
    Json.field "endpoint" Endpoint setEndpoint Json.storeString;
    Json.field "method" Method setMethod Json.storeString;
    Json.field "status_code" StatusCode setStatusCode (Json.storeInt fits_int64);
    Json.field "latency_ms" LatencyMs setLatencyMs (Json.storeInt fits_int64);
    Json.field "trace_id" TraceID setTraceID Json.storeString;
    Json.field "error" Error setError Json.storeString;
    Json.field "attributes" Attributes setAttributes Json.storeMap;
    Json.field "request_id" RequestID setRequestID Json.storeString;
    Json.field "ingested_at" IngestedAt setIngestedAt (Json.storeTime parseRFC3339);
    Json.field "schema_version" SchemaVer setSchemaVer (Json.storeInt fits_int64);
    Json.field "environment" Environment setEnvironment Json.storeString ].

(** [dec.DisallowUnknownFields(); dec.Decode(&ev)] *)
Definition Decode (body : Json.Document) : Json.Error + TelemetryEvent :=
  Json.decodeStruct eventFields true zeroEvent body.

(** [json.Marshal(ev)]: the fields in declaration order, [error] and
    [attributes] left out when empty. *)
Definition Marshal (ev : TelemetryEvent) : option Json.Value :=
  match formatRFC3339 (Timestamp ev), formatRFC3339 (IngestedAt ev) with
  | Some ts, Some ing =>
      Some
        (Json.Obj
           ([ ("timestamp", Json.Str ts);
              ("service", Json.Str (Service ev));
              ("customer_id", Json.Str (CustomerID ev));
              ("endpoint", Json.Str (Endpoint ev));
              ("method", Json.Str (Method ev));
              ("status_code", Json.Num (Json.Int (StatusCode ev)));
              ("latency_ms", Json.Num (Json.Int (LatencyMs ev)));
              ("trace_id", Json.Str (TraceID ev)) ]
            ++ (if String.eqb (Error ev) "" then []
                else [ ("error", Json.Str (Error ev)) ])
            ++ (if decide (Attributes ev = ∅) then []
                else [ ("attributes",
                        Json.Obj (map (fun kv => (fst kv, Json.Str (snd kv)))
                                      (map_to_list (Attributes ev)))) ])
            ++ [ ("request_id", Json.Str (RequestID ev));
                 ("ingested_at", Json.Str ing);
                 ("schema_version", Json.Num (Json.Int (SchemaVer ev)));
                 ("environment", Json.Str (Environment ev)) ]))
  | _, _ => None
  end.

(** The required-field check of the handler (its [if] condition). *)
Definition missingRequired (ev : TelemetryEvent) : bool :=
  String.eqb (TrimSpace (Service ev)) ""
  || String.eqb (TrimSpace (CustomerID ev)) ""
  || String.eqb (TrimSpace (Endpoint ev)) ""
  || String.eqb (TrimSpace (Method ev)) ""
  || (StatusCode ev =? 0).

(** The handler registered for [/ingest]; [env] is [ENVIRONMENT]. *)
Definition ingest (s : Server) (env : string) (r : Request) : State World Response :=
  if negb (String.eqb (reqMethod r) "POST") then
    ret (mkResponse StatusMethodNotAllowed MethodNotAllowed)
  else
    match Decode (reqBody r) with
    | inl err => ret (mkResponse StatusBadRequest (InvalidJSON err))
    | inr ev =>
        let* now := timeNowUTC in
        let ev :=
          if IsZero (Timestamp ev) then setTimestamp now ev
          else setTimestamp (UTC (Timestamp ev)) ev in
        let ev := setIngestedAt now ev in
        let ev := setSchemaVer 1 ev in
        let ev := setEnvironment env ev in
        if missingRequired ev then
          ret (mkResponse StatusBadRequest MissingRequired)
        else
          let* ev :=
            (if String.eqb (TraceID ev) "" then
               let* t := randomHex 16 in ret (setTraceID t ev)
             else ret ev) in
          let* rid := randomHex 12 in
          let ev := setRequestID rid ev in
          match Marshal ev with
          | None => ret (mkResponse StatusInternalServerError MarshalError)
          | Some b =>
              let msg :=
                mkMessage (topic s) (CustomerID ev) b
                  [ ("service", Service ev); ("env", env) ] now in
              let* sent := SendMessage msg in
              match sent with
              | None => ret (mkResponse StatusBadGateway PublishFailed)
              | Some (partition, offset) =>
                  let* done := contextDone in
                  if done then
                    ret (mkResponse StatusGatewayTimeout RequestTimeout)
                  else
                    ret (mkResponse StatusAccepted
                           (Accepted (topic s) partition offset
                              (TraceID ev) (RequestID ev)))
              end
          end
    end.

End Handler.

(** *** Vocabulary of the claims about the handler *)

Section Vocabulary.

Variable parseRFC3339 : string -> option Time.
Variable formatRFC3339 : Time -> option string.

(** What the handler's closure captures from [main]: the server and
    [ENVIRONMENT]. *)
Variable s : Server.
Variable env : string.

(** The time of acceptance: the next reading of the clock, in UTC. *)
Definition acceptedAt (w : World) : Time := UTC (next (clock w) (pos (clock w))).

(** The random bytes the handler draws for a request: sixteen for the
    trace id when the payload has none, then twelve for the request id. *)
Definition traceBytes (w : World) : list Byte.byte :=
  map (next (entropy w)) (seq (pos (entropy w)) 16).

Definition requestBytes (ev : TelemetryEvent) (w : World) : list Byte.byte :=
  map (next (entropy w))
    (seq (pos (entropy w) + (if String.eqb (TraceID ev) "" then 16 else 0)) 12).

(** The event after the defaults are filled in (before the check). *)
Definition filled (ev : TelemetryEvent) (w : World) : TelemetryEvent :=
  setEnvironment env
    (setSchemaVer 1
       (setIngestedAt (acceptedAt w)
          (if IsZero (Timestamp ev) then setTimestamp (acceptedAt w) ev
           else setTimestamp (UTC (Timestamp ev)) ev))).

(** The canonical event: what is marshalled and published. *)
Definition canonical (ev : TelemetryEvent) (w : World) : TelemetryEvent :=
  setRequestID (EncodeToString (requestBytes ev w))
    (if String.eqb (TraceID ev) ""
     then setTraceID (EncodeToString (traceBytes w)) (filled ev w)
     else filled ev w).

(** The message built from the canonical event. *)
Definition published (ev : TelemetryEvent) (w : World) (b : Json.Value) : ProducerMessage :=
  mkMessage (topic s) (CustomerID (canonical ev w)) b
    [("service", Service (canonical ev w)); ("env", env)] (acceptedAt w).

(** A POST with that body. *)
Definition post (body : Json.Document) : Request := mkRequest "POST" body.

(** What the caller controls of an event: everything but the four
    fields the server sets. *)
Definition callerPart (ev : TelemetryEvent) : TelemetryEvent :=
  setRequestID "" (setIngestedAt zeroTime (setSchemaVer 0 (setEnvironment "" ev))).

(** The handler's answer to a POST whose body decodes, as a function of
    the decoded event (the steps of [ingest] after [Decode]). *)
Definition served (ev : TelemetryEvent) (w : World) : Response * World :=
  let w1 := mkWorld (mkStream (next (clock w)) (S (pos (clock w))))
              (entropy w) (broker w) (ctxDone w) (sent w) in
  if missingRequired ev then (mkResponse StatusBadRequest MissingRequired, w1)
  else
    let p := (if String.eqb (TraceID ev) "" then pos (entropy w) + 16
              else pos (entropy w))%nat in
    let w2 := mkWorld (clock w1)
                (mkStream (next (entropy w)) (p + 12))
                (broker w) (ctxDone w) (sent w) in
    match Marshal formatRFC3339 (canonical ev w) with
    | None => (mkResponse StatusInternalServerError MarshalError, w2)
    | Some b =>
        let w3 := mkWorld (clock w2) (entropy w2)
                    (mkStream (next (broker w)) (S (pos (broker w))))
                    (ctxDone w) (sent w ++ [published ev w b]) in
        match next (broker w) (pos (broker w)) with
        | None => (mkResponse StatusBadGateway PublishFailed, w3)
        | Some (partition, offset) =>
            let w4 := mkWorld (clock w3) (entropy w3) (broker w3)
                        (mkStream (next (ctxDone w)) (S (pos (ctxDone w))))
                        (sent w3) in
            if next (ctxDone w) (pos (ctxDone w)) then
              (mkResponse StatusGatewayTimeout RequestTimeout, w4)
            else
              (mkResponse StatusAccepted
                 (Accepted (topic s) partition offset
                    (TraceID (canonical ev w)) (RequestID (canonical ev w))), w4)
        end
    end.

(** Blank after trimming white space. *)
Definition blank (x : string) : Prop := TrimSpace x = "".

(** A required field is blank, or the status code zero. *)
Definition requiredBlank (ev : TelemetryEvent) : Prop :=
  blank (Service ev) \/ blank (CustomerID ev) \/ blank (Endpoint ev)
  \/ blank (Method ev) \/ StatusCode ev = 0.

(** A key that matches no field of [TelemetryEvent], exactly or under
    case folding. *)
Definition unknownKey (key : string) : Prop :=
  Json.lookupField (eventFields parseRFC3339) key = None.

End Vocabulary.

(** *** Concrete requests *)

(** Stand-ins for the RFC 3339 code of [time.Time] that know the two
    instants of the runs below: 2026-10-30T22:09:00Z, sent by the
    caller, and one second later, shown by the clock. *)
Definition callerInstant : Z := 63928994940000000000.
Definition clockInstant : Z := 63928994941000000000.

Definition exampleParse (x : string) : option Time :=
  if String.eqb x "2026-10-30T22:09:00Z" then Some (mkTime callerInstant 0)
  else None.

Definition exampleFormat (t : Time) : option string :=
  if instant t =? callerInstant then Some "2026-10-30T22:09:00Z"
  else if instant t =? clockInstant then Some "2026-10-30T22:09:01Z"
  else None.

(** A world whose clock shows [clockInstant], whose random source
    counts, whose broker accepts every message at partition 0 and the
    next offset, and in which no request times out. *)
Definition exampleWorld : World :=
  mkWorld (mkStream (fun _ => mkTime clockInstant 0) 0)
    (mkStream countingBytes 0)
    (mkStream (fun n => Some (0, Z.of_nat n)) 0)
    (mkStream (fun _ => false) 0)
    [].

(** [KAFKA_TOPIC] at its default. *)
Definition exampleServer : Server := mkServer "telemetry.events".

(** The payload of the specification's scenario, with further members. *)
Definition scenario (more : list (string * Json.Value)) : Json.Document :=
  Json.WellFormed
    (Json.Obj
       ([ ("service", Json.Str "auth");
          ("customer_id", Json.Str "c1");
          ("endpoint", Json.Str "/x");
          ("method", Json.Str "GET");
          ("status_code", Json.Num (Json.Int 200)) ] ++ more)).

(** The handler's answer to a POST with that body, in that world, with
    [ENVIRONMENT] at its default. *)
Definition exampleIngest (body : Json.Document) : Response * World :=
  ingest exampleParse exampleFormat exampleServer "local" (post body) exampleWorld.

(** *** The environment of the process *)

(** [getenv(key, def)] *)
Definition getenv (environ : gmap string string) (key def : string) : string :=
  let v := Getenv environ key in
  if String.eqb (TrimSpace v) "" then def else v.

(** [getenvInt(key, def)], with [strconv.Atoi] *)
Definition getenvInt (environ : gmap string string) (key : string) (def : Z) : Z :=
  let v := Getenv environ key in
  if String.eqb (TrimSpace v) "" then def
  else
    match Atoi v with
    | Some i => i
    | None => def
    end.

End Gateway.

(** ** The writer-consumer *)
Module Writer.

(** A reading of the clock ([time.Now()], in UTC), as far as the program
    looks at it: the instant in nanoseconds (Unix time), and what
    [Year()], [Month()], [Day()] and [Hour()] return for it. *)
Record Time : Type := mkTime {
  unixNano : Z;
  Year : Z;
  Month : Z;
  Day : Z;
  Hour : Z
}.

(** [t.UnixMilli()] *)
Definition UnixMilli (t : Time) : Z := unixNano t / 1000000.

(** [time.Since(t)], given the reading of the clock it takes. *)
Definition Since (now t : Time) : Z := sat64 (unixNano now - unixNano t).

(** The row persisted for one event: the fields carrying a [parquet] tag. *)
Record TelemetryEvent : Type := mkEvent {
  Timestamp : Z;
  Service : string;
  CustomerID : string;
  Endpoint : string;
  Method : string;
  StatusCode : Z;
  LatencyMs : Z;
  TraceID : string;
  Error : string;
  Environment : string;
  SchemaVer : Z;
  IngestedAt : Z
}.

(** The shape a log message is decoded to. *)
Record rawEvent : Type := mkRaw {
  rawTimestamp : string;
  rawService : string;
  rawCustomerID : string;
  rawEndpoint : string;
  rawMethod : string;
  rawStatusCode : Z;
  rawLatencyMs : Z;
  rawTraceID : string;
  rawError : string;
  rawEnvironment : string;
  rawSchemaVer : Z;
  rawIngestedAt : string;
  rawAttributes : gmap string string
}.

Definition zeroRaw : rawEvent := mkRaw "" "" "" "" "" 0 0 "" "" "" 0 "" ∅.

Definition setRawTimestamp (x : string) (r : rawEvent) : rawEvent :=
  let '(mkRaw _ b c d e f g h i j k l m) := r in mkRaw x b c d e f g h i j k l m.
Definition setRawService (x : string) (r : rawEvent) : rawEvent :=
  let '(mkRaw a _ c d e f g h i j k l m) := r in mkRaw a x c d e f g h i j k l m.
Definition setRawCustomerID (x : string) (r : rawEvent) : rawEvent :=
  let '(mkRaw a b _ d e f g h i j k l m) := r in mkRaw a b x d e f g h i j k l m.
Definition setRawEndpoint (x : string) (r : rawEvent) : rawEvent :=
  let '(mkRaw a b c _ e f g h i j k l m) := r in mkRaw a b c x e f g h i j k l m.
Definition setRawMethod (x : string) (r : rawEvent) : rawEvent :=
  let '(mkRaw a b c d _ f g h i j k l m) := r in mkRaw a b c d x f g h i j k l m.
Definition setRawStatusCode (x : Z) (r : rawEvent) : rawEvent :=
  let '(mkRaw a b c d e _ g h i j k l m) := r in mkRaw a b c d e x g h i j k l m.
Definition setRawLatencyMs (x : Z) (r : rawEvent) : rawEvent :=
  let '(mkRaw a b c d e f _ h i j k l m) := r in mkRaw a b c d e f x h i j k l m.
Definition setRawTraceID (x : string) (r : rawEvent) : rawEvent :=
  let '(mkRaw a b c d e f g _ i j k l m) := r in mkRaw a b c d e f g x i j k l m.
Definition setRawError (x : string) (r : rawEvent) : rawEvent :=
  let '(mkRaw a b c d e f g h _ j k l m) := r in mkRaw a b c d e f g h x j k l m.
Definition setRawEnvironment (x : string) (r : rawEvent) : rawEvent :=
  let '(mkRaw a b c d e f g h i _ k l m) := r in mkRaw a b c d e f g h i x k l m.
Definition setRawSchemaVer (x : Z) (r : rawEvent) : rawEvent :=
  let '(mkRaw a b c d e f g h i j _ l m) := r in mkRaw a b c d e f g h i j x l m.
Definition setRawIngestedAt (x : string) (r : rawEvent) : rawEvent :=
  let '(mkRaw a b c d e f g h i j k _ m) := r in mkRaw a b c d e f g h i j k x m.
Definition setRawAttributes (x : gmap string string) (r : rawEvent) : rawEvent :=
  let '(mkRaw a b c d e f g h i j k l _) := r in mkRaw a b c d e f g h i j k l x.

(** The fields of [rawEvent], by [json] tag, in declaration order. *)
Definition rawFields : list (string * Json.Setter rawEvent) :=
  [ Json.field "timestamp" rawTimestamp setRawTimestamp Json.storeString;
    Json.field "service" rawService setRawService Json.storeString;
    Json.field "customer_id" rawCustomerID setRawCustomerID Json.storeString;
    Json.field "endpoint" rawEndpoint setRawEndpoint Json.storeString;
    Json.field "method" rawMethod setRawMethod Json.storeString;
    Json.field "status_code" rawStatusCode setRawStatusCode (Json.storeInt fits_int32);
    Json.field "latency_ms" rawLatencyMs setRawLatencyMs (Json.storeInt fits_int32);
    Json.field "trace_id" rawTraceID setRawTraceID Json.storeString;
    Json.field "error" rawError setRawError Json.storeString;
    Json.field "environment" rawEnvironment setRawEnvironment Json.storeString;
    Json.field "schema_version" rawSchemaVer setRawSchemaVer (Json.storeInt fits_int32);
    Json.field "ingested_at" rawIngestedAt setRawIngestedAt Json.storeString;
    Json.field "attributes" rawAttributes setRawAttributes Json.storeMap ].

(** [json.Unmarshal(b, &r)]: keys that match no field are skipped. *)
Definition Unmarshal (b : Json.Document) : Json.Error + rawEvent :=
  Json.decodeStruct rawFields false zeroRaw b.

Record Config : Type := mkConfig {
  KafkaBrokers : string;
  KafkaTopic : string;
  KafkaGroup : string;
  MinIOEndpoint : string;
  MinIOAccessKey : string;
  MinIOSecretKey : string;
  MinIOBucket : string;
  MinIOUseSSL : bool;
  FlushEveryN : Z;
  FlushEverySecs : Z
}.

(** *** The persisted columnar form

    One column per [parquet] tag of [TelemetryEvent], in declaration
    order, each holding one cell per row.  [error] is the only column
    tagged [repetitiontype=OPTIONAL]: its cells are nullable. *)
Record Table : Type := mkTable {
  col_timestamp : list Z;
  col_service : list string;
  col_customer_id : list string;
  col_endpoint : list string;
  col_method : list string;
  col_status_code : list Z;
  col_latency_ms : list Z;
  col_trace_id : list string;
  col_error : list (option string);
  col_environment : list string;
  col_schema_version : list Z;
  col_ingested_at : list Z
}.

Definition emptyTable : Table := mkTable [] [] [] [] [] [] [] [] [] [] [] [].




(** *** Effects *)

(** The step of [flush] whose error it returns. *)
Inductive FlushError : Type :=
| WriteParquetFailed
| StatFailed
| OpenFailed
| UploadFailed.

(** The lines the consumer logs ([log.Printf]), by format string; of
    the line of a flush the event count, the bucket and the key are
    kept (the byte count of the file is not modelled). *)
Inductive LogLine : Type :=
| ConsumerSetup
| BadEventJSON (e : Json.Error)
| FlushFailed (e : FlushError)
| Flushed (n : nat) (bucket key : string).

(** What the program does that is seen outside it, in order: a log line,
    a message marked as consumed ([sess.MarkMessage]), an object stored
    ([PutObject] that returned no error). *)
Inductive Effect : Type :=
| Log (l : LogLine)
| MarkMessage (offset : Z)
| PutObject (bucket key : string) (content : Table).

(** What surrounds the consumer: the clock, [crypto/rand], whether each
    call that can fail (parquet writer, file system, object store) does,
    the temporary directory and its files, and the effects so far. *)
Record World : Type := mkWorld {
  clock : Stream Time;
  entropy : Stream Byte.byte;
  faults : Stream bool;
  tmpDir : string;
  files : gmap string Table;
  effects : list Effect
}.

(** [time.Now()] *)
Definition timeNow : State World Time :=
  fun w =>
    let (t, c) := read (clock w) in
    (t, mkWorld c (entropy w) (faults w) (tmpDir w) (files w) (effects w)).

(** [rand.Read(b)] for a slice of [n] bytes. *)
Definition randRead (n : nat) : State World (list Byte.byte) :=
  fun w =>
    let (b, e) := readN n (entropy w) in
    (b, mkWorld (clock w) e (faults w) (tmpDir w) (files w) (effects w)).

(** Whether the external call made now fails. *)
Definition fails : State World bool :=
  fun w =>
    let (b, f) := read (faults w) in
    (b, mkWorld (clock w) (entropy w) f (tmpDir w) (files w) (effects w)).

(** The effect [e] happens. *)
Definition emit (e : Effect) : State World unit :=
  fun w =>
    (tt, mkWorld (clock w) (entropy w) (faults w) (tmpDir w) (files w)
           (effects w ++ [e])).

(** The temporary files, by path: written, removed ([os.Remove]), read. *)
Definition writeFile (path : string) (t : Table) : State World unit :=
  fun w =>
    (tt, mkWorld (clock w) (entropy w) (faults w) (tmpDir w)
           (<[path := t]> (files w)) (effects w)).

Definition removeFile (path : string) : State World unit :=
  fun w =>
    (tt, mkWorld (clock w) (entropy w) (faults w) (tmpDir w)
           (delete path (files w)) (effects w)).

Definition readFile (path : string) : State World (option Table) :=
  fun w => (files w !! path, w).

(** [os.TempDir()] *)
Definition getTmpDir : State World string := fun w => (tmpDir w, w).

(** [randomHex(nBytes)] *)
Definition randomHex (nBytes : nat) : State World string :=
  let* b := randRead nBytes in
  ret (EncodeToString b).

(** *** The consumer handler *)

(** [WriterHandler]; its object-store client is the world's. *)
Record WriterHandler : Type := mkHandler {
  cfg : Config;
  events : list TelemetryEvent;
  lastFlush : Time
}.

(** [sarama.ConsumerMessage]: the bytes and the position in the log. *)
Record ConsumerMessage : Type := mkMessage { Value : Json.Document; Offset : Z }.

(** What the [select] of the consumer loop receives. *)
Inductive Select : Type :=
| Message (msg : ConsumerMessage)
| MessagesClosed
| Tick
| ContextDone.

(** How [ConsumeClaim] is left: by [return nil], by the panic of
    [time.NewTicker] on a non-positive interval, or not yet (the loop
    waits in [select]). *)
Inductive Exit : Type :=
| Returned
| Panicked
| Waiting.

(** [NewWriterHandler(minioClient, cfg)] *)
Definition NewWriterHandler (c : Config) : State World WriterHandler :=
  let* now := timeNow in
  ret (mkHandler c [] now).

(** [h.Setup(s)] *)
Definition Setup (h : WriterHandler) : State World WriterHandler :=
  emit (Log ConsumerSetup) ;;;
  let* now := timeNow in
  ret (mkHandler (cfg h) (events h) now).

(** [filepath.Join] of a clean directory and a file name. *)
Definition Join (dir name : string) : string := dir +:+ "/" +:+ name.

(** The object key of a flush made at [now] with random suffix [suffix]. *)
Definition objectKey (now : Time) (suffix : string) : string :=
  "telemetry/parquet/date=" +:+ fmt_0d 4 (Year now) +:+ "-"
  +:+ fmt_0d 2 (Month now) +:+ "-" +:+ fmt_0d 2 (Day now)
  +:+ "/hour=" +:+ fmt_0d 2 (Hour now)
  +:+ "/batch-" +:+ suffix +:+ ".parquet".

Section Consumer.

(** [time.Parse(time.RFC3339Nano, s)] *)
Variable parseTime : string -> option Time.

(** What the Parquet writer puts in a cell of an [OPTIONAL] column for a
    field that is a plain [string], not a pointer: the library's choice
    (the string, or null), not the program's. *)
Variable optionalCell : string -> option string.

(** [pw.Write(ev)]: one cell more in every column. *)
Definition Write (ev : TelemetryEvent) (t : Table) : Table :=
  mkTable
    (col_timestamp t ++ [Timestamp ev])
    (col_service t ++ [Service ev])
    (col_customer_id t ++ [CustomerID ev])
    (col_endpoint t ++ [Endpoint ev])
    (col_method t ++ [Method ev])
    (col_status_code t ++ [StatusCode ev])
    (col_latency_ms t ++ [LatencyMs ev])
    (col_trace_id t ++ [TraceID ev])
    (col_error t ++ [optionalCell (Error ev)])
    (col_environment t ++ [Environment ev])
    (col_schema_version t ++ [SchemaVer ev])
    (col_ingested_at t ++ [IngestedAt ev]).

(** The loop of [writeParquet]: the first row that fails ends it. *)
Fixpoint writeRows (evs : list TelemetryEvent) (pw : Table) : State World (option Table) :=
  match evs with
  | [] => ret (Some pw)
  | ev :: rest =>
      let* bad := fails in
      if bad then ret None else writeRows rest (Write ev pw)
  end.

(** [writeParquet(path, events)]; the result is [err != nil]. *)
Definition writeParquet (path : string) (evs : list TelemetryEvent) : State World bool :=
  let* bad := fails in                      (* local.NewLocalFileWriter *)
  if bad then ret true
  else
    writeFile path emptyTable ;;;
    let* bad := fails in                    (* writer.NewParquetWriter *)
    if bad then ret true
    else
      let* pw := writeRows evs emptyTable in
      match pw with
      | None => ret true
      | Some t =>
          let* bad := fails in              (* pw.WriteStop *)
          if bad then ret true
          else writeFile path t ;;; ret false
      end.

(** [h.flush(ctx)]: the error returned ([None] for [nil]) and the handler
    afterwards. *)
Definition flush (h : WriterHandler) : State World (option FlushError * WriterHandler) :=
  if (length (events h) =? 0)%nat then ret (None, h)
  else
    let* now := timeNow in
    let* suffix := randomHex 8 in
    let key := objectKey now suffix in
    let* dir := getTmpDir in
    let* name := randomHex 6 in
    let tmpFile := Join dir ("tigerscope-" +:+ name +:+ ".parquet") in
    let* bad := writeParquet tmpFile (events h) in
    if bad then ret (Some WriteParquetFailed, h)
    else
      let* bad := fails in                  (* os.Stat *)
      if bad then ret (Some StatFailed, h)
      else
        let* bad := fails in                (* os.Open *)
        let* f := readFile tmpFile in
        match (if bad then None else f) with
        | None => ret (Some OpenFailed, h)
        | Some content =>
            let* bad := fails in            (* h.minio.PutObject *)
            if bad then ret (Some UploadFailed, h)
            else
              emit (PutObject (MinIOBucket (cfg h)) key content) ;;;
              emit (Log (Flushed (length (events h)) (MinIOBucket (cfg h)) key)) ;;;
              removeFile tmpFile ;;;
              let* now' := timeNow in
              ret (None, mkHandler (cfg h) [] now')
        end.

(** [h.Cleanup(s)] *)
Definition Cleanup (h : WriterHandler) : State World (option FlushError * WriterHandler) :=
  flush h.

(** [parseKafkaJSON(b)] *)
Definition parseKafkaJSON (b : Json.Document) : State World (Json.Error + TelemetryEvent) :=
  match Unmarshal b with
  | inl err => ret (inl err)
  | inr r =>
      let* ts :=
        (match parseTime (rawTimestamp r) with
         | Some t => ret t
         | None => timeNow
         end) in
      let* ing :=
        (match parseTime (rawIngestedAt r) with
         | Some t => ret t
         | None => timeNow
         end) in
      ret (inr (mkEvent (UnixMilli ts) (rawService r) (rawCustomerID r)
                  (rawEndpoint r) (rawMethod r) (rawStatusCode r)
                  (rawLatencyMs r) (rawTraceID r) (rawError r)
                  (rawEnvironment r) (rawSchemaVer r) (UnixMilli ing)))
  end.

(** [if err := h.flush(...); err != nil { log.Printf("flush error") }] *)
Definition flushAndLog (h : WriterHandler) : State World WriterHandler :=
  let* r := flush h in
  match fst r with
  | Some err => emit (Log (FlushFailed err)) ;;; ret (snd r)
  | None => ret (snd r)
  end.

(** [time.Duration(h.cfg.FlushEverySecs) * time.Second] *)
Definition flushInterval (c : Config) : Z := wrap64 (FlushEverySecs c * Second).

(** One turn of the loop of [ConsumeClaim]: the case [select] takes.
    [None] is [return nil]. *)
Definition loopBody (h : WriterHandler) (s : Select) : State World (option WriterHandler) :=
  match s with
  | MessagesClosed => ret None
  | Message msg =>
      let* r := parseKafkaJSON (Value msg) in
      match r with
      | inl err =>
          emit (Log (BadEventJSON err)) ;;;
          emit (MarkMessage (Offset msg)) ;;;
          ret (Some h)
      | inr ev =>
          let h := mkHandler (cfg h) (events h ++ [ev]) (lastFlush h) in
          emit (MarkMessage (Offset msg)) ;;;
          if Z.of_nat (length (events h)) >=? FlushEveryN (cfg h) then
            let* h := flushAndLog h in ret (Some h)
          else ret (Some h)
      end
  | Tick =>
      let* now := timeNow in
      if (Since now (lastFlush h) >=? flushInterval (cfg h))
         && (0 <? Z.of_nat (length (events h)))
      then let* h := flushAndLog h in ret (Some h)
      else ret (Some h)
  | ContextDone => ret None
  end.

(** The [for] loop, against what its [select] receives, in order; it
    is still waiting when that is used up. *)
Fixpoint consumeLoop (schedule : list Select) (h : WriterHandler)
  : State World (Exit * WriterHandler) :=
  match schedule with
  | [] => ret (Waiting, h)
  | s :: rest =>
      let* r := loopBody h s in
      match r with
      | None => ret (Returned, h)
      | Some h' => consumeLoop rest h'
      end
  end.

(** [h.ConsumeClaim(sess, claim)]: the ticker, then the loop. *)
Definition ConsumeClaim (schedule : list Select) (h : WriterHandler)
  : State World (Exit * WriterHandler) :=
  if flushInterval (cfg h) <=? 0 then ret (Panicked, h)
  else consumeLoop schedule h.

(** *** Reading a persisted object back

    The reader is no code of the writer: this is the decoding the
    specification speaks of, the rows of a table read under [schema]. *)

(** The string a nullable cell reads as (null as the empty string). *)
Definition cellString (c : option string) : string :=
  match c with
  | Some s => s
  | None => EmptyString
  end.

(** The rows of a table, read column by column under [schema]; [None]
    when the columns differ in length. *)
Fixpoint rows (t : Table) (n : nat) : option (list TelemetryEvent) :=
  match n with
  | O =>
      match t with
      | mkTable [] [] [] [] [] [] [] [] [] [] [] [] => Some []
      | _ => None
      end
  | S n' =>
      match t with
      | mkTable (a :: ta) (b :: tb) (c :: tc) (d :: td) (e :: te) (f :: tf)
          (g :: tg) (h :: th) (i :: ti) (j :: tj) (k :: tk) (l :: tl) =>
          option_map (cons (mkEvent a b c d e f g h (cellString i) j k l))
            (rows (mkTable ta tb tc td te tf tg th ti tj tk tl) n')
      | _ => None
      end
  end.


(** The table [writeParquet] hands to the file for a batch. *)
Definition encodeBatch (evs : list TelemetryEvent) : Table :=
  fold_left (fun t ev => Write ev t) evs emptyTable.

End Consumer.

(** *** Vocabulary of the claims about the consumer *)

Section Vocabulary.

Variable parseTime : string -> option Time.
Variable optionalCell : string -> option string.

(** The external sources are the same streams, read further. *)
Definition sameSources (w w' : World) : Prop :=
  next (clock w') = next (clock w)
  /\ next (entropy w') = next (entropy w)
  /\ next (faults w') = next (faults w)
  /\ tmpDir w' = tmpDir w.

(** Some external call is set to fail. *)
Definition someFault (w : World) : Prop := exists n, next (faults w) n = true.

(** The object key of the flush that starts in world [w]: from the next
    reading of the clock and the next eight random bytes. *)
Definition flushKey (w : World) : string :=
  objectKey (next (clock w) (pos (clock w)))
    (EncodeToString (map (next (entropy w)) (seq (pos (entropy w)) 8))).

(** The three ways [flush] ends. *)
Inductive flush_result (h : WriterHandler) (w : World)
  : option FlushError -> WriterHandler -> World -> Prop :=
| flush_empty :
    events h = [] -> flush_result h w None h w
| flush_failed e w' :
    events h <> [] -> effects w' = effects w -> sameSources w w' ->
    someFault w ->
    flush_result h w (Some e) h w'
| flush_done w' :
    events h <> [] ->
    effects w' = effects w
      ++ [ PutObject (MinIOBucket (cfg h)) (flushKey w)
             (encodeBatch optionalCell (events h));
           Log (Flushed (length (events h)) (MinIOBucket (cfg h)) (flushKey w)) ] ->
    sameSources w w' ->
    flush_result h w None
      (mkHandler (cfg h) [] (next (clock w) (S (pos (clock w))))) w'.

(** What [flushAndLog] does to a non-empty buffer: the flush fails and
    leaves the handler as it was, or succeeds and leaves it empty. *)
Inductive flush_outcome (h : WriterHandler) (w : World)
  : WriterHandler -> World -> Prop :=
| outcome_failed e w' :
    effects w' = effects w ++ [Log (FlushFailed e)] ->
    someFault w ->
    flush_outcome h w h w'
| outcome_done w' :
    effects w' = effects w
      ++ [ PutObject (MinIOBucket (cfg h)) (flushKey w)
             (encodeBatch optionalCell (events h));
           Log (Flushed (length (events h)) (MinIOBucket (cfg h)) (flushKey w)) ] ->
    flush_outcome h w
      (mkHandler (cfg h) [] (next (clock w) (S (pos (clock w))))) w'.

(** The handler with one event more in its buffer. *)
Definition withEvent (h : WriterHandler) (ev : TelemetryEvent) : WriterHandler :=
  mkHandler (cfg h) (events h ++ [ev]) (lastFlush h).

(** The test of the message case: [len(h.events) >= h.cfg.FlushEveryN]. *)
Definition sizeTrigger (h : WriterHandler) : bool :=
  Z.of_nat (length (events h)) >=? FlushEveryN (cfg h).

(** The test of the ticker case:
    [time.Since(h.lastFlush) >= ... && len(h.events) > 0]. *)
Definition timeTrigger (h : WriterHandler) (now : Time) : bool :=
  (Since now (lastFlush h) >=? flushInterval (cfg h))
  && (0 <? Z.of_nat (length (events h))).

(** An object stored; a position marked. *)
Definition isPut (e : Effect) : bool :=
  match e with PutObject _ _ _ => true | _ => false end.

Definition isMark (e : Effect) : bool :=
  match e with MarkMessage _ => true | _ => false end.

(** A log line that only a call of [flush] on a non-empty buffer leaves:
    ["flushed %d events"] from [flush] itself when it succeeds,
    ["flush error"] from the loop when it fails. *)
Definition isFlushAttempt (e : Effect) : bool :=
  match e with
  | Log (FlushFailed _) | Log (Flushed _ _ _) => true
  | _ => false
  end.

(** How many calls of [flush] on a non-empty buffer the effects show. *)
Definition flushAttempts (es : list Effect) : nat :=
  length (List.filter isFlushAttempt es).

(** The flush condition as the specification words it: buffered count
    at least [N], or a non-empty buffer and at least [T] elapsed since
    the last successful flush. *)
Definition shouldFlush (N T : Z) (count : nat) (elapsed : Z) : bool :=
  (Z.of_nat count >=? N) || ((elapsed >=? T) && negb (count =? 0)%nat).

(** When a turn of the loop calls [flush]: on a message that parses, by
    the size test on the buffer with that message in it; on a tick, by
    the time test at the reading of the clock the tick takes. *)
Definition trigger (h : WriterHandler) (s : Select) (w : World) : bool :=
  match s with
  | Message msg =>
      match fst (parseKafkaJSON parseTime (Value msg) w) with
      | inr ev => sizeTrigger (withEvent h ev)
      | inl _ => false
      end
  | Tick => timeTrigger h (next (clock w) (pos (clock w)))
  | MessagesClosed | ContextDone => false
  end.

(** A message [json.Unmarshal] accepts. *)
Definition parses (msg : ConsumerMessage) : Prop :=
  exists r, Unmarshal (Value msg) = inr r.

(** [sess.MarkMessage(msg, "")] *)
Definition mark (msg : ConsumerMessage) : Effect := MarkMessage (Offset msg).

(** The messages a run of the loop takes from the claim before it
    returns: those ahead of the first closing of the channel or of the
    session's context. *)
Fixpoint received (schedule : list Select) : list ConsumerMessage :=
  match schedule with
  | Message msg :: rest => msg :: received rest
  | Tick :: rest => received rest
  | _ => []
  end.

(** No external call fails. *)
Definition noFaults (w : World) : Prop := forall n, next (faults w) n = false.

(** The civil fields of a reading of the clock are those of a date and
    an hour, in a year of four digits. *)
Definition civil (t : Time) : Prop :=
  0 <= Year t <= 9999 /\ 1 <= Month t <= 12 /\ 1 <= Day t <= 31
  /\ 0 <= Hour t <= 23.

(** [s] is [n] decimal digits that denote [z]. *)
Definition decimal (n : nat) (z : Z) (s : string) : Prop :=
  String.length s = n /\ allDigits s = true
  /\ digitsValue s = Some (Z.to_N z).

(** The clock reading and the random bytes a flush starting in [w] uses. *)
Definition flushTime (w : World) : Time := next (clock w) (pos (clock w)).
Definition flushBytes (w : World) : list Byte.byte :=
  map (next (entropy w)) (seq (pos (entropy w)) 8).

(** The same date and hour: what the key shows of a reading. *)
Definition sameHour (t1 t2 : Time) : Prop :=
  Year t1 = Year t2 /\ Month t1 = Month t2 /\ Day t1 = Day t2 /\ Hour t1 = Hour t2.


(** The row of a decoded message: its fields, the two instants in
    milliseconds of Unix time.  Neither [rawAttributes] nor any key the
    decoder skipped takes part. *)
Definition rowOf (r : rawEvent) (ts ing : Time) : TelemetryEvent :=
  mkEvent (UnixMilli ts) (rawService r) (rawCustomerID r) (rawEndpoint r)
    (rawMethod r) (rawStatusCode r) (rawLatencyMs r) (rawTraceID r)
    (rawError r) (rawEnvironment r) (rawSchemaVer r) (UnixMilli ing).

(** The instant [parseKafkaJSON] takes for a time string: the parsed one,
    or the clock's [k]-th next reading. *)
Definition instantOf (s : string) (w : World) (k : nat) : Time :=
  match parseTime s with
  | Some t => t
  | None => next (clock w) (pos (clock w) + k)
  end.

(** How many readings of the clock a time string costs. *)
Definition clockReads (s : string) : nat :=
  match parseTime s with Some _ => 0 | None => 1 end.

(** No member of the object is the field [tag], under the decoder's
    matching of keys. *)
Definition lacks (tag : string) (ms : list (string * Json.Value)) : Prop :=
  Forall (fun kv => Json.foldName (fst kv) <> Json.foldName tag) ms.

(** A time member of a message: present with the string given, or absent. *)
Definition timeMember (tag : string) (s : option string) : list (string * Json.Value) :=
  match s with
  | Some x => [(tag, Json.Str x)]
  | None => []
  end.

(** A message of the raw event shape: the string and integer fields of
    [r] under their keys, and the two time members as given. *)
Definition messageFor (ts ing : option string) (r : rawEvent) : Json.Document :=
  Json.WellFormed
    (Json.Obj
       (timeMember "timestamp" ts
        ++ [ ("service", Json.Str (rawService r));
             ("customer_id", Json.Str (rawCustomerID r));
             ("endpoint", Json.Str (rawEndpoint r));
             ("method", Json.Str (rawMethod r));
             ("status_code", Json.Num (Json.Int (rawStatusCode r)));
             ("latency_ms", Json.Num (Json.Int (rawLatencyMs r)));
             ("trace_id", Json.Str (rawTraceID r));
             ("error", Json.Str (rawError r));
             ("environment", Json.Str (rawEnvironment r));
             ("schema_version", Json.Num (Json.Int (rawSchemaVer r))) ]
        ++ timeMember "ingested_at" ing)).

(** The records that differ in the two time strings at most. *)
Definition sameButTimes (r r' : rawEvent) : Prop :=
  exists a b, r' = setRawTimestamp a (setRawIngestedAt b r).

(** A log line for a parse failure. *)
Definition isBadEvent (e : Effect) : bool :=
  match e with
  | Log (BadEventJSON _) => true
  | _ => false
  end.





End Vocabulary.

(** *** Concrete runs *)

(** 2026-10-30T22:09:00Z *)
Definition exampleTime : Time := mkTime 1793398140000000000 2026 10 30 22.

(** A stand-in for [time.Parse] that knows one RFC 3339 string; the runs
    below apply it to that string and to the empty string only. *)
Definition exampleParse (s : string) : option Time :=
  if String.eqb s "2026-10-30T22:09:00Z" then Some exampleTime else None.

(** Modelled from the spec: what the Parquet library, which is not in
    the sources, stores in the [OPTIONAL] column [error] for a field
    that is a plain [string]: the string itself, as the round trip of
    the specification has it. *)
Definition storesValue (s : string) : option string := Some s.

(** The configuration [main] builds when the environment sets only the
    two flush parameters. *)
Definition exampleConfig (n secs : Z) : Config :=
  mkConfig "localhost:9092" "telemetry.events" "tigerscope-writer"
    "localhost:9000" "minioadmin" "minioadmin" "tigerscope" false n secs.

(** A clock whose first reading is [step] nanoseconds after
    [exampleTime], and every further one [step] after the one before. *)
Definition clockEvery (step : Z) : Stream Time :=
  mkStream
    (fun n => mkTime (unixNano exampleTime + Z.of_nat (S n) * step) 2026 10 30 22) 0.

(** A world with that clock, a random source, the failures of the
    external calls, and nothing stored or logged yet. *)
Definition exampleWorld (step : Z) (ent : nat -> Byte.byte) (flt : nat -> bool) : World :=
  mkWorld (clockEvery step) (mkStream ent 0) (mkStream flt 0) "/tmp" ∅ [].

(** An event as the gateway publishes it. *)
Definition exampleDoc (request_id : string) : Json.Value :=
  Json.Obj
    [ ("timestamp", Json.Str "2026-10-30T22:09:00Z");
      ("service", Json.Str "auth");
      ("customer_id", Json.Str "c1");
      ("endpoint", Json.Str "/x");
      ("method", Json.Str "GET");
      ("status_code", Json.Num (Json.Int 200));
      ("latency_ms", Json.Num (Json.Int 12));
      ("trace_id", Json.Str "000102030405060708090a0b0c0d0e0f");
      ("request_id", Json.Str request_id);
      ("ingested_at", Json.Str "2026-10-30T22:09:00Z");
      ("schema_version", Json.Num (Json.Int 1));
      ("environment", Json.Str "local") ].

(** That event in the log at [offset], and the row it is persisted as. *)
Definition exampleMessage (offset : Z) : ConsumerMessage :=
  mkMessage (Json.WellFormed (exampleDoc "101112131415161718191a1b")) offset.

Definition exampleRow : TelemetryEvent :=
  mkEvent 1793398140000 "auth" "c1" "/x" "GET" 200 12
    "000102030405060708090a0b0c0d0e0f" "" "local" 1 1793398140000.

(** A handler as [NewWriterHandler] leaves it at [exampleTime]. *)
Definition freshHandler (n secs : Z) : WriterHandler :=
  mkHandler (exampleConfig n secs) [] exampleTime.

(** The first 499 messages of the scenario, at offsets 0 to 498. *)
Definition firstMessages : list ConsumerMessage :=
  map (fun n => exampleMessage (Z.of_nat n)) (seq 0 499).

(** The seventh external call of a flush of one row is [PutObject]
    (after the two writers, the row, [WriteStop], [os.Stat], [os.Open]). *)
Definition uploadFails (n : nat) : bool := (n =? 6)%nat.

(** *** Vocabulary of whole runs of the consumer *)

Section Runs.

Variable parseTime : string -> option Time.
Variable optionalCell : string -> option string.

(** The content of the objects stored, in the order they were stored. *)
Definition storedTables (es : list Effect) : list Table :=
  flat_map (fun e => match e with PutObject _ _ t => [t] | _ => [] end) es.

(** [json.Unmarshal] accepts the message. *)
Definition accepted (msg : ConsumerMessage) : bool :=
  match Unmarshal (Value msg) with
  | inr _ => true
  | inl _ => false
  end.

(** [ev] is a row [parseKafkaJSON] returns for the message (the clock
    decides which, when a time string does not parse). *)
Definition rowFrom (msg : ConsumerMessage) (ev : TelemetryEvent) : Prop :=
  exists w, fst (parseKafkaJSON parseTime (Value msg) w) = inr ev.

(** The temporary file of the flush that starts in [w]: its name takes
    the six random bytes after the eight of the object key. *)
Definition flushTmpFile (w : World) : string :=
  Join (tmpDir w)
    ("tigerscope-"
     +:+ EncodeToString (map (next (entropy w)) (seq (pos (entropy w) + 8) 6))
     +:+ ".parquet").

(** The handler a turn of the loop leaves for the next one. *)
Definition afterTurn (h : WriterHandler) (r : option WriterHandler) : WriterHandler :=
  match r with
  | Some h' => h'
  | None => h
  end.

(** [t1] lies in an earlier hour than [t2], by date and hour. *)
Definition hourBefore (t1 t2 : Time) : Prop :=
  Year t1 < Year t2
  \/ (Year t1 = Year t2
      /\ (Month t1 < Month t2
          \/ (Month t1 = Month t2
              /\ (Day t1 < Day t2 \/ (Day t1 = Day t2 /\ Hour t1 < Hour t2))))).

(** One session of [consumerGroup.Consume] for a member that holds one
    claim, as the library drives the handler: [Setup], then
    [ConsumeClaim], then, once that has returned, [Cleanup].  The result
    is how the loop was left, the error of [Cleanup] and the handler
    [main] passes to the next session. *)
Definition session (schedule : list Select) (h : WriterHandler)
  : State World (Exit * option FlushError * WriterHandler) :=
  let* h := Setup h in
  let* r := ConsumeClaim parseTime optionalCell schedule h in
  match fst r with
  | Returned =>
      let* c := Cleanup optionalCell (snd r) in
      ret (Returned, fst c, snd c)
  | e => ret (e, None, snd r)
  end.

End Runs.

(** *** The environment of the process *)

(** [getenv(key, def)] *)
Definition getenv (environ : gmap string string) (key def : string) : string :=
  let v := Getenv environ key in
  if String.eqb (TrimSpace v) "" then def else v.

(** [getenvInt(key, def)], with [fmt.Sscanf] *)
Definition getenvInt (environ : gmap string string) (key : string) (def : Z) : Z :=
  let v := Getenv environ key in
  if String.eqb (TrimSpace v) "" then def
  else
    match Sscanf_d v with
    | Some n => n
    | None => def
    end.

(** The configuration [main] reads from the environment. *)
Definition mainConfig (environ : gmap string string) : Config :=
  mkConfig
    (getenv environ "KAFKA_BROKERS" "localhost:9092")
    (getenv environ "KAFKA_TOPIC" "telemetry.events")
    (getenv environ "KAFKA_GROUP" "tigerscope-writer")
    (getenv environ "MINIO_ENDPOINT" "localhost:9000")
    (getenv environ "MINIO_ACCESS_KEY" "minioadmin")
    (getenv environ "MINIO_SECRET_KEY" "minioadmin")
    (getenv environ "MINIO_BUCKET" "tigerscope")
    (String.eqb (getenv environ "MINIO_USE_SSL" "false") "true")
    (getenvInt environ "FLUSH_EVERY_N" 500)
    (getenvInt environ "FLUSH_EVERY_SECS" 5).

End Writer.

(** ** The query API *)
Module Query.

(** [minio.ObjectInfo], as far as the listing looks at it: the key, and
    the error the channel of [ListObjects] reports in its place. *)
Record ObjectInfo : Type := mkObject { Key : string; Err : option string }.

(** [QueryEngine]; its database and its object-store client are the
    world's. *)
Record QueryEngine : Type := mkEngine {
  bucket : string;
  prefix : string;
  minioHTTP : string
}.

(** The engine [main] builds. *)
Definition mainEngine : QueryEngine :=
  mkEngine "tigerscope" "telemetry/parquet/" "http://localhost:9000".

(** [strings.HasSuffix] *)
Definition HasSuffix (s suffix : string) : bool :=
  (String.length suffix <=? String.length s)%nat
  && String.eqb
       (substring (String.length s - String.length suffix) (String.length suffix) s)
       suffix.

(** The order of [sort.Strings]: byte by byte. *)
Definition strLe (a b : string) : Prop := String.leb a b = true.

#[global] Instance strLe_dec : RelDecision strLe :=
  fun a b => decide (String.leb a b = true).

(** [sort.Strings(files)]: the strings in ascending order.  The order is
    total and antisymmetric, so the result is the same whatever the
    sorting algorithm. *)
Definition sortStrings (files : list string) : list string :=
  merge_sort strLe files.

(** [strings.ReplaceAll(s, old, new)] for an [old] of one byte. *)
Fixpoint ReplaceAll (s : string) (old : ascii) (new : string) : string :=
  match s with
  | EmptyString => EmptyString
  | String c rest =>
      if Ascii.eqb c old then new +:+ ReplaceAll rest old new
      else String c (ReplaceAll rest old new)
  end.

(** [strings.Join(elems, sep)] *)
Fixpoint Join (elems : list string) (sep : string) : string :=
  match elems with
  | [] => EmptyString
  | [x] => x
  | x :: rest => x +:+ sep +:+ Join rest sep
  end.

(** [duckdbFileArrayLiteral(files)] *)
Definition duckdbFileArrayLiteral (files : list string) : string :=
  "[" +:+ Join (map (fun f => "'" +:+ ReplaceAll f "'" "''" +:+ "'") files) ","
  +:+ "]".

Section Listing.

(** [qe.minioClient.ListObjects(ctx, bucket, opts)]: what its channel
    yields, in order, for a bucket and a prefix (listed recursively). *)
Variable ListObjects : string -> string -> list ObjectInfo.

(** The loop of [parquetFileList] over the channel. *)
Fixpoint collect (qe : QueryEngine) (objs : list ObjectInfo) (files : list string)
  : string + list string :=
  match objs with
  | [] => inr files
  | obj :: rest =>
      match Err obj with
      | Some e => inl e
      | None =>
          if HasSuffix (Key obj) ".parquet" then
            collect qe rest
              (files ++ [minioHTTP qe +:+ "/" +:+ bucket qe +:+ "/" +:+ Key obj])
          else collect qe rest files
      end
  end.

(** [qe.parquetFileList(limit)]: the error of the listing, or the files. *)
Definition parquetFileList (qe : QueryEngine) (limit : Z) : string + list string :=
  match collect qe (ListObjects (bucket qe) (prefix qe)) [] with
  | inl e => inl e
  | inr files =>
      let files := sortStrings files in
      if (0 <? limit) && (limit <? Z.of_nat (length files)) then
        inr (drop (length files - Z.to_nat limit) files)
      else inr files
  end.

End Listing.

(** *** The statements sent to DuckDB *)

(** The statement of [handleErrorRate], around the list of files. *)
Definition errorRateSQL (src : string) : string :=
  "
		SELECT
		  service,
		  CAST(COUNT(*) AS BIGINT) AS total_requests,
		  CAST(SUM(CASE WHEN status_code >= 500 THEN 1 ELSE 0 END) AS BIGINT) AS errors,
		  CAST(ROUND(100.0 * SUM(CASE WHEN status_code >= 500 THEN 1 ELSE 0 END) / COUNT(*), 2) AS DOUBLE) AS error_rate_pct
		FROM read_parquet(" +:+ src +:+ ", filename=true)
		GROUP BY service
		ORDER BY error_rate_pct DESC;
	".

(** The statement of [handleP95Latency]. *)
Definition p95LatencySQL (src : string) : string :=
  "
		SELECT
		  service,
		  CAST(ROUND(quantile_cont(latency_ms, 0.95), 2) AS DOUBLE) AS p95_latency_ms
		FROM read_parquet(" +:+ src +:+ ", filename=true)
		GROUP BY service
		ORDER BY p95_latency_ms DESC;
	".

(** The statement of [handleTopImpactedCustomers]. *)
Definition topImpactedCustomersSQL (src : string) : string :=
  "
		SELECT
		  customer_id,
		  CAST(COUNT(*) AS BIGINT) AS requests,
		  CAST(SUM(CASE WHEN status_code >= 500 THEN 1 ELSE 0 END) AS BIGINT) AS errors
		FROM read_parquet(" +:+ src +:+ ", filename=true)
		GROUP BY customer_id
		ORDER BY errors DESC
		LIMIT 10;
	".

(** The statement of [handleCustomerAvailability]. *)
Definition customerAvailabilitySQL (src : string) : string :=
  "
		SELECT
		  customer_id,
		  CAST(COUNT(*) AS BIGINT) AS total,
		  CAST(SUM(CASE WHEN status_code < 500 THEN 1 ELSE 0 END) AS BIGINT) AS successful,
		  CAST(ROUND(100.0 * SUM(CASE WHEN status_code < 500 THEN 1 ELSE 0 END) / COUNT(*), 2) AS DOUBLE) AS availability_pct
		FROM read_parquet(" +:+ src +:+ ", filename=true)
		GROUP BY customer_id
		ORDER BY availability_pct ASC;
	".

(** The statement of [handleSummary]. *)
Definition summarySQL (src : string) : string :=
  "
		SELECT
		  CAST(COUNT(*) AS BIGINT) AS total_rows,
		  MAX(ingested_at) AS max_ingested_at
		FROM read_parquet(" +:+ src +:+ ", filename=true);
	".

(** *** The handlers *)

(** One row of a result as [rows.Scan] leaves it: scanned into the
    handler's [Row], or the error of the scan. *)
Inductive Scan (Row : Type) : Type :=
| ScanError (err : string)
| Scanned (row : Row).
Arguments ScanError {Row} _.
Arguments Scanned {Row} _.

(** What [qe.db.Query] gives for a statement: an error, or the rows that
    [rows.Next] steps through. *)
Inductive QueryResult (Row : Type) : Type :=
| QueryError (err : string)
| ResultRows (rows : list (Scan Row)).
Arguments QueryError {Row} _.
Arguments ResultRows {Row} _.

(** The value a handler passes to [c.JSON]: the map with the key
    ["error"], the literal [[]any{}], the slice [out] (nil when no row
    was appended), or the two entries of the summary. *)
Inductive Body (Row : Type) : Type :=
| ErrorBody (err : string)
| EmptyList
| RowList (out : list Row)
| SummaryBody (total_rows : Z) (latest_ingested : string).
Arguments ErrorBody {Row} _.
Arguments EmptyList {Row}.
Arguments RowList {Row} _.
Arguments SummaryBody {Row} _ _.

Record Response (Row : Type) : Type := mkResponse { status : Z; body : Body Row }.
Arguments mkResponse {Row} _ _.
Arguments status {Row} _.
Arguments body {Row} _.

Definition StatusOK : Z := 200.
Definition StatusInternalServerError : Z := 500.

(** The statements run on the database so far. *)
Definition Queries : Type := list string.

(** [qe.db.Query(stmt)] *)
Definition runQuery {R} (db : string -> R) (stmt : string) : State Queries R :=
  fun qs => (db stmt, qs ++ [stmt]).

(** The loop [for rows.Next() { ... rows.Scan ...; out = append(out, r) }]:
    the first scan that fails ends it. *)
Fixpoint scanRows {Row} (rows : list (Scan Row)) (out : list Row) : string + list Row :=
  match rows with
  | [] => inr out
  | ScanError e :: _ => inl e
  | Scanned r :: rest => scanRows rest (out ++ [r])
  end.

Section Handlers.

Variable ListObjects : string -> string -> list ObjectInfo.

(** [float64], and [time.Time] with [t.UTC().Format(time.RFC3339)]. *)
Variable float64 : Type.
Variable Time : Type.
Variable formatUTC : Time -> string.

(** The rows of the four lists. *)
Record ErrorRateRow : Type := mkErrorRate {
  erService : string;
  erTotal : Z;
  erErrors : Z;
  erErrorRatePct : float64
}.

Record P95Row : Type := mkP95 {
  p95Service : string;
  p95LatencyMs : float64
}.

Record ImpactRow : Type := mkImpact {
  imCustomerID : string;
  imRequests : Z;
  imErrors : Z
}.

Record AvailabilityRow : Type := mkAvailability {
  avCustomerID : string;
  avTotal : Z;
  avSuccessful : Z;
  avAvailabilityPct : float64
}.

(** The body the four list handlers share, word for word but for the
    statement and the type of the rows. *)
Definition listHandler {Row} (sql : string -> string)
  (db : string -> QueryResult Row) (qe : QueryEngine) : State Queries (Response Row) :=
  match parquetFileList ListObjects qe 200 with
  | inl e => ret (mkResponse StatusInternalServerError (ErrorBody e))
  | inr files =>
      if (length files =? 0)%nat then ret (mkResponse StatusOK EmptyList)
      else
        let src := duckdbFileArrayLiteral files in
        let* r := runQuery db (sql src) in
        match r with
        | QueryError e => ret (mkResponse StatusInternalServerError (ErrorBody e))
        | ResultRows rows =>
            match scanRows rows [] with
            | inl e => ret (mkResponse StatusInternalServerError (ErrorBody e))
            | inr out => ret (mkResponse StatusOK (RowList out))
            end
        end
  end.

(** [qe.handleErrorRate(c)] *)
Definition handleErrorRate
  : (string -> QueryResult ErrorRateRow) -> QueryEngine
    -> State Queries (Response ErrorRateRow) :=
  listHandler errorRateSQL.

(** [qe.handleP95Latency(c)] *)
Definition handleP95Latency
  : (string -> QueryResult P95Row) -> QueryEngine -> State Queries (Response P95Row) :=
  listHandler p95LatencySQL.

(** [qe.handleTopImpactedCustomers(c)] *)
Definition handleTopImpactedCustomers
  : (string -> QueryResult ImpactRow) -> QueryEngine
    -> State Queries (Response ImpactRow) :=
  listHandler topImpactedCustomersSQL.

(** [qe.handleCustomerAvailability(c)] *)
Definition handleCustomerAvailability
  : (string -> QueryResult AvailabilityRow) -> QueryEngine
    -> State Queries (Response AvailabilityRow) :=
  listHandler customerAvailabilitySQL.

(** [qe.handleSummary(c)]; [db] is [qe.db.QueryRow(stmt).Scan(&total,
    &maxIngested)]. *)
Definition handleSummary (db : string -> string + (Z * Time)) (qe : QueryEngine)
  : State Queries (Response unit) :=
  match parquetFileList ListObjects qe 200 with
  | inl e => ret (mkResponse StatusInternalServerError (ErrorBody e))
  | inr files =>
      if (length files =? 0)%nat then ret (mkResponse StatusOK (SummaryBody 0 ""))
      else
        let src := duckdbFileArrayLiteral files in
        let* r := runQuery db (summarySQL src) in
        match r with
        | inl e => ret (mkResponse StatusInternalServerError (ErrorBody e))
        | inr (total, maxIngested) =>
            ret (mkResponse StatusOK (SummaryBody total (formatUTC maxIngested)))
        end
  end.

End Handlers.

(** *** Reading a list literal back

    DuckDB's reading of a bracketed list of string constants: a constant
    runs from a quote to the next quote that is not doubled, and a
    doubled quote inside it stands for one quote. *)

(** The constant that starts after an opening quote, and what follows
    its closing quote. *)
Fixpoint readConstant (s : string) : option (string * string) :=
  match s with
  | EmptyString => None
  | String c rest =>
      if Ascii.eqb c "'" then
        match rest with
        | String c' rest' =>
            if Ascii.eqb c' "'" then
              match readConstant rest' with
              | Some (x, r) => Some (String "'" x, r)
              | None => None
              end
            else Some (EmptyString, rest)
        | EmptyString => Some (EmptyString, rest)
        end
      else
        match readConstant rest with
        | Some (x, r) => Some (String c x, r)
        | None => None
        end
  end.

(** The constants of a list, after the bracket or a comma. *)
Fixpoint readConstants (fuel : nat) (s : string) : option (list string) :=
  match fuel with
  | O => None
  | S fuel' =>
      match s with
      | String q s1 =>
          if Ascii.eqb q "'" then
            match readConstant s1 with
            | Some (x, String c rest) =>
                if Ascii.eqb c "," then
                  match readConstants fuel' rest with
                  | Some xs => Some (x :: xs)
                  | None => None
                  end
                else if Ascii.eqb c "]" then
                  match rest with
                  | EmptyString => Some [x]
                  | _ => None
                  end
                else None
            | _ => None
            end
          else None
      | EmptyString => None
      end
  end.

Definition readListLiteral (s : string) : option (list string) :=
  match s with
  | String a rest =>
      if Ascii.eqb a "[" then
        if String.eqb rest "]" then Some []
        else readConstants (String.length rest) rest
      else None
  | EmptyString => None
  end.

(** *** Vocabulary of the properties of the listing *)

(** The URL under which DuckDB reads the object of a key. *)
Definition fileURL (qe : QueryEngine) (key : string) : string :=
  minioHTTP qe +:+ "/" +:+ bucket qe +:+ "/" +:+ key.

(** The listing reports no error for the object. *)
Definition noError (o : ObjectInfo) : Prop := Err o = None.

(** The URLs of the objects of a listing whose key ends in [.parquet],
    in the order listed. *)
Definition parquetURLs (qe : QueryEngine) (objs : list ObjectInfo) : list string :=
  map (fun o => fileURL qe (Key o))
    (List.filter (fun o => HasSuffix (Key o) ".parquet") objs).

(** A string constant as [duckdbFileArrayLiteral] writes it. *)
Definition quoted (f : string) : string := "'" +:+ ReplaceAll f "'" "''" +:+ "'".

(** How an endpoint [h] with statement [sql] uses the list of files
    [fl] that [parquetFileList] gave it: the error of the listing is
    answered 500 and no file is answered [empty], in both cases without
    a statement run; otherwise one statement is run, over the literal
    of the files. *)
Definition asksAtMostOnce {Row} (h : State Queries (Response Row))
  (sql : string -> string) (empty : Body Row) (fl : string + list string) : Prop :=
  forall qs,
    match fl with
    | inl e => h qs = (mkResponse StatusInternalServerError (ErrorBody e), qs)
    | inr [] => h qs = (mkResponse StatusOK empty, qs)
    | inr files =>
        snd (h qs) = qs ++ [sql (duckdbFileArrayLiteral files)]
        /\ (length files <= 200)%nat
    end.

End Query.

(** ** The load generator *)
Module LoadGen.

(** [Event]; [Attributes] is [None] for the nil map. *)
Record Event : Type := mkEvent {
  Timestamp : string;
  Service : string;
  CustomerID : string;
  Endpoint : string;
  Method : string;
  StatusCode : Z;
  LatencyMs : Z;
  TraceID : string;
  Error : string;
  Attributes : option (gmap string string)
}.

Definition setError (x : string) (ev : Event) : Event :=
  let '(mkEvent a b c d e f g h _ j) := ev in mkEvent a b c d e f g h x j.

(** [json.Marshal(event)]: the fields in declaration order, [error] left
    out when empty, [attributes] always there ([null] for the nil map). *)
Definition Marshal (ev : Event) : Json.Value :=
  Json.Obj
    ([ ("timestamp", Json.Str (Timestamp ev));
       ("service", Json.Str (Service ev));
       ("customer_id", Json.Str (CustomerID ev));
       ("endpoint", Json.Str (Endpoint ev));
       ("method", Json.Str (Method ev));
       ("status_code", Json.Num (Json.Int (StatusCode ev)));
       ("latency_ms", Json.Num (Json.Int (LatencyMs ev)));
       ("trace_id", Json.Str (TraceID ev)) ]
     ++ (if String.eqb (Error ev) "" then []
         else [ ("error", Json.Str (Error ev)) ])
     ++ [ ("attributes",
           match Attributes ev with
           | Some m =>
               Json.Obj (map (fun kv => (fst kv, Json.Str (snd kv))) (map_to_list m))
           | None => Json.Null
           end) ]).

(** [pickStatus(i)]; [%] is the remainder of the truncated division. *)
Definition pickStatus (i : Z) : Z :=
  if Z.rem i 10 =? 0 then 500 else 200.

Definition url : string := "http://localhost:8081/ingest".

Definition services : list string :=
  [ "auth-service"; "payments-service"; "orders-service" ].

Definition customers : list string :=
  [ "cust_200"; "cust_201"; "cust_202"; "cust_203" ].

(** [l[i]]; [None] is the panic of an index out of range. *)
Definition index (l : list string) (i : Z) : option string :=
  if i <? 0 then None else nth_error l (Z.to_nat i).

(** The event of turn [i] of the loop of [main], [now] being
    [time.Now().UTC().Format(time.RFC3339)]; [None] is a panic. *)
Definition event (now : string) (i : Z) : option Event :=
  match index services (Z.rem i (Z.of_nat (length services))),
        index customers (Z.rem i (Z.of_nat (length customers))) with
  | Some service, Some customer =>
      let ev :=
        mkEvent now service customer "/api/demo" "POST" (pickStatus i)
          (50 + Z.rem i 300) ("trace-" +:+ Itoa i) ""
          (Some (<["build" := "v0.1.0"]> (<["region" := "us-east-1"]> ∅))) in
      Some (if 500 <=? StatusCode ev then setError "simulated_failure" ev else ev)
  | _, _ => None
  end.

(** What the program prints, line by line. *)
Inductive Line : Type :=
| Starting
| Failed
| Sent (service customer : string) (status : Z)
| Done.

(** What surrounds the program: the clock (each reading already
    formatted), whether each [http.Post] fails, the requests made, the
    lines printed and the time slept, in nanoseconds. *)
Record World : Type := mkWorld {
  clock : Stream string;
  network : Stream bool;
  posted : list (string * Json.Value);
  printed : list Line;
  slept : Z
}.

(** [time.Now().UTC().Format(time.RFC3339)] *)
Definition timeNow : State World string :=
  fun w =>
    let (t, c) := read (clock w) in
    (t, mkWorld c (network w) (posted w) (printed w) (slept w)).

(** [http.Post(url, "application/json", body)]; the result is [err != nil]. *)
Definition Post (to : string) (body : Json.Value) : State World bool :=
  fun w =>
    let (bad, n) := read (network w) in
    (bad, mkWorld (clock w) n (posted w ++ [(to, body)]) (printed w) (slept w)).

(** [fmt.Println] *)
Definition print (l : Line) : State World unit :=
  fun w => (tt, mkWorld (clock w) (network w) (posted w) (printed w ++ [l]) (slept w)).

(** [time.Sleep(d)] *)
Definition Sleep (d : Z) : State World unit :=
  fun w => (tt, mkWorld (clock w) (network w) (posted w) (printed w) (slept w + d)).

Definition Millisecond : Z := 1000000.

(** [sendEvent(url, event)] *)
Definition sendEvent (to : string) (ev : Event) : State World unit :=
  let body := Marshal ev in
  let* bad := Post to body in
  if bad then print Failed
  else print (Sent (Service ev) (CustomerID ev) (StatusCode ev)).

(** The loop of [main] over the values of [i]; the result is whether it
    ran to its end (or panicked on an index). *)
Fixpoint loop (turns : list Z) : State World bool :=
  match turns with
  | [] => ret true
  | i :: rest =>
      let* now := timeNow in
      match event now i with
      | None => ret false
      | Some ev =>
          sendEvent url ev ;;;
          Sleep (50 * Millisecond) ;;;
          loop rest
      end
  end.

(** [main]: [i] runs from 1 to 50. *)
Definition main : State World bool :=
  print Starting ;;;
  let* ok := loop (map Z.of_nat (seq 1 50)) in
  if ok then print Done ;;; ret true else ret false.

(** *** Vocabulary *)

(** The body of request number [k], counted from zero, in a run of
    [main] that starts in [w]: it is made in turn [k + 1], at the
    [k]-th next reading of the clock. *)
Definition bodyOf (w : World) (k : nat) : option Json.Value :=
  option_map Marshal (event (next (clock w) (pos (clock w) + k)) (Z.of_nat (S k))).

End LoadGen.

(** ** The dashboard *)
Module Dashboard.

(** What a rejected promise carries, as [refresh] looks at it:
    [e.message] ([None] when it is undefined) and [String(e)]. *)
Record Reason : Type := mkReason { message : option string; asString : string }.

(** [new Error(msg)] *)
Definition newError (msg : string) : Reason :=
  mkReason (Some msg) (if String.eqb msg "" then "Error" else "Error: " +:+ msg).

(** What [fetch] gives for a URL: its promise rejects, or resolves with
    a response, of which [fetchJSON] reads the status and [res.json()]
    (which rejects on a body that is no JSON). *)
Inductive Fetched : Type :=
| FetchFailed (e : Reason)
| Response (status : Z) (json : Reason + Json.Value).

(** [res.ok] *)
Definition ok (status : Z) : bool := (200 <=? status) && (status <=? 299).

(** A settled promise. *)
Definition Settled : Type := (Reason + Json.Value)%type.

Section Refresh.

(** [API_BASE], and what [fetch] gives for each URL. *)
Variable API_BASE : string.
Variable fetch : string -> Fetched.

(** [fetchJSON(path)], settled. *)
Definition fetchJSON (path : string) : Settled :=
  match fetch (API_BASE +:+ path) with
  | FetchFailed e => inl e
  | Response status json =>
      if negb (ok status) then inl (newError (path +:+ " failed: " +:+ Itoa status))
      else json
  end.

(** [Promise.all(promises)], settled: the values when every promise is
    fulfilled; otherwise the reason of the promise that rejects first.
    [order] lists the promises, by index, in the order they settle
    ([None]: a promise rejects and [order] names none that does, so it
    is no order of settling). *)
Definition rejectedAt (promises : list Settled) (i : nat) : option Reason :=
  match nth_error promises i with
  | Some (inl e) => Some e
  | _ => None
  end.

Fixpoint values (promises : list Settled) : option (list Json.Value) :=
  match promises with
  | [] => Some []
  | inr v :: rest => option_map (cons v) (values rest)
  | inl _ :: _ => None
  end.

Fixpoint firstRejected (promises : list Settled) (order : list nat) : option Reason :=
  match order with
  | [] => None
  | i :: rest =>
      match rejectedAt promises i with
      | Some e => Some e
      | None => firstRejected promises rest
      end
  end.

Definition PromiseAll (promises : list Settled) (order : list nat)
  : option (Reason + list Json.Value) :=
  match values promises with
  | Some vs => Some (inr vs)
  | None => option_map inl (firstRejected promises order)
  end.

(** The state of [App]. *)
Record State : Type := mkState {
  loading : bool;
  err : string;
  availability : Json.Value;
  topImpacted : Json.Value;
  errorRate : Json.Value;
  p95 : Json.Value;
  summary : Json.Value;
  autoRefresh : bool
}.

(** The state [useState] starts from. *)
Definition initial : State :=
  mkState true "" (Json.Arr []) (Json.Arr []) (Json.Arr []) (Json.Arr [])
    Json.Null true.

(** [e.message || String(e)] *)
Definition shown (e : Reason) : string :=
  match message e with
  | Some m => if String.eqb m "" then asString e else m
  | None => asString e
  end.

Definition paths : list string :=
  [ "/metrics/customer-availability";
    "/metrics/top-impacted-customers";
    "/metrics/error-rate";
    "/metrics/p95-latency";
    "/metrics/summary" ].

(** [refresh()]: the state once its promise has settled, when nothing
    else updates the state meanwhile. *)
Definition refresh (order : list nat) (st : State) : option State :=
  match PromiseAll (map fetchJSON paths) order with
  | Some (inr [a; t; e; p; s]) =>
      Some (mkState false "" a t e p s (autoRefresh st))
  | Some (inr _) => None
  | Some (inl reason) =>
      Some (mkState false (shown reason) (availability st) (topImpacted st)
              (errorRate st) (p95 st) (summary st) (autoRefresh st))
  | None => None
  end.

End Refresh.

End Dashboard.

(** * Theorems *)

(** Splits a conjunction into its parts (and nothing else). *)
Ltac splits := repeat match goal with |- _ /\ _ => split end.

(** ** Facts about the formats *)
Module GoLibFacts.

Lemma length_append (a b : string) :
  String.length (a +:+ b) = (String.length a + String.length b)%nat.
Proof.
  induction a as [|c a IH]; [reflexivity|].
  change (S (String.length (a +:+ b)) = S (String.length a + String.length b)).
  now rewrite IH.
Qed.

(** Two concatenations that agree split alike when the heads are equally long. *)
Lemma append_inv_length (a1 a2 b1 b2 : string) :
  String.length a1 = String.length a2 ->
  a1 +:+ b1 = a2 +:+ b2 -> a1 = a2 /\ b1 = b2.
Proof.
  revert a2. induction a1 as [|c a1 IH]; intros [|c2 a2] L E;
    try discriminate L.
  - now split.
  - change (String c (a1 +:+ b1) = String c2 (a2 +:+ b2)) in E.
    inversion E; subst. destruct (IH a2) as [-> ->]; auto.
Qed.

Lemma hexDigit_isHex (n : N) : (n < 16)%N -> isHexDigit (hexDigit n) = true.
Proof.
  intros H. 
  assert (In n (map N.of_nat (seq 0 16))) as I.
  { apply in_map_iff. exists (N.to_nat n). split; [lia|]. apply in_seq. lia. }
  cbn in I. repeat (destruct I as [<-|I]; [reflexivity|]). destruct I.
Qed.

Lemma EncodeToString_length (b : list Byte.byte) :
  String.length (EncodeToString b) = (2 * length b)%nat.
Proof. induction b as [|x b IH]; cbn [EncodeToString String.length length]; lia. Qed.

Lemma byte_nibbles (x : Byte.byte) :
  (N.shiftr (Byte.to_N x) 4 < 16 /\ N.land (Byte.to_N x) 15 < 16)%N.
Proof. destruct x; split; reflexivity. Qed.

Lemma EncodeToString_allHex (b : list Byte.byte) : allHex (EncodeToString b) = true.
Proof.
  induction b as [|x b IH]; cbn [EncodeToString allHex]; [reflexivity|].
  destruct (byte_nibbles x) as [H1 H2].
  now rewrite !hexDigit_isHex, IH.
Qed.

Lemma unhex_byte (x : Byte.byte) :
  (unhexDigit (hexDigit (N.shiftr (Byte.to_N x) 4)) * 16
   + unhexDigit (hexDigit (N.land (Byte.to_N x) 15)))%N = Byte.to_N x.
Proof. destruct x; reflexivity. Qed.

Lemma DecodeString_EncodeToString (b : list Byte.byte) :
  DecodeString (EncodeToString b) = map Byte.to_N b.
Proof.
  induction b as [|x b IH]; cbn [EncodeToString DecodeString map]; [reflexivity|].
  now rewrite unhex_byte, IH.
Qed.

Lemma to_N_inj (x y : Byte.byte) : Byte.to_N x = Byte.to_N y -> x = y.
Proof.
  intros E. pose proof (Byte.of_to_N x) as X. rewrite E, Byte.of_to_N in X.
  now inversion X.
Qed.

(** Distinct byte strings have distinct hexadecimal encodings. *)
Lemma EncodeToString_inj (a b : list Byte.byte) :
  EncodeToString a = EncodeToString b -> a = b.
Proof.
  intros E. apply (f_equal DecodeString) in E.
  rewrite !DecodeString_EncodeToString in E.
  revert b E. induction a as [|x a IH]; intros [|y b] E; cbn in E;
    try discriminate; [reflexivity|].
  inversion E. f_equal; [now apply to_N_inj | now apply IH].
Qed.

Lemma padded_below (width : nat) (bound z : Z) :
  forallb (fun n => padded width (Z.of_nat n)) (seq 0 (Z.to_nat bound)) = true ->
  0 <= z < bound -> padded width z = true.
Proof.
  intros A H. rewrite forallb_forall in A.
  specialize (A (Z.to_nat z)). rewrite Z2Nat.id in A by lia.
  apply A, in_seq. lia.
Qed.

Lemma padded4 (z : Z) : 0 <= z <= 9999 -> padded 4 z = true.
Proof. intros H. apply (padded_below 4 10000); [vm_compute; reflexivity | lia]. Qed.

Lemma padded2 (z : Z) : 0 <= z <= 99 -> padded 2 z = true.
Proof. intros H. apply (padded_below 2 100); [vm_compute; reflexivity | lia]. Qed.

Lemma padded_spec (width : nat) (z : Z) :
  padded width z = true ->
  String.length (fmt_0d width z) = width
  /\ allDigits (fmt_0d width z) = true
  /\ digitsValue (fmt_0d width z) = Some (Z.to_N z).
Proof.
  unfold padded. intros H.
  apply andb_prop in H as [H H3]. apply andb_prop in H as [H1 H2].
  apply Nat.eqb_eq in H1. repeat split; auto.
  destruct (digitsValue (fmt_0d width z)) as [n|]; [|discriminate].
  apply Z.eqb_eq in H3. subst. now rewrite N2Z.id.
Qed.

(** Equal paddings of equal width come from equal numbers. *)
Lemma padded_inj (width : nat) (x y : Z) :
  padded width x = true -> padded width y = true -> 0 <= x -> 0 <= y ->
  fmt_0d width x = fmt_0d width y -> x = y.
Proof.
  intros Hx Hy X Y E.
  apply padded_spec in Hx as (_ & _ & Vx). apply padded_spec in Hy as (_ & _ & Vy).
  rewrite E, Vy in Vx. inversion Vx. lia.
Qed.

End GoLibFacts.

(** ** The ingestion API *)
Module GatewayProofs.
Import Gateway.

Ltac gsimpl :=
  cbn [fst snd clock entropy broker ctxDone sent next pos status reply] in *.

Ltac gred :=
  cbv [bind ret timeNowUTC randRead randomHex SendMessage contextDone read readN] in *;
  gsimpl.

Ltac setters :=
  cbn [setTimestamp setService setCustomerID setEndpoint setMethod
       setStatusCode setLatencyMs setTraceID setError setAttributes
       setRequestID setIngestedAt setSchemaVer setEnvironment
       Timestamp Service CustomerID Endpoint Method StatusCode LatencyMs
       TraceID Error Attributes RequestID IngestedAt SchemaVer Environment] in *.

(** The event a body decodes to, computed. *)
Ltac decode body ev D :=
  destruct (Decode exampleParse body) as [?|ev] eqn:D;
  [ vm_compute in D; discriminate D
  | let D' := fresh in
    pose proof D as D'; vm_compute in D'; injection D' as <- ].

Section Handler.

Variable parseRFC3339 : string -> option Time.
Variable formatRFC3339 : Time -> option string.
Variable s : Server.
Variable env : string.

Lemma missingRequired_filled ev w :
  missingRequired (filled env ev w) = missingRequired ev.
Proof. unfold filled. destruct ev. cbn. now destruct (IsZero _). Qed.

Lemma canonical_callerPart ev1 ev2 w :
  callerPart ev1 = callerPart ev2 -> canonical env ev1 w = canonical env ev2 w.
Proof.
  destruct ev1, ev2. unfold callerPart. setters. intros [= -> -> -> -> -> -> -> -> -> ->].
  unfold canonical, filled, requestBytes. setters.
  destruct (IsZero _), (String.eqb _ _); reflexivity.
Qed.

Lemma missingRequired_callerPart ev1 ev2 :
  callerPart ev1 = callerPart ev2 -> missingRequired ev1 = missingRequired ev2.
Proof.
  destruct ev1, ev2. unfold callerPart. setters. intros [= -> -> -> -> -> -> -> -> -> ->].
  reflexivity.
Qed.

(** The handler, past the decoder, is [served]. *)
Lemma ingest_served body ev w :
  Decode parseRFC3339 body = inr ev ->
  ingest parseRFC3339 formatRFC3339 s env (post body) w = served formatRFC3339 s env ev w.
Proof.
  intros D. unfold ingest, post, served. cbn [reqMethod reqBody].
  change (negb (String.eqb "POST" "POST")) with false. cbv iota. rewrite D.
  cbv [bind timeNowUTC read]. gsimpl.
  fold (acceptedAt w). fold (filled env ev w).
  rewrite missingRequired_filled.
  destruct (missingRequired ev) eqn:M; [reflexivity|].
  assert (TraceID (filled env ev w) = TraceID ev) as TF
    by (unfold filled; destruct ev; cbn; now destruct (IsZero _)).
  rewrite TF.
  destruct (String.eqb (TraceID ev) "") eqn:T; gred.
  all: match goal with |- context [Marshal _ ?e] =>
         replace e with (canonical env ev w)
           by (unfold canonical, requestBytes, traceBytes; rewrite T;
               rewrite ?Nat.add_0_r; reflexivity)
       end.
  all: destruct (Marshal formatRFC3339 (canonical env ev w)) as [b|] eqn:Mb; gred;
         [|reflexivity].
  all: fold (published s env ev w b).
  all: destruct (next (broker w) (pos (broker w))) as [[p o]|] eqn:B; gred;
         [|reflexivity].
  all: destruct (next (ctxDone w) (pos (ctxDone w))); gred; reflexivity.
Qed.

Lemma missingRequired_true ev : missingRequired ev = true <-> requiredBlank ev.
Proof.
  unfold missingRequired, requiredBlank, blank.
  rewrite !orb_true_iff, !String.eqb_eq, Z.eqb_eq. tauto.
Qed.

Lemma missingRequired_false ev : missingRequired ev = false <-> ~ requiredBlank ev.
Proof.
  rewrite <- missingRequired_true. destruct (missingRequired ev); split; congruence.
Qed.

(** C4.  A POST whose payload decodes with [service], [customer_id],
    [endpoint] or [method] blank after trimming, or [status_code] zero,
    is answered 400 ("missing required fields") and nothing is handed
    to the producer; a payload with the four strings non-blank and a
    non-zero status code passes the check: the answer is not that
    error, nor any 400. *)
Theorem required_fields_checked body ev w :
  Decode parseRFC3339 body = inr ev ->
  (requiredBlank ev ->
     fst (ingest parseRFC3339 formatRFC3339 s env (post body) w)
     = mkResponse StatusBadRequest MissingRequired
     /\ sent (snd (ingest parseRFC3339 formatRFC3339 s env (post body) w)) = sent w)
  /\ (~ requiredBlank ev ->
        reply (fst (ingest parseRFC3339 formatRFC3339 s env (post body) w))
        <> MissingRequired
        /\ status (fst (ingest parseRFC3339 formatRFC3339 s env (post body) w))
           <> StatusBadRequest).
Proof.
  intros D. rewrite (ingest_served _ _ _ D). unfold served. split.
  - intros B. apply missingRequired_true in B. rewrite B. split; reflexivity.
  - intros B. apply missingRequired_false in B. rewrite B.
    destruct (Marshal _ _); [|split; discriminate].
    destruct (next (broker w) _) as [[p o]|]; [|split; discriminate].
    destruct (next (ctxDone w) _); split; discriminate.
Qed.

(** The strict decoder fails on an object with an unknown key. *)
Lemma decodeMembers_unknown key v ms :
  In (key, v) ms -> unknownKey parseRFC3339 key ->
  forall ev, exists e,
    Json.decodeMembers (eventFields parseRFC3339) true ms ev = inl e.
Proof.
  intros I U. induction ms as [|kv ms IH]; [destruct I|]. intros ev.
  cbn [Json.decodeMembers].
  destruct (Json.lookupField (eventFields parseRFC3339) (fst kv)) as [set|] eqn:L.
  - destruct (set (snd kv) ev) as [e|ev']; [now exists e|].
    destruct I as [->|I]; [|now apply IH].
    cbn [fst] in L. unfold unknownKey in U. congruence.
  - eauto.
Qed.

(** C5 (as amended).  A POST whose JSON object has a member whose key
    matches no field of [TelemetryEvent], neither exactly nor with the
    case of its letters folded, is rejected by the decoder, whatever
    else the object holds and wherever the member stands: the answer is
    400 ("invalid json"), and the handler stops there, before reading
    the clock or handing anything to the producer. *)
Theorem unknown_field_rejected ms key v w :
  In (key, v) ms -> unknownKey parseRFC3339 key ->
  exists e,
    Decode parseRFC3339 (Json.WellFormed (Json.Obj ms)) = inl e
    /\ ingest parseRFC3339 formatRFC3339 s env
         (post (Json.WellFormed (Json.Obj ms))) w
       = (mkResponse StatusBadRequest (InvalidJSON e), w).
Proof.
  intros I U.
  destruct (decodeMembers_unknown key v ms I U zeroEvent) as [e D].
  exists e. unfold ingest, post, Decode, Json.decodeStruct. cbn [reqMethod reqBody].
  change (negb (String.eqb "POST" "POST")) with false. cbv iota.
  rewrite D. split; reflexivity.
Qed.

Lemma canonical_server_fields ev w :
  IngestedAt (canonical env ev w) = acceptedAt w
  /\ SchemaVer (canonical env ev w) = 1
  /\ Environment (canonical env ev w) = env
  /\ RequestID (canonical env ev w) = EncodeToString (requestBytes ev w).
Proof.
  unfold canonical, filled. destruct ev. setters.
  destruct (IsZero _), (String.eqb _ _); splits; reflexivity.
Qed.

Lemma canonical_trace ev w :
  TraceID (canonical env ev w)
  = if String.eqb (TraceID ev) "" then EncodeToString (traceBytes w) else TraceID ev.
Proof.
  unfold canonical, filled. destruct ev. setters.
  destruct (IsZero _), (String.eqb _ _); reflexivity.
Qed.

(** The members of a marshalled event that the claims look at. *)
Lemma Marshal_members ev b :
  Marshal formatRFC3339 ev = Some b ->
  Json.member "ingested_at" b = option_map Json.Str (formatRFC3339 (IngestedAt ev))
  /\ Json.member "schema_version" b = Some (Json.Num (Json.Int (SchemaVer ev)))
  /\ Json.member "environment" b = Some (Json.Str (Environment ev))
  /\ Json.member "request_id" b = Some (Json.Str (RequestID ev))
  /\ Json.member "trace_id" b = Some (Json.Str (TraceID ev)).
Proof.
  unfold Marshal.
  destruct (formatRFC3339 (Timestamp ev)) as [ts|]; [|discriminate].
  destruct (formatRFC3339 (IngestedAt ev)) as [ing|]; [|discriminate].
  intros [= <-].
  destruct (String.eqb (Error ev) ""), (decide (Attributes ev = ∅));
    splits; reflexivity.
Qed.

(** C6.  The answer to a request and the message published for it do
    not depend on what the caller put in [ingested_at],
    [schema_version], [environment] and [request_id]: two payloads that
    decode to events equal in every other field are served alike, in
    every world.  In the event published for an accepted request these
    four fields are the server's: the time of acceptance, 1, the
    deployment's environment, and twelve bytes just drawn from the
    random source, in hexadecimal. *)
Theorem server_fields_overwritten :
  (forall body1 body2 ev1 ev2 w,
      Decode parseRFC3339 body1 = inr ev1 ->
      Decode parseRFC3339 body2 = inr ev2 ->
      callerPart ev1 = callerPart ev2 ->
      ingest parseRFC3339 formatRFC3339 s env (post body1) w
      = ingest parseRFC3339 formatRFC3339 s env (post body2) w)
  /\ (forall body ev w,
        Decode parseRFC3339 body = inr ev ->
        status (fst (ingest parseRFC3339 formatRFC3339 s env (post body) w))
        = StatusAccepted ->
        exists b,
          sent (snd (ingest parseRFC3339 formatRFC3339 s env (post body) w))
          = sent w ++ [published s env ev w b]
          /\ Marshal formatRFC3339 (canonical env ev w) = Some b
          /\ IngestedAt (canonical env ev w) = acceptedAt w
          /\ SchemaVer (canonical env ev w) = 1
          /\ Environment (canonical env ev w) = env
          /\ RequestID (canonical env ev w) = EncodeToString (requestBytes ev w)
          /\ Json.member "ingested_at" b
             = option_map Json.Str (formatRFC3339 (acceptedAt w))
          /\ Json.member "schema_version" b = Some (Json.Num (Json.Int 1))
          /\ Json.member "environment" b = Some (Json.Str env)
          /\ Json.member "request_id" b
             = Some (Json.Str (EncodeToString (requestBytes ev w)))).
Proof.
  split.
  - intros body1 body2 ev1 ev2 w D1 D2 C.
    rewrite (ingest_served _ _ _ D1), (ingest_served _ _ _ D2). unfold served, published.
    rewrite (canonical_callerPart _ _ _ C), (missingRequired_callerPart _ _ C).
    assert (TraceID ev1 = TraceID ev2) as ->; [|reflexivity].
    destruct ev1, ev2. unfold callerPart in C. setters. now injection C.
  - intros body ev w D. rewrite (ingest_served _ _ _ D). unfold served.
    destruct (missingRequired ev); [discriminate|].
    destruct (Marshal formatRFC3339 (canonical env ev w)) as [b|] eqn:M; [|discriminate].
    destruct (next (broker w) _) as [[p o]|]; [|discriminate].
    destruct (next (ctxDone w) _); [discriminate|]. intros _.
    destruct (canonical_server_fields ev w) as (I & V & E & R).
    destruct (Marshal_members _ _ M) as (MI & MV & ME & MR & _).
    rewrite I in MI. rewrite V in MV. rewrite E in ME. rewrite R in MR.
    exists b. gsimpl. splits; auto.
Qed.

(** C7 (as amended).  In the answer to an accepted request the request
    id is twenty-four hexadecimal digits (twelve random bytes); the
    trace id is the caller's, unchanged, when the payload has a
    non-empty one (one of white space only too), and otherwise
    thirty-two hexadecimal digits for sixteen bytes (128 bits) just
    drawn from the random source.  The published event carries the same
    two identifiers. *)
Theorem identifiers_generated body ev w partition offset t tid rid :
  Decode parseRFC3339 body = inr ev ->
  fst (ingest parseRFC3339 formatRFC3339 s env (post body) w)
  = mkResponse StatusAccepted (Accepted t partition offset tid rid) ->
  rid = EncodeToString (requestBytes ev w)
  /\ String.length rid = 24%nat /\ allHex rid = true
  /\ (TraceID ev = "" ->
        tid = EncodeToString (traceBytes w)
        /\ String.length tid = 32%nat /\ allHex tid = true)
  /\ (TraceID ev <> "" -> tid = TraceID ev)
  /\ exists b,
       sent (snd (ingest parseRFC3339 formatRFC3339 s env (post body) w))
       = sent w ++ [published s env ev w b]
       /\ Json.member "trace_id" b = Some (Json.Str tid)
       /\ Json.member "request_id" b = Some (Json.Str rid).
Proof.
  intros D. rewrite (ingest_served _ _ _ D). unfold served.
  destruct (missingRequired ev); [discriminate|].
  destruct (Marshal formatRFC3339 (canonical env ev w)) as [b|] eqn:M; [|discriminate].
  destruct (next (broker w) _) as [[p o]|]; [|discriminate].
  destruct (next (ctxDone w) _); [discriminate|]. cbn [fst snd].
  intros [= <- <- <- <- <-].
  destruct (canonical_server_fields ev w) as (_ & _ & _ & R).
  pose proof (canonical_trace ev w) as T.
  destruct (Marshal_members _ _ M) as (_ & _ & _ & MR & MT).
  splits.
  - exact R.
  - rewrite R, GoLibFacts.EncodeToString_length. unfold requestBytes.
    now rewrite length_map, length_seq.
  - rewrite R. apply GoLibFacts.EncodeToString_allHex.
  - intros E. rewrite T, E. cbn [String.eqb]. splits.
    + reflexivity.
    + rewrite GoLibFacts.EncodeToString_length. unfold traceBytes.
      now rewrite length_map, length_seq.
    + apply GoLibFacts.EncodeToString_allHex.
  - intros E. rewrite T. apply String.eqb_neq in E. now rewrite E.
  - exists b. gsimpl. splits; auto.
Qed.

End Handler.

(** *** The claims on concrete inputs *)

(** C4, instances: a [service] of two spaces is refused and nothing is
    published; the scenario's payload passes the check. *)
Lemma required_fields_checked_example :
  (fst (exampleIngest (scenario [("service", Json.Str "  ")]))
   = mkResponse StatusBadRequest MissingRequired
   /\ sent (snd (exampleIngest (scenario [("service", Json.Str "  ")]))) = [])
  /\ reply (fst (exampleIngest (scenario []))) <> MissingRequired
  /\ status (fst (exampleIngest (scenario []))) <> StatusBadRequest.
Proof.
  split.
  - decode (scenario [("service", Json.Str "  ")]) ev D.
    apply (proj1 (required_fields_checked exampleParse exampleFormat
                    exampleServer "local" _ _ exampleWorld D)).
    left. reflexivity.
  - decode (scenario []) ev D.
    apply (proj2 (required_fields_checked exampleParse exampleFormat
                    exampleServer "local" _ _ exampleWorld D)).
    vm_compute. intros [B|[B|[B|[B|B]]]]; discriminate B.
Defined.

(** C5, the scenario: an added ["foo":"bar"]. *)
Lemma unknown_field_rejected_example :
  exists e,
    Decode exampleParse (scenario [("foo", Json.Str "bar")]) = inl e
    /\ exampleIngest (scenario [("foo", Json.Str "bar")])
       = (mkResponse StatusBadRequest (InvalidJSON e), exampleWorld).
Proof.
  apply (unknown_field_rejected exampleParse exampleFormat exampleServer "local"
           _ "foo" (Json.Str "bar") exampleWorld).
  - do 5 right. left. reflexivity.
  - reflexivity.
Defined.

(** C7, the scenario: no trace id in the payload. *)
Lemma identifiers_generated_example :
  fst (exampleIngest (scenario []))
  = mkResponse StatusAccepted
      (Accepted "telemetry.events" 0 0
         "000102030405060708090a0b0c0d0e0f" "101112131415161718191a1b")
  /\ String.length "000102030405060708090a0b0c0d0e0f" = 32%nat
  /\ allHex "000102030405060708090a0b0c0d0e0f" = true
  /\ String.length "101112131415161718191a1b" = 24%nat
  /\ allHex "101112131415161718191a1b" = true.
Proof.
  assert (fst (exampleIngest (scenario []))
          = mkResponse StatusAccepted
              (Accepted "telemetry.events" 0 0
                 "000102030405060708090a0b0c0d0e0f" "101112131415161718191a1b"))
    as R by (vm_compute; reflexivity).
  split; [exact R|].
  decode (scenario []) ev D.
  destruct (identifiers_generated exampleParse exampleFormat exampleServer "local"
              _ _ exampleWorld _ _ _ _ _ D R)
    as (_ & L & H & T & _).
  destruct (T eq_refl) as (_ & LT & HT).
  splits; assumption.
Defined.

(** C6, an instance: the caller's values for the four fields change
    neither the answer nor the message published. *)
Lemma server_fields_overwritten_example :
  exampleIngest
    (scenario [ ("request_id", Json.Str "mine");
                ("ingested_at", Json.Str "2026-10-30T22:09:00Z");
                ("schema_version", Json.Num (Json.Int 7));
                ("environment", Json.Str "prod") ])
  = exampleIngest (scenario []).
Proof.
  decode (scenario [ ("request_id", Json.Str "mine");
                     ("ingested_at", Json.Str "2026-10-30T22:09:00Z");
                     ("schema_version", Json.Num (Json.Int 7));
                     ("environment", Json.Str "prod") ]) ev1 D1.
  decode (scenario []) ev2 D2.
  apply (proj1 (server_fields_overwritten exampleParse exampleFormat
                  exampleServer "local") _ _ _ _ exampleWorld D1 D2).
  reflexivity.
Defined.

(** C5, counterexample.  The scenario's payload with a further member
    [SERVICE]: no field of the schema has that name, yet the request is
    answered 202.  The decoder matches a key to a field without regard
    to letter case when no field has the key's exact name, so the value
    is taken for [service], and the event is published with it. *)
Lemma case_variant_key_is_accepted :
  let body := scenario [("SERVICE", Json.Str "other")] in
  ~ In "SERVICE" (map fst (eventFields exampleParse))
  /\ fst (exampleIngest body)
     = mkResponse StatusAccepted
         (Accepted "telemetry.events" 0 0
            "000102030405060708090a0b0c0d0e0f" "101112131415161718191a1b")
  /\ exists msg,
       sent (snd (exampleIngest body)) = [msg]
       /\ Json.member "service" (msgValue msg) = Some (Json.Str "other")
       /\ Json.member "SERVICE" (msgValue msg) = None
       /\ msgHeaders msg = [("service", "other"); ("env", "local")].
Proof.
  cbv zeta. split; [|split].
  - cbn. intuition discriminate.
  - vm_compute. reflexivity.
  - eexists. vm_compute. splits; reflexivity.
Qed.

(** C7, counterexample.  The scenario's payload with a [trace_id] of
    two spaces: blank after trimming, yet no identifier is generated
    for it.  The request is accepted and the answer and the published
    event carry the two spaces, which are not thirty-two hexadecimal
    digits. *)
Lemma blank_trace_id_is_kept :
  let body := scenario [("trace_id", Json.Str "  ")] in
  blank "  "
  /\ fst (exampleIngest body)
     = mkResponse StatusAccepted
         (Accepted "telemetry.events" 0 0 "  " "000102030405060708090a0b")
  /\ String.length "  " <> 32%nat
  /\ allHex "  " = false
  /\ exists msg,
       sent (snd (exampleIngest body)) = [msg]
       /\ Json.member "trace_id" (msgValue msg) = Some (Json.Str "  ").
Proof.
  cbv zeta. splits.
  - vm_compute. reflexivity.
  - vm_compute. reflexivity.
  - discriminate.
  - reflexivity.
  - eexists. vm_compute. splits; reflexivity.
Qed.

End GatewayProofs.

(** ** The writer-consumer *)
Module WriterProofs.
Import Writer.

Ltac wsimpl :=
  cbn [fst snd clock entropy faults tmpDir files effects next pos] in *.

Ltac mred :=
  cbv [bind ret fails timeNow randRead emit writeFile removeFile
       readFile getTmpDir randomHex read readN] in *;
  wsimpl.

Ltac done_frame := unfold sameSources; wsimpl; splits; congruence.


Section Consumer.

Variable parseTime : string -> option Time.
Variable optionalCell : string -> option string.

(** [writeRows] touches the fault stream only; it ends with the table
    of all the rows, or on a fault. *)
Lemma writeRows_spec evs : forall pw w r w',
  writeRows optionalCell evs pw w = (r, w') ->
  clock w' = clock w /\ entropy w' = entropy w /\ tmpDir w' = tmpDir w
  /\ effects w' = effects w /\ files w' = files w
  /\ next (faults w') = next (faults w)
  /\ match r with
     | Some t => t = fold_left (fun t ev => Write optionalCell ev t) evs pw
     | None => someFault w
     end.
Proof.
  induction evs as [|ev evs IH]; intros pw w r w' H; cbn [writeRows] in H.
  - mred. inversion H; subst. splits; auto.
  - mred. destruct (next (faults w) (pos (faults w))) eqn:F.
    + inversion H; subst. wsimpl. splits; auto. now exists (pos (faults w)).
    + apply IH in H. destruct H as (A & B & C & D & E & G & R).
      wsimpl. splits; auto.
Qed.

(** [writeParquet] leaves the batch's table in the file, or fails on a
    fault. *)
Lemma writeParquet_spec path evs w b w' :
  writeParquet optionalCell path evs w = (b, w') ->
  clock w' = clock w /\ entropy w' = entropy w /\ tmpDir w' = tmpDir w
  /\ effects w' = effects w
  /\ next (faults w') = next (faults w)
  /\ if b then someFault w
     else files w' !! path = Some (encodeBatch optionalCell evs).
Proof.
  unfold writeParquet. intros H. mred.
  destruct (next (faults w) (pos (faults w))) eqn:F1.
  { inversion H; subst. wsimpl. splits; auto. now exists (pos (faults w)). }
  match type of H with context [if ?c then _ else _] => destruct c eqn:F2 end.
  { inversion H; subst. wsimpl. splits; auto. now exists (S (pos (faults w))). }
  match type of H with context [writeRows ?o ?e ?p ?w0] =>
    destruct (writeRows o e p w0) as [r w1] eqn:R end.
  apply writeRows_spec in R. destruct R as (A & B & C & D & E & G & R). wsimpl.
  destruct r as [t|].
  2:{ inversion H; subst. splits; auto. }
  destruct (next (faults w1) (pos (faults w1))) eqn:F3.
  { inversion H; subst. wsimpl. splits; auto.
    exists (pos (faults w1)). now rewrite <- G. }
  inversion H; subst; wsimpl. splits; auto.
  now rewrite lookup_insert_eq.
Qed.

(** Every run of [flush] ends in one of the three ways. *)
Lemma flush_spec h w r h' w' :
  flush optionalCell h w = (r, h', w') -> flush_result optionalCell h w r h' w'.
Proof.
  unfold flush. destruct (events h) as [|ev evs] eqn:Ev; cbn [length Nat.eqb].
  { intros H. inversion H; subst. now constructor. }
  intros H. mred.
  match type of H with context [writeParquet ?o ?p ?e ?w0] =>
    destruct (writeParquet o p e w0) as [b w1] eqn:WP end.
  apply writeParquet_spec in WP. destruct WP as (A & B & C & D & G & E). wsimpl.
  destruct b.
  { inversion H; subst. apply flush_failed; [congruence|congruence| |exact E].
    unfold sameSources; wsimpl; rewrite ?A, ?B, ?C, ?G; wsimpl; now splits. }
  destruct (next (faults w1) (pos (faults w1))) eqn:F1.
  { inversion H; subst. apply flush_failed; [congruence|wsimpl; congruence| |].
    - unfold sameSources; wsimpl; rewrite ?A, ?B, ?C, ?G; wsimpl; now splits.
    - exists (pos (faults w1)). now rewrite <- G. }
  wsimpl.
  match type of H with context [if ?c then None else _] => destruct c eqn:F2 end.
  { inversion H; subst. apply flush_failed; [congruence|wsimpl; congruence| |].
    - unfold sameSources; wsimpl; rewrite ?A, ?B, ?C, ?G; wsimpl; now splits.
    - exists (S (pos (faults w1))). now rewrite <- G. }
  rewrite E in H.
  match type of H with context [if ?c then _ else _] => destruct c eqn:F3 end.
  { inversion H; subst. apply flush_failed; [congruence|wsimpl; congruence| |].
    - unfold sameSources; wsimpl; rewrite ?A, ?B, ?C, ?G; wsimpl; now splits.
    - exists (S (S (pos (faults w1)))). now rewrite <- G. }
  inversion H; subst; wsimpl.
  rewrite <- Ev, A. wsimpl.
  apply flush_done.
  - congruence.
  - wsimpl. rewrite D, <- app_assoc. cbn [app]. unfold flushKey. rewrite Ev. reflexivity.
  - unfold sameSources; wsimpl; rewrite ?A, ?B, ?C, ?G; wsimpl; now splits.
Qed.

Lemma flushAndLog_spec h w h' w' :
  events h <> [] ->
  flushAndLog optionalCell h w = (h', w') ->
  flush_outcome optionalCell h w h' w' /\ sameSources w w'.
Proof.
  intros Hne H. unfold flushAndLog in H. cbv [bind] in H.
  destruct (flush optionalCell h w) as [[r h1] w1] eqn:F.
  apply flush_spec in F. cbn [fst snd] in H.
  destruct F as [E | e w1 _ E S1 SF | w1 _ E S1].
  - contradiction.
  - mred. inversion H; subst. split.
    + apply outcome_failed with e; [wsimpl; now rewrite E|exact SF].
    + exact S1.
  - mred. inversion H; subst. split; [now apply outcome_done|exact S1].
Qed.

Lemma parseKafkaJSON_spec doc w :
  match Unmarshal doc with
  | inl e => parseKafkaJSON parseTime doc w = (inl e, w)
  | inr r =>
      exists ev w',
        parseKafkaJSON parseTime doc w = (inr ev, w')
        /\ sameSources w w' /\ faults w' = faults w /\ entropy w' = entropy w
        /\ files w' = files w /\ effects w' = effects w
  end.
Proof.
  unfold parseKafkaJSON. destruct (Unmarshal doc) as [e|r]; [reflexivity|].
  destruct (parseTime (rawTimestamp r)), (parseTime (rawIngestedAt r));
    mred; eexists; eexists; (split; [reflexivity|]); unfold sameSources; wsimpl;
    splits; reflexivity.
Qed.

Lemma withEvent_nonempty h ev : events (withEvent h ev) <> [].
Proof. cbn. intros E. now apply app_eq_nil in E as [_ E]. Qed.

Lemma sameSources_trans w1 w2 w3 :
  sameSources w1 w2 -> sameSources w2 w3 -> sameSources w1 w3.
Proof. unfold sameSources. intuition congruence. Qed.

(** The turn of the loop that receives a message. *)
Lemma message_turn h msg w r w' :
  loopBody parseTime optionalCell h (Message msg) w = (r, w') ->
  sameSources w w' /\
  match fst (parseKafkaJSON parseTime (Value msg) w) with
  | inl e =>
      r = Some h
      /\ effects w' = effects w ++ [Log (BadEventJSON e); MarkMessage (Offset msg)]
  | inr ev =>
      if sizeTrigger (withEvent h ev) then
        exists h' wm,
          r = Some h'
          /\ effects wm = effects w ++ [MarkMessage (Offset msg)]
          /\ sameSources w wm
          /\ flush_outcome optionalCell (withEvent h ev) wm h' w'
      else
        r = Some (withEvent h ev)
        /\ effects w' = effects w ++ [MarkMessage (Offset msg)]
  end.
Proof.
  cbn [loopBody]. cbv [bind].
  pose proof (parseKafkaJSON_spec (Value msg) w) as P.
  destruct (Unmarshal (Value msg)) as [e|raw].
  - rewrite P. cbn [fst]. mred. intros H; inversion H; subst; wsimpl.
    split; [done_frame|]. split; [reflexivity|]. now rewrite <- app_assoc.
  - destruct P as (ev & w1 & P & S1 & A & B & D & E). rewrite P. cbn [fst snd].
    fold (withEvent h ev). unfold sizeTrigger.
    cbv [emit]. cbn [events withEvent cfg].
    destruct (Z.of_nat (length (events h ++ [ev])) >=? FlushEveryN (cfg h)) eqn:T.
    + cbv [bind].
      match goal with |- context [flushAndLog _ ?hh ?ww] =>
        destruct (flushAndLog optionalCell hh ww) as [h2 w2] eqn:FL;
        assert (S2 : sameSources w ww) by
          (destruct S1 as (? & ? & ? & ?); done_frame)
      end.
      apply flushAndLog_spec in FL; [|apply withEvent_nonempty].
      destruct FL as [FL S3].
      intros H; inversion H; subst. split.
      * eapply sameSources_trans; eassumption.
      * eexists; eexists. split; [reflexivity|].
        split; [|split; [exact S2|exact FL]]. wsimpl. congruence.
    + cbv [ret]. intros H; inversion H; subst; wsimpl. split.
      * destruct S1 as (? & ? & ? & ?); done_frame.
      * split; [reflexivity|congruence].
Qed.

(** The turn of the loop that receives a tick. *)
Lemma tick_turn h w r w' :
  loopBody parseTime optionalCell h Tick w = (r, w') ->
  sameSources w w' /\
  if timeTrigger h (next (clock w) (pos (clock w))) then
    exists h' wt,
      r = Some h' /\ effects wt = effects w /\ sameSources w wt
      /\ flush_outcome optionalCell h wt h' w'
  else r = Some h /\ effects w' = effects w.
Proof.
  cbn [loopBody]. cbv [bind timeNow read]. unfold timeTrigger.
  destruct ((Since _ _ >=? _) && _) eqn:T.
  - match goal with |- context [flushAndLog _ ?hh ?ww] =>
      destruct (flushAndLog optionalCell hh ww) as [h2 w2] eqn:FL;
      assert (S2 : sameSources w ww) by done_frame
    end.
    apply flushAndLog_spec in FL.
    2:{ apply andb_prop in T as [_ T]. destruct (events h); [discriminate|congruence]. }
    destruct FL as [FL S3].
    cbv [ret]. intros H; inversion H; subst. split.
    + eapply sameSources_trans; eassumption.
    + eexists; eexists.
      split; [reflexivity|]. split; [|split; [exact S2|exact FL]]. reflexivity.
  - cbv [ret]. intros H; inversion H; subst. split; [done_frame|]. split; reflexivity.
Qed.

Lemma flush_outcome_attempts h wm h' w' :
  flush_outcome optionalCell h wm h' w' ->
  exists new, effects w' = effects wm ++ new /\ flushAttempts new = 1%nat.
Proof.
  intros [e w1 E _ | w1 E]; eexists; (split; [exact E|reflexivity]).
Qed.

(** A turn attempts one flush when its test holds, and none otherwise. *)
Lemma turn_flush_attempts h s w r w' :
  loopBody parseTime optionalCell h s w = (r, w') ->
  exists new,
    effects w' = effects w ++ new
    /\ flushAttempts new = (if trigger parseTime h s w then 1 else 0)%nat.
Proof.
  intros L. destruct s as [msg| | |]; cbn [trigger].
  - apply message_turn in L as [_ L].
    destruct (fst (parseKafkaJSON parseTime (Value msg) w)) as [e|ev].
    + destruct L as [_ E]. eexists. split; [exact E|reflexivity].
    + destruct (sizeTrigger (withEvent h ev)).
      * destruct L as (h' & wm & _ & E & _ & O).
        apply flush_outcome_attempts in O as (new & O & A).
        rewrite E, <- app_assoc in O. eexists. split; [exact O|].
        cbn [app]. unfold flushAttempts in *. now cbn [List.filter isFlushAttempt].
      * destruct L as [_ E]. eexists. split; [exact E|reflexivity].
  - cbv in L. inversion L; subst. exists []. now rewrite app_nil_r.
  - apply tick_turn in L as [_ L].
    destruct (timeTrigger h (next (clock w) (pos (clock w)))).
    + destruct L as (h' & wt & _ & E & _ & O).
      apply flush_outcome_attempts in O as (new & O & A).
      rewrite E in O. eauto.
    + destruct L as [_ E]. exists []. now rewrite app_nil_r.
  - cbv in L. inversion L; subst. exists []. now rewrite app_nil_r.
Qed.

(** A flush marks no position. *)
Lemma flush_outcome_marks h wm h' w' :
  flush_outcome optionalCell h wm h' w' ->
  List.filter isMark (effects w') = List.filter isMark (effects wm).
Proof.
  intros [e w1 E _ | w1 E]; rewrite E, List.filter_app, app_nil_r; reflexivity.
Qed.

(** A turn marks the position of the message it received, and nothing
    else. *)
Lemma turn_marks h s w r w' :
  loopBody parseTime optionalCell h s w = (r, w') ->
  List.filter isMark (effects w')
  = List.filter isMark (effects w)
    ++ match s with Message msg => [mark msg] | _ => [] end.
Proof.
  intros L. destruct s as [msg| | |].
  - apply message_turn in L as [_ L].
    destruct (fst (parseKafkaJSON parseTime (Value msg) w)) as [e|ev].
    + destruct L as [_ ->]. now rewrite List.filter_app.
    + destruct (sizeTrigger (withEvent h ev)).
      * destruct L as (h' & wm & _ & E & _ & O).
        apply flush_outcome_marks in O. rewrite O, E. now rewrite List.filter_app.
      * destruct L as [_ ->]. now rewrite List.filter_app.
  - cbv in L. inversion L; subst. now rewrite app_nil_r.
  - apply tick_turn in L as [_ L].
    destruct (timeTrigger h (next (clock w) (pos (clock w)))).
    + destruct L as (h' & wt & _ & E & _ & O).
      apply flush_outcome_marks in O. rewrite O, E. now rewrite app_nil_r.
    + destruct L as [_ ->]. now rewrite app_nil_r.
  - cbv in L. inversion L; subst. now rewrite app_nil_r.
Qed.

Lemma geb_false (a b : Z) : a < b -> (a >=? b) = false.
Proof. rewrite Z.geb_leb. intros. apply Z.leb_gt. lia. Qed.

Lemma geb_true (a b : Z) : b <= a -> (a >=? b) = true.
Proof. rewrite Z.geb_leb. intros. apply Z.leb_le. lia. Qed.

Lemma noFaults_sameSources w w' : sameSources w w' -> noFaults w -> noFaults w'.
Proof. intros (_ & _ & F & _) H n. rewrite F. apply H. Qed.

Lemma parses_inr msg w :
  parses msg -> exists ev, fst (parseKafkaJSON parseTime (Value msg) w) = inr ev.
Proof.
  intros [r U]. pose proof (parseKafkaJSON_spec (Value msg) w) as P.
  rewrite U in P. destruct P as (ev & w' & -> & _). now exists ev.
Qed.

(** Messages that keep the buffer below the threshold are buffered and
    marked, nothing else. *)
Lemma consume_below msgs : forall h w,
  Forall parses msgs ->
  Z.of_nat (length (events h) + length msgs) < FlushEveryN (cfg h) ->
  exists h' w',
    consumeLoop parseTime optionalCell (map Message msgs) h w = (Waiting, h', w')
    /\ effects w' = effects w ++ map mark msgs
    /\ cfg h' = cfg h
    /\ length (events h') = (length (events h) + length msgs)%nat
    /\ sameSources w w'.
Proof.
  induction msgs as [|m msgs IH]; intros h w P B.
  - exists h, w. cbn [map consumeLoop length]. rewrite app_nil_r, Nat.add_0_r.
    splits; auto. done_frame.
  - inversion P as [|? ? Pm Pr]; subst. cbn [map consumeLoop]. cbv [bind].
    destruct (loopBody parseTime optionalCell h (Message m) w) as [r w1] eqn:L.
    apply message_turn in L as [S1 L].
    destruct (parses_inr m w Pm) as [ev Hev]. rewrite Hev in L.
    unfold sizeTrigger in L. cbn [withEvent events cfg] in L.
    rewrite length_app in L. cbn [length] in *.
    rewrite geb_false in L by lia.
    destruct L as [-> E].
    destruct (IH (withEvent h ev) w1 Pr) as (h' & w' & C & E' & Cf & Ln & S2).
    { cbn [withEvent events cfg]. rewrite length_app. cbn [length]. lia. }
    exists h', w'. splits; auto.
    + rewrite E', E, <- app_assoc. reflexivity.
    + rewrite Ln. cbn [withEvent events]. rewrite length_app. cbn [length]. lia.
    + eapply sameSources_trans; eassumption.
Qed.

Lemma flush_outcome_noFaults h wm h' w' :
  noFaults wm -> flush_outcome optionalCell h wm h' w' ->
  h' = mkHandler (cfg h) [] (next (clock wm) (S (pos (clock wm))))
  /\ effects w' = effects wm
       ++ [ PutObject (MinIOBucket (cfg h)) (flushKey wm)
              (encodeBatch optionalCell (events h));
            Log (Flushed (length (events h)) (MinIOBucket (cfg h)) (flushKey wm)) ].
Proof.
  intros NF [e w1 _ [n F] | w1 E].
  - rewrite NF in F. discriminate.
  - now split.
Qed.

(** A loop still waiting goes on with what it receives next. *)
Lemma consumeLoop_app s1 : forall s2 h w h1 w1,
  consumeLoop parseTime optionalCell s1 h w = (Waiting, h1, w1) ->
  consumeLoop parseTime optionalCell (s1 ++ s2) h w
  = consumeLoop parseTime optionalCell s2 h1 w1.
Proof.
  induction s1 as [|s s1 IH]; intros s2 h w h1 w1 H.
  - cbv in H. now inversion H.
  - cbn [app consumeLoop] in *. cbv [bind] in *.
    destruct (loopBody parseTime optionalCell h s w) as [[h2|] w2].
    + now apply IH.
    + cbv in H. discriminate.
Qed.

(** The scenario of the specification, for any threshold: with an empty
    buffer, [N] messages that parse and then one more, and no failure,
    exactly one flush happens, between the marks of the [N]-th and of
    the last message. *)
Lemma one_flush_at_threshold before mN mLast h w :
  0 < flushInterval (cfg h) ->
  events h = [] ->
  FlushEveryN (cfg h) = Z.of_nat (S (length before)) ->
  2 <= FlushEveryN (cfg h) ->
  Forall parses (before ++ [mN; mLast]) ->
  noFaults w ->
  exists h' w' key tbl,
    ConsumeClaim parseTime optionalCell (map Message (before ++ [mN; mLast])) h w
    = (Waiting, h', w')
    /\ length (events h') = 1%nat
    /\ effects w' = effects w
         ++ map mark before
         ++ [ mark mN;
              PutObject (MinIOBucket (cfg h)) key tbl;
              Log (Flushed (S (length before)) (MinIOBucket (cfg h)) key);
              mark mLast ].
Proof.
  intros I Ev N N2 P NF.
  apply Forall_app in P as [Pb P]. inversion P as [|? ? PN P']; subst.
  inversion P' as [|? ? PL _]; subst.
  unfold ConsumeClaim. destruct (flushInterval (cfg h) <=? 0) eqn:T; [lia|].
  destruct (consume_below before h w Pb) as (h1 & w1 & C1 & E1 & Cf1 & L1 & S1).
  { rewrite Ev. cbn [length]. lia. }
  rewrite map_app, (consumeLoop_app _ _ _ _ _ _ C1).
  cbn [map consumeLoop]. cbv [bind].
  destruct (loopBody parseTime optionalCell h1 (Message mN) w1) as [r w2] eqn:L.
  apply message_turn in L as [S2 L].
  destruct (parses_inr mN w1 PN) as [ev Hev]. rewrite Hev in L.
  unfold sizeTrigger in L. cbn [withEvent events cfg] in L.
  rewrite length_app, L1, Ev, Cf1 in L. cbn [length] in L.
  rewrite geb_true in L by lia.
  destruct L as (h2 & wm & -> & Em & Sm & O).
  apply flush_outcome_noFaults in O as [-> E2].
  2:{ eapply noFaults_sameSources; [|exact NF]. eapply sameSources_trans; eassumption. }
  cbn [withEvent events cfg] in E2.
  match goal with |- context [loopBody _ _ ?hh (Message mLast) w2] =>
    destruct (loopBody parseTime optionalCell hh (Message mLast) w2) as [r3 w3] eqn:L3;
    set (h2 := hh) in *
  end.
  apply message_turn in L3 as [S3 L3].
  destruct (parses_inr mLast w2 PL) as [ev3 Hev3]. rewrite Hev3 in L3.
  unfold sizeTrigger in L3. cbn [withEvent events cfg h2 length app] in L3.
  rewrite Cf1 in L3.
  rewrite geb_false in L3 by lia.
  destruct L3 as [-> E3]. cbn [consumeLoop]. cbv [ret].
  eexists; eexists; eexists; eexists. split; [reflexivity|]. split; [reflexivity|].
  rewrite E3, E2, Em, E1, <- !app_assoc. cbn [app].
  rewrite length_app, L1, Ev, Cf1. cbn [length].
  replace (0 + length before + 1)%nat with (S (length before)) by lia.
  reflexivity.
Qed.

(** After a flush that returned no error the buffer is empty: neither
    test of the loop holds, whatever the clock shows. *)
Lemma after_flush_quiet h w h' w' :
  flush optionalCell h w = (None, h', w') ->
  events h' = []
  /\ (events h <> [] -> lastFlush h' = next (clock w) (S (pos (clock w))))
  /\ (forall now, timeTrigger h' now = false)
  /\ (0 < FlushEveryN (cfg h') -> sizeTrigger h' = false)
  /\ (forall elapsed, 0 < FlushEveryN (cfg h') ->
        shouldFlush (FlushEveryN (cfg h')) (flushInterval (cfg h'))
          (length (events h')) elapsed = false).
Proof.
  intros H. apply flush_spec in H.
  assert (events h' = []) as E by (inversion H; subst; auto).
  split; [exact E|]. split.
  { inversion H; subst; [contradiction|reflexivity]. }
  unfold timeTrigger, sizeTrigger, shouldFlush. rewrite E. cbn [length].
  split; [|split].
  - intros now. now rewrite andb_false_r.
  - intros N. apply geb_false. cbn. lia.
  - intros el N. cbn [Nat.eqb negb]. rewrite andb_false_r, orb_false_r.
    apply geb_false. cbn. lia.
Qed.

Lemma decimal4 z : 0 <= z <= 9999 -> decimal 4 z (fmt_0d 4 z).
Proof. intros H. now apply GoLibFacts.padded_spec, GoLibFacts.padded4. Qed.

Lemma decimal2 z : 0 <= z <= 99 -> decimal 2 z (fmt_0d 2 z).
Proof. intros H. now apply GoLibFacts.padded_spec, GoLibFacts.padded2. Qed.

Lemma decimal_inj n x y s t :
  0 <= x -> 0 <= y -> decimal n x s -> decimal n y t -> s = t -> x = y.
Proof.
  intros X Y (_ & _ & A) (_ & _ & B) ->. rewrite A in B. inversion B. lia.
Qed.

(** The key determines the date, the hour and the suffix it was built from. *)
Lemma objectKey_inj t1 t2 s1 s2 :
  civil t1 -> civil t2 -> String.length s1 = String.length s2 ->
  objectKey t1 s1 = objectKey t2 s2 ->
  Year t1 = Year t2 /\ Month t1 = Month t2 /\ Day t1 = Day t2
  /\ Hour t1 = Hour t2 /\ s1 = s2.
Proof.
  intros (Y1 & M1 & D1 & H1) (Y2 & M2 & D2 & H2) L E. unfold objectKey in E.
  pose proof (decimal4 _ Y1) as Ya. pose proof (decimal4 _ Y2) as Yb.
  pose proof (decimal2 (Month t1) ltac:(lia)) as Ma.
  pose proof (decimal2 (Month t2) ltac:(lia)) as Mb.
  pose proof (decimal2 (Day t1) ltac:(lia)) as Da.
  pose proof (decimal2 (Day t2) ltac:(lia)) as Db.
  pose proof (decimal2 (Hour t1) ltac:(lia)) as Ha.
  pose proof (decimal2 (Hour t2) ltac:(lia)) as Hb.
  apply String.app_inj in E.
  apply GoLibFacts.append_inv_length in E as [EY E];
    [| destruct Ya as [-> _], Yb as [-> _]; reflexivity].
  apply String.app_inj in E.
  apply GoLibFacts.append_inv_length in E as [EM E];
    [| destruct Ma as [-> _], Mb as [-> _]; reflexivity].
  apply String.app_inj in E.
  apply GoLibFacts.append_inv_length in E as [ED E];
    [| destruct Da as [-> _], Db as [-> _]; reflexivity].
  apply String.app_inj in E.
  apply GoLibFacts.append_inv_length in E as [EH E];
    [| destruct Ha as [-> _], Hb as [-> _]; reflexivity].
  apply String.app_inj in E.
  apply GoLibFacts.append_inv_length in E as [ES _]; [|exact L].
  splits; auto.
  - eapply (decimal_inj 4); eauto; lia.
  - eapply (decimal_inj 2); eauto; lia.
  - eapply (decimal_inj 2); eauto; lia.
  - eapply (decimal_inj 2); eauto; lia.
Qed.

Lemma flushKey_inj w1 w2 :
  civil (flushTime w1) -> civil (flushTime w2) ->
  flushKey w1 = flushKey w2 ->
  sameHour (flushTime w1) (flushTime w2) /\ flushBytes w1 = flushBytes w2.
Proof.
  intros C1 C2 E. unfold flushKey in E.
  apply objectKey_inj in E as (Y & M & D & H & S); auto.
  split; [now splits|]. now apply GoLibFacts.EncodeToString_inj.
Qed.





Lemma parseKafkaJSON_row doc r w :
  Unmarshal doc = inr r ->
  fst (parseKafkaJSON parseTime doc w)
  = inr (rowOf r (instantOf parseTime (rawTimestamp r) w 0)
           (instantOf parseTime (rawIngestedAt r) w (clockReads parseTime (rawTimestamp r)))).
Proof.
  intros U. unfold parseKafkaJSON, instantOf, clockReads. rewrite U.
  destruct (parseTime (rawTimestamp r)), (parseTime (rawIngestedAt r));
    mred; rewrite ?Nat.add_0_r, ?Nat.add_1_r; reflexivity.
Qed.

Lemma eqb_fold a b : String.eqb a b = true -> Json.foldName a = Json.foldName b.
Proof. intros E. apply String.eqb_eq in E. now subst. Qed.

Ltac other_setter t :=
  unfold Json.lookupField, rawFields;
  cbn [find fst snd Json.field option_map];
  let L := fresh "L" in
  intros L ?;
  repeat match type of L with
         | context [if String.eqb ?a ?b then _ else _] =>
             let E := fresh "E" in
             destruct (String.eqb a b) eqn:E;
             [ try (apply eqb_fold in E; congruence);
               try (apply String.eqb_eq in E; congruence);
               injection L as <-
             | ]
         end; try discriminate;
  destruct t; cbn;
  repeat match goal with
         | |- context [match ?x with _ => _ end] => destruct x
         end;
  intros [= <-]; reflexivity.

Lemma setter_keeps_timestamp key set v (t t' : rawEvent) :
  Json.lookupField rawFields key = Some set ->
  Json.foldName key <> Json.foldName "timestamp" ->
  set v t = inr t' -> rawTimestamp t' = rawTimestamp t.
Proof. other_setter t. Qed.

Lemma setter_keeps_ingested_at key set v (t t' : rawEvent) :
  Json.lookupField rawFields key = Some set ->
  Json.foldName key <> Json.foldName "ingested_at" ->
  set v t = inr t' -> rawIngestedAt t' = rawIngestedAt t.
Proof. other_setter t. Qed.

Lemma decodeMembers_lacks ms : forall t r,
  Json.decodeMembers rawFields false ms t = inr r ->
  (lacks "timestamp" ms -> rawTimestamp r = rawTimestamp t)
  /\ (lacks "ingested_at" ms -> rawIngestedAt r = rawIngestedAt t).
Proof.
  induction ms as [|kv ms IH]; intros t r D; cbn [Json.decodeMembers] in D.
  - injection D as <-. split; reflexivity.
  - destruct (Json.lookupField rawFields (fst kv)) as [set|] eqn:L.
    + destruct (set (snd kv) t) as [e|t'] eqn:S; [discriminate|].
      destruct (IH _ _ D) as [A B]. split; intros K; inversion K; subst.
      * rewrite A by assumption. eapply setter_keeps_timestamp; eauto.
      * rewrite B by assumption. eapply setter_keeps_ingested_at; eauto.
    + destruct (IH _ _ D) as [A B]. split; intros K; inversion K; subst; auto.
Qed.

(** A message without a [timestamp] member decodes with the empty
    string for it, and likewise for [ingested_at]. *)
Lemma missing_time_is_empty ms r :
  Unmarshal (Json.WellFormed (Json.Obj ms)) = inr r ->
  (lacks "timestamp" ms -> rawTimestamp r = "")
  /\ (lacks "ingested_at" ms -> rawIngestedAt r = "").
Proof. intros D. exact (decodeMembers_lacks ms zeroRaw r D). Qed.

Lemma lookup_request_id : Json.lookupField rawFields "request_id" = None.
Proof. reflexivity. Qed.


(** C1 (as amended).  A turn of the consumer loop calls [flush] exactly
    when its own test holds: the size test on a message that parses (the
    buffer counted with that message), the time test on a tick; no other
    turn flushes, and the two tests are never combined.  With an empty
    buffer, a threshold of [N] (500 in the scenario), [N] parseable
    messages and one more, and no failing call, exactly one flush fires,
    after the [N]-th message and before the last one is marked.  After a
    flush that returned no error the buffer is empty and the timer reset:
    the time test is false whatever the clock shows, and the size test
    and the specification's condition are false for a threshold of at
    least one. *)
Theorem flush_fires_on_the_test_of_its_turn :
  (forall h s w,
      exists new,
        effects (snd (loopBody parseTime optionalCell h s w)) = effects w ++ new
        /\ flushAttempts new = (if trigger parseTime h s w then 1 else 0)%nat)
  /\ (forall before mN mLast h w,
        0 < flushInterval (cfg h) ->
        events h = [] ->
        FlushEveryN (cfg h) = Z.of_nat (S (length before)) ->
        2 <= FlushEveryN (cfg h) ->
        Forall parses (before ++ [mN; mLast]) ->
        noFaults w ->
        exists h' w' key tbl,
          ConsumeClaim parseTime optionalCell
            (map Message (before ++ [mN; mLast])) h w = (Waiting, h', w')
          /\ length (events h') = 1%nat
          /\ effects w' = effects w
               ++ map mark before
               ++ [ mark mN;
                    PutObject (MinIOBucket (cfg h)) key tbl;
                    Log (Flushed (S (length before)) (MinIOBucket (cfg h)) key);
                    mark mLast ])
  /\ (forall h w h' w',
        flush optionalCell h w = (None, h', w') ->
        events h' = []
        /\ (events h <> [] -> lastFlush h' = next (clock w) (S (pos (clock w))))
        /\ (forall now, timeTrigger h' now = false)
        /\ (0 < FlushEveryN (cfg h') -> sizeTrigger h' = false)
        /\ (forall elapsed, 0 < FlushEveryN (cfg h') ->
              shouldFlush (FlushEveryN (cfg h')) (flushInterval (cfg h'))
                (length (events h')) elapsed = false)).
Proof.
  split; [|split].
  - intros h s w.
    destruct (loopBody parseTime optionalCell h s w) as [r w'] eqn:L.
    exact (turn_flush_attempts _ _ _ _ _ L).
  - exact one_flush_at_threshold.
  - exact after_flush_quiet.
Qed.

(** C2.  In the turn that receives a message the position of the message
    is marked before anything is stored: on a parse failure the message
    is logged and dropped, the buffer left as it was, and its position
    marked all the same; on a successful parse the event is appended to
    the buffer and the position is marked at once, before the flush the
    turn may go on to make.  The buffer the turn leaves is the old one
    with the event at its end; only when the size test holds and the
    flush succeeds is it empty, and then the object stored after the
    mark holds exactly those rows.  This holds in every world: whether
    uploads fail or succeed has no part in the marking. *)
Theorem message_position_committed_first h msg w :
  exists r w' pre post,
    loopBody parseTime optionalCell h (Message msg) w = (r, w')
    /\ effects w' = effects w ++ pre ++ MarkMessage (Offset msg) :: post
    /\ existsb isPut pre = false
    /\ existsb isMark post = false
    /\ match fst (parseKafkaJSON parseTime (Value msg) w) with
       | inl e => r = Some h /\ pre = [Log (BadEventJSON e)] /\ post = []
       | inr ev =>
           pre = []
           /\ exists h',
                r = Some h'
                /\ if sizeTrigger (withEvent h ev) then
                     (h' = withEvent h ev /\ exists e, post = [Log (FlushFailed e)])
                     \/ (events h' = [] /\ cfg h' = cfg h
                         /\ exists key,
                              post
                              = [ PutObject (MinIOBucket (cfg h)) key
                                    (encodeBatch optionalCell (events h ++ [ev]));
                                  Log (Flushed (length (events h ++ [ev]))
                                         (MinIOBucket (cfg h)) key) ])
                   else h' = withEvent h ev /\ post = []
       end.
Proof.
  destruct (loopBody parseTime optionalCell h (Message msg) w) as [r w'] eqn:L.
  exists r, w'. apply message_turn in L as [_ L].
  destruct (fst (parseKafkaJSON parseTime (Value msg) w)) as [e|ev].
  - destruct L as [-> E]. exists [Log (BadEventJSON e)], [].
    splits; auto.
  - destruct (sizeTrigger (withEvent h ev)).
    + destruct L as (h' & wm & -> & E & _ & O).
      destruct O as [e w' O _ | w' O]; rewrite E, <- app_assoc in O.
      * exists [], [Log (FlushFailed e)]. splits; eauto 7.
      * eexists [], _. splits; [reflexivity|exact O|reflexivity|reflexivity|reflexivity|].
        eexists. split; [reflexivity|]. right. splits; [reflexivity|reflexivity|].
        eexists. reflexivity.
    + destruct L as [-> E]. exists [], []. splits; eauto.
Qed.

(** C3.  A flush that returns an error, whichever it is (writing the
    Parquet file, [os.Stat], [os.Open] or the upload), returns the
    handler it was given: the same events in the same order, the same
    [lastFlush]; it has stored no object and written no log line. *)
Theorem flush_failure_keeps_batch h w e h' w' :
  flush optionalCell h w = (Some e, h', w') ->
  h' = h /\ events h' = events h /\ lastFlush h' = lastFlush h
  /\ effects w' = effects w.
Proof.
  intros H. apply flush_spec in H. inversion H; subst. auto.
Qed.

Ltac rstep :=
  cbn [Json.decodeMembers Json.lookupField find fst snd String.eqb Ascii.eqb Bool.eqb
       rawFields Json.field Json.storeString Json.storeInt app timeMember option_map].

(** [json.Unmarshal] accepts a message of the raw event shape, with
    the empty string for a time member that is absent. *)
Lemma Unmarshal_messageFor ts ing r :
  fits_int32 (rawStatusCode r) = true -> fits_int32 (rawLatencyMs r) = true ->
  fits_int32 (rawSchemaVer r) = true ->
  Unmarshal (messageFor ts ing r)
  = inr (mkRaw (default "" ts) (rawService r) (rawCustomerID r) (rawEndpoint r)
           (rawMethod r) (rawStatusCode r) (rawLatencyMs r) (rawTraceID r)
           (rawError r) (rawEnvironment r) (rawSchemaVer r) (default "" ing) ∅).
Proof.
  intros F1 F2 F3. unfold Unmarshal, messageFor, Json.decodeStruct.
  destruct ts as [ts|], ing as [ing|]; rstep; rewrite F1, F2, F3; rstep;
    reflexivity.
Qed.

(** A setter of [rawEvent] fails or succeeds whatever the two time
    strings of the record are, and leaves their difference as it is. *)
Lemma setter_sameButTimes key set v (t t' : rawEvent) :
  Json.lookupField rawFields key = Some set ->
  sameButTimes t t' ->
  match set v t, set v t' with
  | inl e, inl e' => e = e'
  | inr a, inr a' => sameButTimes a a'
  | _, _ => False
  end.
Proof.
  unfold Json.lookupField, rawFields.
  cbn [find fst snd Json.field option_map].
  intros L (a & b & ->).
  repeat match type of L with
         | context [if String.eqb ?x ?y then _ else _] =>
             destruct (String.eqb x y);
             [ injection L as <- | ]
         end; try discriminate.
  all: destruct t; cbn.
  all: destruct v as [| |[z|]| | |ms]; cbn; try reflexivity.
  all: try destruct (fits_int32 z); try reflexivity.
  all: try match goal with
           | |- context [fold_left ?f ?l ?i] => destruct (fold_left f l i)
           end; try reflexivity.
  all: unfold sameButTimes; cbn; eauto.
Qed.

(** So does the decoding of the members of an object. *)
Lemma decodeMembers_sameButTimes ms : forall t t',
  sameButTimes t t' ->
  match Json.decodeMembers rawFields false ms t,
        Json.decodeMembers rawFields false ms t' with
  | inl e, inl e' => e = e'
  | inr r, inr r' => sameButTimes r r'
  | _, _ => False
  end.
Proof.
  induction ms as [|kv ms IH]; intros t t' R; cbn [Json.decodeMembers]; [exact R|].
  destruct (Json.lookupField rawFields (fst kv)) as [set|] eqn:L; [|now apply IH].
  pose proof (setter_sameButTimes _ _ (snd kv) _ _ L R) as S.
  destruct (set (snd kv) t) as [e|a], (set (snd kv) t') as [e'|a'];
    try contradiction; [exact S|now apply IH].
Qed.

(** Whether a message parses does not depend on a time member: with
    the member or without it, whatever string it holds. *)
Lemma time_member_indifferent key s ms1 ms2 :
  key = "timestamp" \/ key = "ingested_at" ->
  match Unmarshal (Json.WellFormed (Json.Obj (ms1 ++ ms2))),
        Unmarshal (Json.WellFormed (Json.Obj (ms1 ++ (key, Json.Str s) :: ms2))) with
  | inl e, inl e' => e = e'
  | inr r, inr r' => sameButTimes r r'
  | _, _ => False
  end.
Proof.
  intros K. unfold Unmarshal, Json.decodeStruct. generalize zeroRaw.
  induction ms1 as [|kv ms1 IH]; intros t; cbn [app Json.decodeMembers].
  - assert (exists set, Json.lookupField rawFields (fst (key, Json.Str s)) = Some set
                        /\ exists t', set (snd (key, Json.Str s)) t = inr t'
                                      /\ sameButTimes t t') as (set & L & t' & S & R).
    { destruct K as [-> | ->]; eexists; (split; [reflexivity|]); cbn;
        eexists; (split; [reflexivity|]); destruct t; unfold sameButTimes; cbn; eauto. }
    rewrite L, S. now apply decodeMembers_sameButTimes.
  - destruct (Json.lookupField rawFields (fst kv)) as [set|]; [|apply IH].
    destruct (set (snd kv) t) as [e|t1]; [reflexivity|apply IH].
Qed.

(** C10.  A message is a parse failure exactly when [json.Unmarshal]
    rejects it for the shape of [rawEvent]; it is then logged, dropped
    and marked.  What its [timestamp] and [ingested_at] members hold
    has no part in that: a message parses with such a member exactly
    when it parses without it, whatever the string.  A message with the
    string and integer members of an event is accepted with any time
    strings, and with none: a string [time.Parse] rejects (the empty
    string of a missing member too) is replaced by the clock's reading
    at that moment, no parse failure is logged, and the row joins the
    buffer (or the object the turn's own flush stores). *)
Theorem unparseable_time_is_no_parse_failure :
  (forall h msg w,
     match Unmarshal (Value msg) with
     | inl e =>
         fst (parseKafkaJSON parseTime (Value msg) w) = inl e
         /\ exists w',
              loopBody parseTime optionalCell h (Message msg) w = (Some h, w')
              /\ effects w' = effects w
                   ++ [Log (BadEventJSON e); MarkMessage (Offset msg)]
     | inr r =>
         let ev :=
           rowOf r (instantOf parseTime (rawTimestamp r) w 0)
             (instantOf parseTime (rawIngestedAt r) w
                (clockReads parseTime (rawTimestamp r))) in
         fst (parseKafkaJSON parseTime (Value msg) w) = inr ev
         /\ (parseTime (rawTimestamp r) = None ->
               Timestamp ev = UnixMilli (next (clock w) (pos (clock w))))
         /\ (parseTime (rawIngestedAt r) = None ->
               IngestedAt ev
               = UnixMilli (next (clock w)
                              (pos (clock w) + clockReads parseTime (rawTimestamp r))))
         /\ (forall ms,
               Value msg = Json.WellFormed (Json.Obj ms) ->
               (lacks "timestamp" ms -> rawTimestamp r = "")
               /\ (lacks "ingested_at" ms -> rawIngestedAt r = ""))
         /\ exists h' w',
              loopBody parseTime optionalCell h (Message msg) w = (Some h', w')
              /\ (h' = withEvent h ev
                  \/ events h' = []
                     /\ exists key,
                          In (PutObject (MinIOBucket (cfg h)) key
                                (encodeBatch optionalCell (events h ++ [ev])))
                             (effects w'))
     end)
  /\ (forall key s ms1 ms2,
        key = "timestamp" \/ key = "ingested_at" ->
        match Unmarshal (Json.WellFormed (Json.Obj (ms1 ++ ms2))),
              Unmarshal (Json.WellFormed (Json.Obj (ms1 ++ (key, Json.Str s) :: ms2))) with
        | inl e, inl e' => e = e'
        | inr r, inr r' => sameButTimes r r'
        | _, _ => False
        end)
  /\ (forall ts ing r h w offset,
        fits_int32 (rawStatusCode r) = true ->
        fits_int32 (rawLatencyMs r) = true ->
        fits_int32 (rawSchemaVer r) = true ->
        let ev :=
          rowOf r (instantOf parseTime (default "" ts) w 0)
            (instantOf parseTime (default "" ing) w
               (clockReads parseTime (default "" ts))) in
        fst (parseKafkaJSON parseTime (messageFor ts ing r) w) = inr ev
        /\ (parseTime (default "" ts) = None ->
              Timestamp ev = UnixMilli (next (clock w) (pos (clock w))))
        /\ (parseTime (default "" ing) = None ->
              IngestedAt ev
              = UnixMilli (next (clock w)
                             (pos (clock w) + clockReads parseTime (default "" ts))))
        /\ exists h' w' post,
             loopBody parseTime optionalCell h
               (Message (mkMessage (messageFor ts ing r) offset)) w = (Some h', w')
             /\ effects w' = effects w ++ MarkMessage offset :: post
             /\ existsb isBadEvent post = false
             /\ (h' = withEvent h ev /\ existsb isPut post = false
                 \/ events h' = []
                    /\ exists key,
                         In (PutObject (MinIOBucket (cfg h)) key
                               (encodeBatch optionalCell (events h ++ [ev])))
                            post)).
Proof.
  split; [|split].
  - intros h msg w.
    destruct (loopBody parseTime optionalCell h (Message msg) w) as [r' w'] eqn:L.
    apply message_turn in L as [_ L].
    pose proof (parseKafkaJSON_spec (Value msg) w) as P.
    destruct (Unmarshal (Value msg)) as [e|r] eqn:U.
    + rewrite P in L |- *. cbn [fst] in *. destruct L as [-> E]. eauto.
    + clear P. cbv zeta. rewrite (parseKafkaJSON_row _ _ _ U) in L |- *.
      split; [reflexivity|]. split.
      { intros N. unfold rowOf, instantOf. cbn [Timestamp]. now rewrite N, Nat.add_0_r. }
      split.
      { intros N. unfold rowOf, instantOf. cbn [IngestedAt]. now rewrite N. }
      split.
      { intros ms V. rewrite V in U. now apply missing_time_is_empty. }
      destruct (sizeTrigger _).
      * destruct L as (h' & wm & -> & E & _ & O).
        destruct O as [e w' O _ | w' O].
        -- eexists _, _. split; [reflexivity|]. now left.
        -- eexists _, _. split; [reflexivity|]. right. split; [reflexivity|].
           eexists. rewrite O. apply in_or_app. right. left. reflexivity.
      * destruct L as [-> E]. eexists _, _. split; [reflexivity|]. now left.
  - intros key s ms1 ms2. apply time_member_indifferent.
  - intros ts ing r h w offset F1 F2 F3. cbv zeta.
    pose proof (Unmarshal_messageFor ts ing r F1 F2 F3) as U.
    pose proof (parseKafkaJSON_row _ _ w U) as P.
    cbn [rawTimestamp rawIngestedAt] in P.
    assert (forall t1 t2,
              rowOf (mkRaw (default "" ts) (rawService r) (rawCustomerID r)
                       (rawEndpoint r) (rawMethod r) (rawStatusCode r)
                       (rawLatencyMs r) (rawTraceID r) (rawError r)
                       (rawEnvironment r) (rawSchemaVer r) (default "" ing) ∅) t1 t2
              = rowOf r t1 t2) as RO by reflexivity.
    rewrite RO in P. split; [exact P|]. split.
    { intros N. unfold rowOf, instantOf. cbn [Timestamp]. now rewrite N, Nat.add_0_r. }
    split.
    { intros N. unfold rowOf, instantOf. cbn [IngestedAt]. now rewrite N. }
    destruct (loopBody parseTime optionalCell h
                (Message (mkMessage (messageFor ts ing r) offset)) w) as [r' w'] eqn:L.
    apply message_turn in L as [_ L]. cbn [Value Offset] in L. rewrite P in L.
    destruct (sizeTrigger _).
    + destruct L as (h' & wm & -> & E & _ & O).
      destruct O as [e w' O _ | w' O]; rewrite E, <- app_assoc in O.
      * eexists _, _, _. split; [reflexivity|]. split; [exact O|].
        split; [reflexivity|]. left. split; reflexivity.
      * eexists _, _, _. split; [reflexivity|]. split; [exact O|].
        split; [reflexivity|]. right. split; [reflexivity|].
        eexists. left. reflexivity.
    + destruct L as [-> E]. exists (withEvent h
        (rowOf r (instantOf parseTime (default "" ts) w 0)
           (instantOf parseTime (default "" ing) w
              (clockReads parseTime (default "" ts))))), w', [].
      split; [reflexivity|]. split; [exact E|]. split; [reflexivity|].
      left. split; reflexivity.
Qed.

(** C9 (as amended).  A flush of a non-empty buffer that returns no
    error stores exactly one object, holding the whole batch.  Its key
    is [telemetry/parquet/date=YYYY-MM-DD/hour=HH/batch-<suffix>.parquet],
    built from the date and hour of the clock's reading and sixteen
    hexadecimal digits for eight bytes drawn from the random source.
    The key is a function of these alone: two flushes have different
    keys whenever they differ in the hour or in the bytes drawn. *)
Theorem flush_stores_one_object_under_its_key :
  (forall h w h' w',
      events h <> [] ->
      flush optionalCell h w = (None, h', w') ->
      exists new,
        effects w' = effects w ++ new
        /\ List.filter isPut new
           = [ PutObject (MinIOBucket (cfg h)) (flushKey w)
                 (encodeBatch optionalCell (events h)) ])
  /\ (forall w,
        civil (flushTime w) ->
        exists yyyy mm dd hh suffix,
          flushKey w
          = "telemetry/parquet/date=" +:+ yyyy +:+ "-" +:+ mm +:+ "-" +:+ dd
            +:+ "/hour=" +:+ hh +:+ "/batch-" +:+ suffix +:+ ".parquet"
          /\ decimal 4 (Year (flushTime w)) yyyy
          /\ decimal 2 (Month (flushTime w)) mm
          /\ decimal 2 (Day (flushTime w)) dd
          /\ decimal 2 (Hour (flushTime w)) hh
          /\ suffix = EncodeToString (flushBytes w)
          /\ String.length suffix = 16%nat
          /\ allHex suffix = true)
  /\ (forall w1 w2,
        civil (flushTime w1) -> civil (flushTime w2) ->
        ~ sameHour (flushTime w1) (flushTime w2) \/ flushBytes w1 <> flushBytes w2 ->
        flushKey w1 <> flushKey w2).
Proof.
  split; [|split].
  - intros h w h' w' Ne F. apply flush_spec in F.
    inversion F as [E | | w1 _ E _]; subst; [contradiction|].
    eexists. split; [exact E|reflexivity].
  - intros w (Y & M & D & H).
    exists (fmt_0d 4 (Year (flushTime w))), (fmt_0d 2 (Month (flushTime w))),
      (fmt_0d 2 (Day (flushTime w))), (fmt_0d 2 (Hour (flushTime w))),
      (EncodeToString (flushBytes w)).
    splits; try reflexivity.
    + now apply decimal4.
    + apply decimal2; lia.
    + apply decimal2; lia.
    + apply decimal2; lia.
    + apply GoLibFacts.EncodeToString_allHex.
  - intros w1 w2 C1 C2 D E. apply flushKey_inj in E as [S B]; auto.
    destruct D as [D|D]; contradiction.
Qed.

End Consumer.

(** *** Reading back what was written *)

Section Roundtrip.

Variable parseTime : string -> option Time.




End Roundtrip.

(** *** The claims on concrete inputs *)

Lemma exampleMessage_parses offset : parses (exampleMessage offset).
Proof. eexists. vm_compute. reflexivity. Qed.

(** C1, counterexample.  With N = 500 and T = 5 s, a handler whose last
    flush was at the start, and a clock that shows twenty seconds more
    at every reading: a tick finds the buffer empty, then two messages
    arrive and are buffered; at the end of their turns the buffer is
    non-empty and more than T has elapsed, so the condition of the
    specification holds, yet no flush was attempted (the message case
    tests the size only).  With N = 2, every external call failing
    and a clock that advances by a millisecond: the flush of the second
    message fails and the batch of two stays; the tick that follows
    finds count >= N, so the condition holds, yet it attempts no flush
    (the ticker case tests the time only): one attempt in all. *)
Lemma flush_condition_not_tested_in_every_turn :
  (let r :=
     ConsumeClaim exampleParse storesValue
       [Tick; Message (exampleMessage 1); Message (exampleMessage 2)]
       (freshHandler 500 5)
       (exampleWorld 20000000000 countingBytes (fun _ => false)) in
   fst (fst r) = Waiting
   /\ events (snd (fst r)) = [exampleRow; exampleRow]
   /\ effects (snd r) = [MarkMessage 1; MarkMessage 2]
   /\ shouldFlush 500 (flushInterval (exampleConfig 500 5))
        (length (events (snd (fst r))))
        (Since (flushTime (snd r)) (lastFlush (snd (fst r)))) = true
   /\ flushAttempts (effects (snd r)) = 0%nat)
  /\
  (let r :=
     ConsumeClaim exampleParse storesValue
       [Message (exampleMessage 1); Message (exampleMessage 2)]
       (freshHandler 2 5)
       (exampleWorld 1000000 countingBytes (fun _ => true)) in
   let r' := loopBody exampleParse storesValue (snd (fst r)) Tick (snd r) in
   fst (fst r) = Waiting
   /\ events (snd (fst r)) = [exampleRow; exampleRow]
   /\ fst r' = Some (snd (fst r))
   /\ effects (snd r')
      = [MarkMessage 1; MarkMessage 2; Log (FlushFailed WriteParquetFailed)]
   /\ shouldFlush 2 (flushInterval (exampleConfig 2 5))
        (length (events (snd (fst r))))
        (Since (flushTime (snd r)) (lastFlush (snd (fst r)))) = true
   /\ flushAttempts (effects (snd r')) = 1%nat).
Proof. vm_compute. splits; reflexivity. Qed.

(** C1, the scenario: 501 events arrive with N = 500. *)
Lemma scenario_501_events :
  exists h' w' key tbl,
    ConsumeClaim exampleParse storesValue
      (map Message (firstMessages ++ [exampleMessage 499; exampleMessage 500]))
      (freshHandler 500 5)
      (exampleWorld 1000000 countingBytes (fun _ => false))
    = (Waiting, h', w')
    /\ length (events h') = 1%nat
    /\ effects w'
       = effects (exampleWorld 1000000 countingBytes (fun _ => false))
         ++ map mark firstMessages
         ++ [ mark (exampleMessage 499);
              PutObject "tigerscope" key tbl;
              Log (Flushed 500 "tigerscope" key);
              mark (exampleMessage 500) ].
Proof.
  apply (proj1 (proj2 (flush_fires_on_the_test_of_its_turn exampleParse storesValue))
           firstMessages (exampleMessage 499) (exampleMessage 500)
           (freshHandler 500 5)
           (exampleWorld 1000000 countingBytes (fun _ => false))).
  - reflexivity.
  - reflexivity.
  - reflexivity.
  - vm_compute. discriminate.
  - apply List.Forall_forall. intros m Hin. apply in_app_or in Hin as [Hin|Hin].
    + apply in_map_iff in Hin as (n & <- & _). apply exampleMessage_parses.
    + destruct Hin as [<-|[<-|[]]]; apply exampleMessage_parses.
  - intros n. reflexivity.
Defined.

(** C3, an instance: the upload fails. *)
Lemma flush_failure_keeps_batch_example :
  exists w',
    flush storesValue (withEvent (freshHandler 500 5) exampleRow)
      (exampleWorld 1000000 countingBytes uploadFails)
    = (Some UploadFailed, withEvent (freshHandler 500 5) exampleRow, w')
    /\ effects w' = [].
Proof.
  assert (fst (flush storesValue (withEvent (freshHandler 500 5) exampleRow)
                 (exampleWorld 1000000 countingBytes uploadFails))
          = (Some UploadFailed, withEvent (freshHandler 500 5) exampleRow)) as R
    by (vm_compute; reflexivity).
  destruct (flush storesValue (withEvent (freshHandler 500 5) exampleRow)
              (exampleWorld 1000000 countingBytes uploadFails))
    as [[e h'] w'] eqn:F.
  cbn [fst] in R. injection R as -> ->.
  exists w'. split; [reflexivity|].
  exact (proj2 (proj2 (proj2 (flush_failure_keeps_batch storesValue _ _ _ _ _ F)))).
Defined.


(** C9, counterexample.  With N = 1 two messages make two flushes; in
    the same hour, with a random source that yields the same bytes
    again, the second object is stored under the key of the first. *)
Lemma object_key_reused :
  let w :=
    ConsumeClaim exampleParse storesValue
      [Message (exampleMessage 1); Message (exampleMessage 2)]
      (freshHandler 1 5)
      (exampleWorld 1000000 (fun _ => Byte.x2a) (fun _ => false)) in
  List.filter isPut (effects (snd w))
  = [ PutObject "tigerscope"
        "telemetry/parquet/date=2026-10-30/hour=22/batch-2a2a2a2a2a2a2a2a.parquet"
        (encodeBatch storesValue [exampleRow]);
      PutObject "tigerscope"
        "telemetry/parquet/date=2026-10-30/hour=22/batch-2a2a2a2a2a2a2a2a.parquet"
        (encodeBatch storesValue [exampleRow]) ]
  /\ fst (flush storesValue (freshHandler 1 5)
            (exampleWorld 1000000 countingBytes (fun _ => false)))
     = (None, freshHandler 1 5)
  /\ effects (snd (flush storesValue (freshHandler 1 5)
                     (exampleWorld 1000000 countingBytes (fun _ => false))))
     = [].
Proof. vm_compute. splits; reflexivity. Qed.

(** C2, instances.  A message that parses joins the buffer and is
    marked; with a threshold of one the turn goes on to flush, and the
    object stored after the mark holds the row; malformed bytes are
    logged and marked, the buffer left as it was, in a world where the
    upload would fail. *)
Lemma message_position_committed_first_example :
  (exists w',
     loopBody exampleParse storesValue (freshHandler 500 5)
       (Message (exampleMessage 7))
       (exampleWorld 1000000 countingBytes (fun _ => false))
     = (Some (withEvent (freshHandler 500 5) exampleRow), w')
     /\ effects w' = [MarkMessage 7])
  /\ (exists h' w' key,
        loopBody exampleParse storesValue (freshHandler 1 5)
          (Message (exampleMessage 7))
          (exampleWorld 1000000 countingBytes (fun _ => false))
        = (Some h', w')
        /\ events h' = []
        /\ effects w'
           = [ MarkMessage 7;
               PutObject "tigerscope" key (encodeBatch storesValue [exampleRow]);
               Log (Flushed 1 "tigerscope" key) ])
  /\ (exists w',
        loopBody exampleParse storesValue (freshHandler 500 5)
          (Message (mkMessage Json.Malformed 8))
          (exampleWorld 1000000 countingBytes uploadFails)
        = (Some (freshHandler 500 5), w')
        /\ effects w' = [Log (BadEventJSON Json.SyntaxError); MarkMessage 8]).
Proof.
  split; [|split].
  - destruct (message_position_committed_first exampleParse storesValue
                (freshHandler 500 5) (exampleMessage 7)
                (exampleWorld 1000000 countingBytes (fun _ => false)))
      as (r & w' & pre & post & L & E & _ & _ & C).
    assert (fst (parseKafkaJSON exampleParse (Value (exampleMessage 7))
                   (exampleWorld 1000000 countingBytes (fun _ => false)))
            = inr exampleRow) as P by (vm_compute; reflexivity).
    rewrite P in C. destruct C as (-> & h' & -> & C).
    assert (sizeTrigger (withEvent (freshHandler 500 5) exampleRow) = false) as T
      by (vm_compute; reflexivity).
    rewrite T in C. destruct C as [-> ->].
    exists w'. split; [exact L|exact E].
  - destruct (message_position_committed_first exampleParse storesValue
                (freshHandler 1 5) (exampleMessage 7)
                (exampleWorld 1000000 countingBytes (fun _ => false)))
      as (r & w' & pre & post & L & E & _ & _ & C).
    assert (fst (parseKafkaJSON exampleParse (Value (exampleMessage 7))
                   (exampleWorld 1000000 countingBytes (fun _ => false)))
            = inr exampleRow) as P by (vm_compute; reflexivity).
    rewrite P in C. destruct C as (-> & h' & -> & C).
    assert (sizeTrigger (withEvent (freshHandler 1 5) exampleRow) = true) as T
      by (vm_compute; reflexivity).
    rewrite T in C.
    assert (existsb isPut (effects w') = true) as Put.
    { apply (f_equal (fun r => existsb isPut (effects (snd r)))) in L.
      cbn [snd] in L. rewrite <- L. vm_compute. reflexivity. }
    destruct C as [[_ [e ->]]|(Ev & _ & key & ->)].
    + rewrite E in Put. discriminate Put.
    + exists h', w', key. split; [exact L|]. split; [exact Ev|exact E].
  - destruct (message_position_committed_first exampleParse storesValue
                (freshHandler 500 5) (mkMessage Json.Malformed 8)
                (exampleWorld 1000000 countingBytes uploadFails))
      as (r & w' & pre & post & L & E & _ & _ & C).
    assert (fst (parseKafkaJSON exampleParse (Value (mkMessage Json.Malformed 8))
                   (exampleWorld 1000000 countingBytes uploadFails))
            = inl Json.SyntaxError) as P by (vm_compute; reflexivity).
    rewrite P in C. destruct C as (-> & -> & ->).
    exists w'. split; [exact L|exact E].
Defined.


(** C10, an instance: a message whose [timestamp] is no RFC 3339 string
    and which has no [ingested_at] is buffered with the two next
    readings of the clock, and is no parse failure. *)
Lemma unparseable_time_is_no_parse_failure_example :
  exists w',
    loopBody exampleParse storesValue (freshHandler 500 5)
      (Message
         (mkMessage
            (messageFor (Some "yesterday") None
               (mkRaw "" "auth" "c1" "/x" "GET" 500 12 "t1" "simulated_failure" "local"
                  1 "" ∅)) 3))
      (exampleWorld 1000000 countingBytes (fun _ => false))
    = (Some (withEvent (freshHandler 500 5)
               (mkEvent 1793398140001 "auth" "c1" "/x" "GET" 500 12 "t1"
                  "simulated_failure" "local" 1 1793398140002)), w')
    /\ effects w' = [MarkMessage 3]
    /\ exampleParse "yesterday" = None /\ exampleParse "" = None.
Proof.
  destruct (proj2 (proj2 (unparseable_time_is_no_parse_failure exampleParse storesValue))
              (Some "yesterday") None
              (mkRaw "" "auth" "c1" "/x" "GET" 500 12 "t1" "simulated_failure" "local"
                 1 "" ∅)
              (freshHandler 500 5)
              (exampleWorld 1000000 countingBytes (fun _ => false)) 3
              eq_refl eq_refl eq_refl)
    as (_ & _ & _ & h' & w' & post & L & E & _ & [[-> P]|[Z _]]).
  - exists w'. split; [exact L|]. split; [|split; reflexivity].
    assert (length (effects w') = 1%nat) as N.
    { apply (f_equal (fun r => length (effects (snd r)))) in L. cbn [snd] in L.
      rewrite <- L. vm_compute. reflexivity. }
    rewrite E in N |- *. cbn in N |- *. destruct post; [reflexivity|discriminate].
  - exfalso.
    assert (fst (loopBody exampleParse storesValue (freshHandler 500 5)
                   (Message
                      (mkMessage
                         (messageFor (Some "yesterday") None
                            (mkRaw "" "auth" "c1" "/x" "GET" 500 12 "t1"
                               "simulated_failure" "local" 1 "" ∅)) 3))
                   (exampleWorld 1000000 countingBytes (fun _ => false)))
            = Some (withEvent (freshHandler 500 5)
                      (mkEvent 1793398140001 "auth" "c1" "/x" "GET" 500 12 "t1"
                         "simulated_failure" "local" 1 1793398140002))) as F
      by (vm_compute; reflexivity).
    rewrite L in F. cbn [fst] in F. injection F as ->. discriminate Z.
Defined.

(** C9, an instance: one row flushed with nothing failing. *)
Lemma flush_stores_one_object_example :
  exists new,
    effects (snd (flush storesValue (withEvent (freshHandler 500 5) exampleRow)
                    (exampleWorld 1000000 countingBytes (fun _ => false))))
    = new
    /\ List.filter isPut new
       = [ PutObject "tigerscope"
             "telemetry/parquet/date=2026-10-30/hour=22/batch-0001020304050607.parquet"
             (encodeBatch storesValue [exampleRow]) ].
Proof.
  assert (fst (fst (flush storesValue (withEvent (freshHandler 500 5) exampleRow)
                      (exampleWorld 1000000 countingBytes (fun _ => false))))
          = None) as R by (vm_compute; reflexivity).
  destruct (flush storesValue (withEvent (freshHandler 500 5) exampleRow)
              (exampleWorld 1000000 countingBytes (fun _ => false)))
    as [[e h'] w'] eqn:F.
  cbn [fst] in R. subst e.
  destruct (proj1 (flush_stores_one_object_under_its_key storesValue)
              _ _ _ _ (withEvent_nonempty _ _) F) as (new & E & P).
  exists new. split; [exact E | exact P].
Defined.

End WriterProofs.

(** ** Strings put together *)
Module TextFacts.

Lemma append_cons c a b : String c a +:+ b = String c (a +:+ b).
Proof. reflexivity. Qed.

Lemma append_empty b : EmptyString +:+ b = b.
Proof. reflexivity. Qed.

Lemma append_assoc a b c : (a +:+ b) +:+ c = a +:+ (b +:+ c).
Proof.
  induction a as [|x a IH]; [reflexivity|].
  rewrite !append_cons. now rewrite IH.
Qed.

End TextFacts.

(** ** Whole runs of the consumer loop *)
Module WriterRuns.
Import Writer WriterProofs.

Section Consumer.

Variable parseTime : string -> option Time.
Variable optionalCell : string -> option string.

Lemma storedTables_app a b : storedTables (a ++ b) = storedTables a ++ storedTables b.
Proof. apply flat_map_app. Qed.

(** What a flush attempt on a non-empty buffer stores and leaves. *)
Lemma flush_outcome_stored h wm h' w' :
  flush_outcome optionalCell h wm h' w' ->
  (h' = h /\ storedTables (effects w') = storedTables (effects wm))
  \/ (events h' = [] /\ cfg h' = cfg h
      /\ storedTables (effects w')
         = storedTables (effects wm) ++ [encodeBatch optionalCell (events h)]).
Proof.
  intros [e w1 E _ | w1 E]; rewrite E, storedTables_app; cbn.
  - left. now rewrite app_nil_r.
  - right. auto.
Qed.

(** One turn neither loses nor repeats a row. *)
Lemma turn_conserves h s w r w' :
  loopBody parseTime optionalCell h s w = (r, w') ->
  exists batches rows,
    storedTables (effects w')
    = storedTables (effects w) ++ map (encodeBatch optionalCell) batches
    /\ concat batches ++ events (afterTurn h r) = events h ++ rows
    /\ Forall (fun b => b <> []) batches
    /\ cfg (afterTurn h r) = cfg h
    /\ match s with
       | Message msg =>
           if accepted msg then exists ev, rows = [ev] /\ rowFrom parseTime msg ev
           else rows = []
       | _ => rows = []
       end.
Proof.
  intros L. destruct s as [msg| | |].
  - pose proof (parseKafkaJSON_spec parseTime (Value msg) w) as P.
    apply (message_turn parseTime optionalCell) in L as [_ L].
    unfold accepted. destruct (Unmarshal (Value msg)) as [e|raw].
    + rewrite P in L. cbn [fst] in L. destruct L as [-> E].
      exists [], []. rewrite E, storedTables_app. cbn. rewrite !app_nil_r. auto.
    + destruct P as (ev & w1 & P & _). rewrite P in L. cbn [fst] in L.
      assert (rowFrom parseTime msg ev) as RF by (exists w; now rewrite P).
      destruct (sizeTrigger (withEvent h ev)).
      * destruct L as (h' & wm & -> & E & _ & O).
        apply flush_outcome_stored in O as [[-> O]|(Ev & Cf & O)];
          rewrite O, E, storedTables_app; cbn [storedTables flat_map app afterTurn].
        -- exists [], [ev]. cbn. rewrite !app_nil_r. splits; eauto.
        -- exists [events h ++ [ev]], [ev]. cbn. rewrite Ev, !app_nil_r.
           splits; eauto.
           constructor; [|constructor]. intros X. now apply app_eq_nil in X as [_ X].
      * destruct L as [-> E]. exists [], [ev].
        rewrite E, storedTables_app. cbn. rewrite !app_nil_r. splits; eauto.
  - cbv in L. inversion L; subst. exists [], []. cbn. rewrite !app_nil_r. auto.
  - apply (tick_turn parseTime optionalCell) in L as [_ L].
    destruct (timeTrigger h (next (clock w) (pos (clock w)))) eqn:T.
    + destruct L as (h' & wt & -> & E & _ & O).
      apply flush_outcome_stored in O as [[-> O]|(Ev & Cf & O)]; rewrite O, E;
        cbn [afterTurn].
      * exists [], []. cbn. rewrite !app_nil_r. auto.
      * exists [events h], []. cbn. rewrite Ev, !app_nil_r. splits; auto.
        constructor; [|constructor]. intros X.
        unfold timeTrigger in T. rewrite X, andb_false_r in T. discriminate.
    + destruct L as [-> E]. exists [], []. rewrite E. cbn. rewrite !app_nil_r. auto.
  - cbv in L. inversion L; subst. exists [], []. cbn. rewrite !app_nil_r. auto.
Qed.

(** X1.  Over a whole run of the loop the positions marked are those of
    the messages received, once each and in the order received, whatever
    the parser, the clock and the uploads did. *)
Theorem marked_positions_are_messages_received schedule : forall h w,
  List.filter isMark
    (effects (snd (consumeLoop parseTime optionalCell schedule h w)))
  = List.filter isMark (effects w) ++ map mark (received schedule).
Proof.
  induction schedule as [|s rest IH]; intros h w.
  - cbn. now rewrite app_nil_r.
  - cbn [consumeLoop]. cbv [bind].
    destruct (loopBody parseTime optionalCell h s w) as [[h'|] w'] eqn:L.
    + rewrite IH, (turn_marks _ _ _ _ _ _ _ L), <- app_assoc.
      destruct s; try reflexivity; cbv in L; discriminate.
    + cbv [ret]. cbn [snd]. rewrite (turn_marks _ _ _ _ _ _ _ L).
      destruct s as [msg| | |]; try reflexivity.
      * apply (message_turn parseTime optionalCell) in L as [_ L].
        destruct (fst (parseKafkaJSON parseTime (Value msg) w)).
        -- destruct L as [L _]. discriminate.
        -- destruct (sizeTrigger _).
           ++ destruct L as (? & ? & L & _). discriminate.
           ++ destruct L as [L _]. discriminate.
      * apply (tick_turn parseTime optionalCell) in L as [_ L].
        destruct (timeTrigger _ _).
        -- destruct L as (? & ? & L & _). discriminate.
        -- destruct L as [L _]. discriminate.
Qed.

(** A turn returns only on the closing of the channel or of the context. *)
Lemma turn_returns h s w w' :
  loopBody parseTime optionalCell h s w = (None, w') ->
  s = MessagesClosed \/ s = ContextDone.
Proof.
  intros L. destruct s as [msg| | |]; auto.
  - apply (message_turn parseTime optionalCell) in L as [_ L].
    destruct (fst (parseKafkaJSON parseTime (Value msg) w)).
    + destruct L as [L _]. discriminate.
    + destruct (sizeTrigger _).
      * destruct L as (? & ? & L & _). discriminate.
      * destruct L as [L _]. discriminate.
  - apply (tick_turn parseTime optionalCell) in L as [_ L].
    destruct (timeTrigger _ _).
    + destruct L as (? & ? & L & _). discriminate.
    + destruct L as [L _]. discriminate.
Qed.

(** The loop neither loses nor repeats a row. *)
Lemma consumeLoop_conserves schedule : forall h w,
  exists batches rows,
    storedTables (effects (snd (consumeLoop parseTime optionalCell schedule h w)))
    = storedTables (effects w) ++ map (encodeBatch optionalCell) batches
    /\ concat batches
        ++ events (snd (fst (consumeLoop parseTime optionalCell schedule h w)))
       = events h ++ rows
    /\ Forall2 (rowFrom parseTime) (List.filter accepted (received schedule)) rows
    /\ Forall (fun b => b <> []) batches.
Proof.
  induction schedule as [|s rest IH]; intros h w.
  - exists [], []. cbn. rewrite !app_nil_r. splits; auto.
  - cbn [consumeLoop]. cbv [bind].
    destruct (loopBody parseTime optionalCell h s w) as [r w'] eqn:L.
    pose proof (turn_conserves _ _ _ _ _ L) as (b1 & r1 & S1 & C1 & N1 & _ & R1).
    destruct r as [h'|]; cbn [afterTurn] in C1.
    + destruct (IH h' w') as (b2 & r2 & S2 & C2 & F2 & N2).
      exists (b1 ++ b2), (r1 ++ r2). splits.
      * rewrite S2, S1, map_app, app_assoc. reflexivity.
      * rewrite concat_app, <- app_assoc, C2, !app_assoc, C1. reflexivity.
      * destruct s as [msg| | |]; cbn [received]; try (subst r1; exact F2).
        -- cbn [List.filter]. destruct (accepted msg).
           ++ destruct R1 as (ev & -> & RF). now constructor.
           ++ subst r1. exact F2.
        -- cbv in L. discriminate.
        -- cbv in L. discriminate.
      * apply Forall_app. now split.
    + cbv [ret]. cbn [fst snd].
      exists b1, r1. splits; auto.
      apply turn_returns in L as [->| ->]; subst r1; constructor.
Qed.

(** X2.  Whatever fails, a run of the loop neither loses nor repeats a
    row: the batches stored, in order, followed by what is still
    buffered, are the rows buffered at the start followed by one row for
    each message received that [json.Unmarshal] accepts, in the order
    received.  No empty batch is stored. *)
Theorem no_row_lost_or_repeated schedule h w :
  exists batches rows,
    storedTables (effects (snd (consumeLoop parseTime optionalCell schedule h w)))
    = storedTables (effects w) ++ map (encodeBatch optionalCell) batches
    /\ concat batches
        ++ events (snd (fst (consumeLoop parseTime optionalCell schedule h w)))
       = events h ++ rows
    /\ Forall2 (rowFrom parseTime) (List.filter accepted (received schedule)) rows
    /\ Forall (fun b => b <> []) batches.
Proof. apply consumeLoop_conserves. Qed.

(** The loop reads its sources further, and changes nothing else of them. *)
Lemma consumeLoop_sameSources schedule : forall h w,
  sameSources w (snd (consumeLoop parseTime optionalCell schedule h w)).
Proof.
  induction schedule as [|s rest IH]; intros h w.
  - cbn. unfold sameSources. now splits.
  - cbn [consumeLoop]. cbv [bind].
    destruct (loopBody parseTime optionalCell h s w) as [r w'] eqn:L.
    assert (sameSources w w') as S1.
    { destruct s as [msg| | |].
      - now apply (message_turn parseTime optionalCell) in L as [S1 _].
      - cbv in L. inversion L; subst. unfold sameSources. now splits.
      - now apply (tick_turn parseTime optionalCell) in L as [S1 _].
      - cbv in L. inversion L; subst. unfold sameSources. now splits. }
    destruct r as [h'|]; [|exact S1].
    eapply sameSources_trans; [exact S1|apply IH].
Qed.

(** [writeParquet] creates the file, and fills it when nothing fails. *)
Lemma writeParquet_files path evs w b w' :
  writeParquet optionalCell path evs w = (b, w') ->
  if b then files w' = files w \/ files w' = <[path := emptyTable]> (files w)
  else files w' = <[path := encodeBatch optionalCell evs]> (files w).
Proof.
  unfold writeParquet. intros H. mred.
  destruct (next (faults w) (pos (faults w))).
  { inversion H; subst. now left. }
  match type of H with context [if ?c then _ else _] => destruct c end.
  { inversion H; subst. now right. }
  match type of H with context [writeRows ?o ?e ?p ?w0] =>
    destruct (writeRows o e p w0) as [r w1] eqn:R end.
  apply writeRows_spec in R. destruct R as (_ & _ & _ & _ & F & _ & R). wsimpl.
  destruct r as [t|].
  2:{ inversion H; subst. right. exact F. }
  destruct (next (faults w1) (pos (faults w1))).
  { inversion H; subst. right. exact F. }
  inversion H; subst; wsimpl. rewrite F. now rewrite insert_insert_eq.
Qed.

(** X3.  The temporary file of a flush is removed on the success path
    only.  A flush that fails at [os.Stat], [os.Open] or the upload
    leaves the file it wrote, holding the whole batch, in the temporary
    directory; one that fails in [writeParquet] leaves at most the file
    it created; a flush of an empty buffer touches nothing. *)
Theorem failed_flush_leaves_temporary_file h w :
  match events h, fst (fst (flush optionalCell h w)) with
  | [], _ => flush optionalCell h w = (None, h, w)
  | _ :: _, None =>
      files (snd (flush optionalCell h w)) = delete (flushTmpFile w) (files w)
  | _ :: _, Some WriteParquetFailed =>
      files (snd (flush optionalCell h w)) = files w
      \/ files (snd (flush optionalCell h w))
         = <[flushTmpFile w := emptyTable]> (files w)
  | _ :: _, Some _ =>
      files (snd (flush optionalCell h w))
      = <[flushTmpFile w := encodeBatch optionalCell (events h)]> (files w)
  end.
Proof.
  unfold flush. destruct (events h) as [|ev evs] eqn:Ev; cbn [length Nat.eqb].
  { reflexivity. }
  mred.
  match goal with |- context [writeParquet ?o ?p ?e ?w0] =>
    destruct (writeParquet o p e w0) as [b w1] eqn:WP end.
  pose proof (writeParquet_spec _ _ _ _ _ _ WP) as (_ & _ & _ & _ & _ & E).
  apply writeParquet_files in WP. wsimpl.
  change (Join (tmpDir w) _) with (flushTmpFile w) in *.
  destruct b; [exact WP|].
  destruct (next (faults w1) (pos (faults w1))); [exact WP|].
  wsimpl.
  match goal with |- context [if ?c then None else _] => destruct c end.
  { exact WP. }
  rewrite E.
  match goal with |- context [if ?c then _ else _] => destruct c end.
  { exact WP. }
  wsimpl. rewrite WP. now rewrite delete_insert_eq.
Qed.

(** X4.  [ConsumeClaim] panics in [time.NewTicker], before it receives
    anything, exactly when the flush interval is not positive: for
    [FlushEverySecs] at most zero, and also for one so large that the
    interval in nanoseconds wraps around (9223372037 seconds is the
    least).  Between 1 and 9223372036 seconds the loop runs with that
    interval. *)
Theorem ticker_panics_on_non_positive_interval schedule h w :
  (- 9223372036 <= FlushEverySecs (cfg h) <= 0 ->
     ConsumeClaim parseTime optionalCell schedule h w = (Panicked, h, w))
  /\ (1 <= FlushEverySecs (cfg h) <= 9223372036 ->
        flushInterval (cfg h) = FlushEverySecs (cfg h) * Second
        /\ ConsumeClaim parseTime optionalCell schedule h w
           = consumeLoop parseTime optionalCell schedule h w)
  /\ (FlushEverySecs (cfg h) = 9223372037 ->
        ConsumeClaim parseTime optionalCell schedule h w = (Panicked, h, w)).
Proof.
  unfold ConsumeClaim, flushInterval, wrap64, Second. splits.
  - intros B.
    replace ((FlushEverySecs (cfg h) * 1000000000 + 2 ^ 63) mod 2 ^ 64)
      with (FlushEverySecs (cfg h) * 1000000000 + 2 ^ 63)
      by (symmetry; apply Z.mod_small; lia).
    destruct (_ <=? 0) eqn:T; [reflexivity|]. apply Z.leb_gt in T. lia.
  - intros B.
    replace ((FlushEverySecs (cfg h) * 1000000000 + 2 ^ 63) mod 2 ^ 64)
      with (FlushEverySecs (cfg h) * 1000000000 + 2 ^ 63)
      by (symmetry; apply Z.mod_small; lia).
    split; [lia|].
    destruct (_ <=? 0) eqn:T; [|reflexivity]. apply Z.leb_le in T. lia.
  - intros ->. reflexivity.
Qed.

(** What one turn does to the size of the buffer when nothing fails. *)
Lemma turn_below h s w r w' :
  noFaults w -> 1 <= FlushEveryN (cfg h) ->
  Z.of_nat (length (events h)) < FlushEveryN (cfg h) ->
  loopBody parseTime optionalCell h s w = (r, w') ->
  noFaults w'
  /\ cfg (afterTurn h r) = cfg h
  /\ Z.of_nat (length (events (afterTurn h r))) < FlushEveryN (cfg h).
Proof.
  intros NF N B L. destruct s as [msg| | |].
  - apply (message_turn parseTime optionalCell) in L as [S1 L].
    split; [eapply noFaults_sameSources; eassumption|].
    destruct (fst (parseKafkaJSON parseTime (Value msg) w)) as [e|ev].
    + destruct L as [-> _]. now split.
    + destruct (sizeTrigger (withEvent h ev)) eqn:T.
      * destruct L as (h' & wm & -> & _ & Sm & O).
        apply flush_outcome_noFaults in O as [-> _];
          [|eapply noFaults_sameSources; eassumption].
        cbn. split; [reflexivity|lia].
      * destruct L as [-> _]. cbn [afterTurn]. split; [reflexivity|].
        unfold sizeTrigger in T. cbn [withEvent cfg events] in *.
        rewrite Z.geb_leb in T. apply Z.leb_gt in T. lia.
  - cbv in L. inversion L; subst. now splits.
  - apply (tick_turn parseTime optionalCell) in L as [S1 L].
    split; [eapply noFaults_sameSources; eassumption|].
    destruct (timeTrigger h (next (clock w) (pos (clock w)))).
    + destruct L as (h' & wt & -> & _ & St & O).
      apply flush_outcome_noFaults in O as [-> _];
        [|eapply noFaults_sameSources; eassumption].
      cbn. split; [reflexivity|lia].
    + destruct L as [-> _]. now split.
  - cbv in L. inversion L; subst. now splits.
Qed.

(** X5.  While no external call fails and the threshold is at least
    one, the buffer stays below the threshold from one turn of the loop
    to the next: a run that starts with fewer than [FlushEveryN] rows
    buffered ends with fewer than [FlushEveryN]. *)
Theorem buffer_stays_below_threshold schedule : forall h w,
  noFaults w -> 1 <= FlushEveryN (cfg h) ->
  Z.of_nat (length (events h)) < FlushEveryN (cfg h) ->
  cfg (snd (fst (consumeLoop parseTime optionalCell schedule h w))) = cfg h
  /\ Z.of_nat (length (events (snd (fst (consumeLoop parseTime optionalCell schedule h w)))))
     < FlushEveryN (cfg h).
Proof.
  induction schedule as [|s rest IH]; intros h w NF N B.
  - cbn. now split.
  - cbn [consumeLoop]. cbv [bind].
    destruct (loopBody parseTime optionalCell h s w) as [r w'] eqn:L.
    destruct (turn_below _ _ _ _ _ NF N B L) as (NF' & C & B').
    destruct r as [h'|]; cbn [afterTurn] in *.
    + destruct (IH h' w' NF') as [C2 B2]; rewrite ?C; auto.
      rewrite C2, C. split; [reflexivity|]. now rewrite C in B2.
    + cbv [ret]. cbn. now split.
Qed.

(** X6.  A session (with a positive flush interval, and whose loop has
    returned) keeps every row whatever fails: the batches stored in the
    session, in order, followed by what the handler still buffers when
    [Cleanup] has returned, are the rows buffered at the start of the
    session followed by one row for each message received that
    [json.Unmarshal] accepts.  When no external call fails, [Cleanup]
    returns no error and nothing is left buffered. *)
Theorem session_keeps_every_row schedule h w :
  0 < flushInterval (cfg h) ->
  fst (fst (fst (session parseTime optionalCell schedule h w))) = Returned ->
  exists batches rows,
    storedTables (effects (snd (session parseTime optionalCell schedule h w)))
    = storedTables (effects w) ++ map (encodeBatch optionalCell) batches
    /\ concat batches
        ++ events (snd (fst (session parseTime optionalCell schedule h w)))
       = events h ++ rows
    /\ Forall2 (rowFrom parseTime) (List.filter accepted (received schedule)) rows
    /\ (noFaults w ->
        snd (fst (fst (session parseTime optionalCell schedule h w))) = None
        /\ events (snd (fst (session parseTime optionalCell schedule h w))) = []).
Proof.
  intros I. unfold session, Setup, ConsumeClaim. mred. cbn [cfg].
  destruct (flushInterval (cfg h) <=? 0) eqn:T; [apply Z.leb_le in T; lia|].
  match goal with |- context [consumeLoop _ _ _ ?hh ?ww] =>
    set (h1 := hh); set (w1 := ww) end.
  pose proof (consumeLoop_sameSources schedule h1 w1) as SS.
  destruct (consumeLoop_conserves schedule h1 w1) as (b & r & S1 & C1 & F1 & N1).
  destruct (consumeLoop parseTime optionalCell schedule h1 w1) as [[e h2] w2].
  cbn [fst snd] in *. destruct e; cbn [fst]; try discriminate. intros _.
  unfold Cleanup. cbv [bind ret].
  destruct (flush optionalCell h2 w2) as [[r2 h3] w3] eqn:FL. cbn [fst snd].
  apply flush_spec in FL.
  assert (storedTables (effects w1) = storedTables (effects w)) as S0.
  { subst w1. wsimpl. rewrite storedTables_app. cbn. now rewrite app_nil_r. }
  rewrite S0 in S1. subst h1. cbn [events] in C1.
  destruct FL as [E | e w3 _ E _ [n SF] | w3 Ne E _].
  - exists b, r. splits; auto.
  - exists b, r. splits; auto.
    + now rewrite E.
    + intros NF. exfalso.
      assert (noFaults w1) as NF1 by exact NF.
      pose proof (noFaults_sameSources _ _ SS NF1 n). congruence.
  - exists (b ++ [events h2]), r. splits; auto.
    + rewrite E, storedTables_app, S1, map_app, <- app_assoc. reflexivity.
    + rewrite concat_app. cbn [concat events]. rewrite !app_nil_r. exact C1.
Qed.

End Consumer.
End WriterRuns.

(** ** Every path through the [/ingest] handler *)
Module GatewayPaths.
Import Gateway GatewayProofs.

Section Handler.

Variable parseRFC3339 : string -> option Time.
Variable formatRFC3339 : Time -> option string.
Variable s : Server.
Variable env : string.

(** The three ways into the handler: another method, a body the decoder
    rejects, a body it accepts. *)
Lemma ingest_cases r w :
  (reqMethod r <> "POST"
   /\ ingest parseRFC3339 formatRFC3339 s env r w
      = (mkResponse StatusMethodNotAllowed MethodNotAllowed, w))
  \/ (exists e,
        reqMethod r = "POST" /\ Decode parseRFC3339 (reqBody r) = inl e
        /\ ingest parseRFC3339 formatRFC3339 s env r w
           = (mkResponse StatusBadRequest (InvalidJSON e), w))
  \/ (exists ev,
        reqMethod r = "POST" /\ Decode parseRFC3339 (reqBody r) = inr ev
        /\ ingest parseRFC3339 formatRFC3339 s env r w
           = served formatRFC3339 s env ev w).
Proof.
  destruct r as [m body]. cbn [reqMethod reqBody].
  destruct (String.eqb m "POST") eqn:M.
  - apply String.eqb_eq in M. subst m. right.
    destruct (Decode parseRFC3339 body) as [e|ev] eqn:D.
    + left. exists e. splits; auto.
      unfold ingest. cbn [reqMethod reqBody].
      change (negb (String.eqb "POST" "POST")) with false. cbv iota. now rewrite D.
    + right. exists ev. splits; auto. now apply ingest_served.
  - left. split; [now apply String.eqb_neq|].
    unfold ingest. cbn [reqMethod]. now rewrite M.
Qed.

Local Notation "'run'" := (ingest parseRFC3339 formatRFC3339 s env).

(** Closes the cases of a statement about the answer in which the
    status assumed is not the status at hand. *)
Ltac other_status :=
  intros;
  repeat match goal with
         | H : _ \/ _ |- _ => destruct H
         | H : exists _, _ |- _ => destruct H
         end;
  solve [discriminate | contradiction | auto 10 | cbn; auto 10].

(** X7.  The six answers of the handler, and what each says about the
    log: with 405, 400 or 500 nothing was handed to the producer; with
    502 one message was handed over and the broker refused it; with 202
    and also with 504 one message was handed over and the broker took
    it, so a caller answered 504 (request timeout) has its event in the
    log all the same.  A request with another method, or a body the
    decoder rejects, reads neither the clock nor the random source. *)
Theorem answers_and_the_log r w :
  In (status (fst (run r w)))
     [ StatusAccepted; StatusBadRequest; StatusMethodNotAllowed;
       StatusInternalServerError; StatusBadGateway; StatusGatewayTimeout ]
  /\ (status (fst (run r w)) = StatusMethodNotAllowed
      \/ status (fst (run r w)) = StatusBadRequest
      \/ status (fst (run r w)) = StatusInternalServerError ->
      sent (snd (run r w)) = sent w /\ broker (snd (run r w)) = broker w)
  /\ (status (fst (run r w)) = StatusBadGateway ->
      next (broker w) (pos (broker w)) = None
      /\ exists msg, sent (snd (run r w)) = sent w ++ [msg])
  /\ (status (fst (run r w)) = StatusAccepted
      \/ status (fst (run r w)) = StatusGatewayTimeout ->
      exists msg partition offset,
        sent (snd (run r w)) = sent w ++ [msg]
        /\ next (broker w) (pos (broker w)) = Some (partition, offset)
        /\ next (ctxDone w) (pos (ctxDone w))
           = Z.eqb (status (fst (run r w))) StatusGatewayTimeout)
  /\ (reqMethod r <> "POST" \/ (exists e, reply (fst (run r w)) = InvalidJSON e) ->
      snd (run r w) = w).
Proof.
  destruct (ingest_cases r w) as [[M ->]|[(e & M & D & ->)|(ev & M & D & ->)]];
    cbn [fst snd status reply].
  1,2: splits; other_status.
  unfold served.
  destruct (missingRequired ev).
  { cbn [fst snd status reply sent broker]. splits; other_status. }
  destruct (Marshal formatRFC3339 (canonical env ev w)) as [b|].
  2:{ cbn [fst snd status reply sent broker]. splits; other_status. }
  destruct (next (broker w) (pos (broker w))) as [[p o]|] eqn:B.
  2:{ cbn [fst snd status reply sent broker]. splits; try other_status.
      intros _. eauto. }
  destruct (next (ctxDone w) (pos (ctxDone w))) eqn:C;
    cbn [fst snd status reply sent broker]; splits; try other_status.
  all: intros _; do 3 eexists; splits; eauto.
Qed.

(** The canonical event of a payload that passes the check. *)
Lemma canonical_complete ev w :
  missingRequired ev = false ->
  ~ requiredBlank (canonical env ev w)
  /\ TraceID (canonical env ev w) <> ""
  /\ String.length (RequestID (canonical env ev w)) = 24%nat
  /\ allHex (RequestID (canonical env ev w)) = true
  /\ SchemaVer (canonical env ev w) = 1
  /\ Environment (canonical env ev w) = env
  /\ IngestedAt (canonical env ev w) = acceptedAt w
  /\ zoneOffset (Timestamp (canonical env ev w)) = 0
  /\ (instant (Timestamp (canonical env ev w))
      = if IsZero (Timestamp ev) then instant (acceptedAt w)
        else instant (Timestamp ev)).
Proof.
  intros M.
  destruct (canonical_server_fields env ev w) as (I & V & E & R).
  pose proof (canonical_trace env ev w) as T.
  splits; auto.
  - apply (missingRequired_false parseRFC3339 env). rewrite <- M.
    unfold missingRequired, canonical, filled. destruct ev. setters.
    destruct (IsZero _), (String.eqb _ _); reflexivity.
  - rewrite T. destruct (String.eqb (TraceID ev) "") eqn:Q.
    + intros X. apply (f_equal String.length) in X.
      rewrite GoLibFacts.EncodeToString_length in X. unfold traceBytes in X.
      rewrite length_map, length_seq in X. discriminate.
    + now apply String.eqb_neq.
  - rewrite R, GoLibFacts.EncodeToString_length. unfold requestBytes.
    now rewrite length_map, length_seq.
  - rewrite R. apply GoLibFacts.EncodeToString_allHex.
  - unfold canonical, filled, acceptedAt. destruct ev. setters.
    destruct (IsZero _), (String.eqb _ _); reflexivity.
  - unfold canonical, filled, acceptedAt. destruct ev. setters.
    destruct (IsZero _), (String.eqb _ _); reflexivity.
Qed.

(** X8.  Whatever the request, a message the handler hands to the
    producer is complete: its value is the JSON of an event whose four
    required strings are not blank and whose status code is not zero,
    with a non-empty trace id, a request id of 24 hexadecimal digits,
    schema version 1, the deployment's environment, and both instants
    in UTC; the message goes to the server's topic, keyed by the
    customer id, with the service and the environment as headers and
    the time of acceptance as its timestamp. *)
Theorem handed_message_is_complete r w msg :
  sent (snd (run r w)) = sent w ++ [msg] ->
  exists ev,
    Marshal formatRFC3339 ev = Some (msgValue msg)
    /\ msgTopic msg = topic s
    /\ msgKey msg = CustomerID ev
    /\ msgHeaders msg = [("service", Service ev); ("env", env)]
    /\ msgTimestamp msg = IngestedAt ev
    /\ ~ requiredBlank ev
    /\ TraceID ev <> ""
    /\ String.length (RequestID ev) = 24%nat
    /\ allHex (RequestID ev) = true
    /\ SchemaVer ev = 1
    /\ Environment ev = env
    /\ zoneOffset (Timestamp ev) = 0
    /\ zoneOffset (IngestedAt ev) = 0.
Proof.
  assert (forall l : list ProducerMessage, l = l ++ [msg] -> False) as Absurd.
  { intros l X. apply (f_equal (@length _)) in X. rewrite length_app in X.
    cbn in X. lia. }
  destruct (ingest_cases r w) as [[M ->]|[(e & M & D & ->)|(ev & M & D & ->)]];
    cbn [fst snd]; try (intros X; now apply Absurd in X).
  unfold served.
  destruct (missingRequired ev) eqn:MR; [intros X; now apply Absurd in X|].
  destruct (canonical_complete ev w MR) as (NB & T & L & H & V & E & I & Z1 & _).
  destruct (Marshal formatRFC3339 (canonical env ev w)) as [b|] eqn:Mb;
    [|intros X; now apply Absurd in X].
  assert (sent w ++ [published s env ev w b] = sent w ++ [msg] ->
          msg = published s env ev w b) as Same.
  { intros X. apply app_inv_head in X. now injection X. }
  intros X.
  assert (msg = published s env ev w b) as ->.
  { apply Same. rewrite <- X.
    destruct (next (broker w) (pos (broker w))) as [[p o]|]; [|reflexivity].
    destruct (next (ctxDone w) (pos (ctxDone w))); reflexivity. }
  exists (canonical env ev w). unfold published.
  cbn [msgValue msgTopic msgKey msgHeaders msgTimestamp].
  splits; auto. rewrite I. reflexivity.
Qed.

End Handler.
End GatewayPaths.

(** ** From the gateway to the writer *)
Module Pipeline.

Section Messages.

Variable formatRFC3339 : Gateway.Time -> option string.
Variable parseTime : string -> option Writer.Time.

Lemma decodeMembers_app {T} (fields : list (string * Json.Setter T)) strict ms1 :
  forall ms2 t,
    Json.decodeMembers fields strict (ms1 ++ ms2) t
    = match Json.decodeMembers fields strict ms1 t with
      | inl e => inl e
      | inr t' => Json.decodeMembers fields strict ms2 t'
      end.
Proof.
  induction ms1 as [|kv ms1 IH]; intros ms2 t; cbn [app Json.decodeMembers]; [reflexivity|].
  destruct (Json.lookupField fields (fst kv)) as [set|].
  - destruct (set (snd kv) t); [reflexivity|apply IH].
  - destruct strict; [reflexivity|apply IH].
Qed.

(** A map of strings, marshalled and stored into an empty map, is itself. *)
Lemma storeMap_marshalled field (m : gmap string string) :
  Json.storeMap field
    (Json.Obj (map (fun kv => (fst kv, Json.Str (snd kv))) (map_to_list m))) ∅
  = inr m.
Proof.
  unfold Json.storeMap.
  assert (forall (l : list (string * string)) (acc : gmap string string),
    fold_left
      (fun (acc : Json.Error + gmap string string) (kv : string * Json.Value) =>
         match acc with
         | inl e => inl e
         | inr m0 =>
             match snd kv with
             | Json.Str s => inr (<[fst kv := s]> m0)
             | Json.Null => inr (<[fst kv := EmptyString]> m0)
             | _ => inl (Json.UnmarshalTypeError field)
             end
         end)
      (map (fun kv => (fst kv, Json.Str (snd kv))) l) (inr acc)
    = inr (fold_left (fun m0 kv => <[fst kv := snd kv]> m0) l acc)) as F.
  { induction l as [|kv l IH]; intros acc; [reflexivity|]. cbn. apply IH. }
  rewrite F. f_equal.
  rewrite <- fold_left_rev_right.
  change (list_to_map (rev (map_to_list m)) = m).
  rewrite <- (list_to_map_to_list m) at 2.
  symmetry. apply list_to_map_proper.
  - apply NoDup_fst_map_to_list.
  - apply Permutation_rev.
Qed.

Ltac jstep :=
  cbn [Json.decodeMembers fst snd app];
  rewrite ?WriterProofs.lookup_request_id;
  cbn [Json.decodeMembers Json.lookupField find fst snd String.eqb Ascii.eqb Bool.eqb
       Writer.rawFields Json.field Json.storeString Json.storeInt app
       Writer.setRawTimestamp Writer.setRawService Writer.setRawCustomerID
       Writer.setRawEndpoint Writer.setRawMethod Writer.setRawStatusCode
       Writer.setRawLatencyMs Writer.setRawTraceID Writer.setRawError
       Writer.setRawEnvironment Writer.setRawSchemaVer Writer.setRawIngestedAt
       Writer.setRawAttributes Writer.zeroRaw
       Writer.rawTimestamp Writer.rawService Writer.rawCustomerID
       Writer.rawEndpoint Writer.rawMethod Writer.rawStatusCode
       Writer.rawLatencyMs Writer.rawTraceID Writer.rawError
       Writer.rawEnvironment Writer.rawSchemaVer Writer.rawIngestedAt
       Writer.rawAttributes].

(** What [json.Unmarshal] makes of an event the gateway marshalled. *)
Lemma Unmarshal_Marshal ev b :
  Gateway.Marshal formatRFC3339 ev = Some b ->
  if fits_int32 (Gateway.StatusCode ev) && fits_int32 (Gateway.LatencyMs ev)
     && fits_int32 (Gateway.SchemaVer ev)
  then
    exists ts ing,
      formatRFC3339 (Gateway.Timestamp ev) = Some ts
      /\ formatRFC3339 (Gateway.IngestedAt ev) = Some ing
      /\ Writer.Unmarshal (Json.WellFormed b)
         = inr (Writer.mkRaw ts (Gateway.Service ev) (Gateway.CustomerID ev)
                  (Gateway.Endpoint ev) (Gateway.Method ev) (Gateway.StatusCode ev)
                  (Gateway.LatencyMs ev) (Gateway.TraceID ev) (Gateway.Error ev)
                  (Gateway.Environment ev) (Gateway.SchemaVer ev) ing
                  (Gateway.Attributes ev))
  else exists e, Writer.Unmarshal (Json.WellFormed b) = inl e.
Proof.
  unfold Gateway.Marshal.
  destruct (formatRFC3339 (Gateway.Timestamp ev)) as [ts|]; [|discriminate].
  destruct (formatRFC3339 (Gateway.IngestedAt ev)) as [ing|]; [|discriminate].
  intros [= <-]. unfold Writer.Unmarshal, Json.decodeStruct. cbv beta iota.
  jstep.
  destruct (fits_int32 (Gateway.StatusCode ev)); [|cbn; eauto].
  destruct (fits_int32 (Gateway.LatencyMs ev)); [|cbn; eauto].
  cbn [andb]. jstep.
  destruct (String.eqb (Gateway.Error ev) "") eqn:E;
    destruct (decide (Gateway.Attributes ev = ∅)) as [A|A]; jstep;
    rewrite ?storeMap_marshalled; jstep.
  all: destruct (fits_int32 (Gateway.SchemaVer ev)); [|eauto].
  all: exists ts, ing; splits; auto.
  all: try (apply String.eqb_eq in E; rewrite E).
  all: try rewrite A.
  all: reflexivity.
Qed.

(** X9.  The writer reads what the gateway publishes: a marshalled
    event is decoded by [parseKafkaJSON] into the row with the same
    service, customer, endpoint, method, status code, latency, trace
    id, error, environment and schema version, and the two instants the
    RFC 3339 strings parse to, provided the three integers fit in 32
    bits.  When one does not (the gateway's fields are [int], the
    writer's [int32]) the writer rejects the gateway's own message. *)
Theorem writer_reads_gateway_message ev b w :
  Gateway.Marshal formatRFC3339 ev = Some b ->
  if fits_int32 (Gateway.StatusCode ev) && fits_int32 (Gateway.LatencyMs ev)
     && fits_int32 (Gateway.SchemaVer ev)
  then
    exists ts ing,
      formatRFC3339 (Gateway.Timestamp ev) = Some ts
      /\ formatRFC3339 (Gateway.IngestedAt ev) = Some ing
      /\ fst (Writer.parseKafkaJSON parseTime (Json.WellFormed b) w)
         = inr (Writer.mkEvent
                  (Writer.UnixMilli (Writer.instantOf parseTime ts w 0))
                  (Gateway.Service ev) (Gateway.CustomerID ev)
                  (Gateway.Endpoint ev) (Gateway.Method ev)
                  (Gateway.StatusCode ev) (Gateway.LatencyMs ev)
                  (Gateway.TraceID ev) (Gateway.Error ev)
                  (Gateway.Environment ev) (Gateway.SchemaVer ev)
                  (Writer.UnixMilli
                     (Writer.instantOf parseTime ing w
                        (Writer.clockReads parseTime ts))))
  else
    exists e,
      Writer.parseKafkaJSON parseTime (Json.WellFormed b) w = (inl e, w).
Proof.
  intros M. apply Unmarshal_Marshal in M.
  destruct (fits_int32 (Gateway.StatusCode ev) && fits_int32 (Gateway.LatencyMs ev)
            && fits_int32 (Gateway.SchemaVer ev)).
  - destruct M as (ts & ing & T & I & U). exists ts, ing. splits; auto.
    now rewrite (WriterProofs.parseKafkaJSON_row parseTime _ _ w U).
  - destruct M as [e U]. exists e.
    pose proof (WriterProofs.parseKafkaJSON_spec parseTime (Json.WellFormed b) w) as P.
    now rewrite U in P.
Qed.

End Messages.
End Pipeline.

(** ** The query API *)
Module QueryProofs.
Import Query.

(** *** The order of strings *)

Lemma ascii_compare_refl a : Ascii.compare a a = Eq.
Proof. unfold Ascii.compare. apply N.compare_refl. Qed.

Lemma compare_refl s : String.compare s s = Eq.
Proof. induction s as [|c s IH]; cbn; [reflexivity|]. now rewrite ascii_compare_refl. Qed.

Lemma ascii_compare_trans c a b d :
  Ascii.compare a b = c -> Ascii.compare b d = c -> Ascii.compare a d = c.
Proof.
  unfold Ascii.compare.
  destruct (N.compare_spec (N_of_ascii a) (N_of_ascii b)),
           (N.compare_spec (N_of_ascii b) (N_of_ascii d));
    intros <-; try discriminate; intros _.
  - apply N.compare_eq_iff. congruence.
  - apply N.compare_lt_iff. lia.
  - apply N.compare_gt_iff. lia.
Qed.

Lemma compare_lt_trans a : forall b c,
  String.compare a b = Lt -> String.compare b c = Lt -> String.compare a c = Lt.
Proof.
  induction a as [|x a IH]; intros [|y b] [|z c]; cbn; try congruence.
  destruct (Ascii.compare x y) eqn:XY; try discriminate;
    destruct (Ascii.compare y z) eqn:YZ; try discriminate; intros H1 H2.
  - apply Ascii.compare_eq_iff in XY, YZ. subst. rewrite ascii_compare_refl. eauto.
  - apply Ascii.compare_eq_iff in XY. subst. now rewrite YZ.
  - apply Ascii.compare_eq_iff in YZ. subst. now rewrite XY.
  - now rewrite (ascii_compare_trans _ _ _ _ XY YZ).
Qed.

#[global] Instance strLe_total : Total strLe.
Proof. intros a b. apply String.leb_total. Qed.

#[global] Instance strLe_trans : Transitive strLe.
Proof.
  unfold strLe, String.leb. intros a b c.
  destruct (String.compare a b) eqn:AB; try discriminate;
    destruct (String.compare b c) eqn:BC; try discriminate; intros _ _.
  - apply String.compare_eq_iff in AB, BC. subst. now rewrite compare_refl.
  - apply String.compare_eq_iff in AB. subst. now rewrite BC.
  - apply String.compare_eq_iff in BC. subst. now rewrite AB.
  - now rewrite (compare_lt_trans _ _ _ AB BC).
Qed.

#[global] Instance strLe_antisym : AntiSymm eq strLe.
Proof. intros a b. apply String.leb_antisym. Qed.

(** *** The listing *)

Section Listing.

Variable ListObjects : string -> string -> list ObjectInfo.

(** The loop over the channel stops at the first error, and otherwise
    appends the URLs of the [.parquet] keys. *)
Lemma collect_spec qe objs : forall acc,
  match collect qe objs acc with
  | inl e =>
      exists before key after,
        objs = before ++ mkObject key (Some e) :: after /\ Forall noError before
  | inr files => Forall noError objs /\ files = acc ++ parquetURLs qe objs
  end.
Proof.
  induction objs as [|[k [e|]] objs IH]; intros acc; cbn [collect Err Key].
  - split; [constructor|]. unfold parquetURLs. cbn. now rewrite app_nil_r.
  - exists [], k, objs. split; [reflexivity|constructor].
  - unfold parquetURLs. cbn [List.filter Key].
    destruct (HasSuffix k ".parquet").
    + specialize (IH (acc ++ [minioHTTP qe +:+ "/" +:+ bucket qe +:+ "/" +:+ k])).
      destruct (collect qe objs _) as [e|files].
      * destruct IH as (b & key & a & -> & F). exists (mkObject k None :: b), key, a.
        split; [reflexivity|]. constructor; [reflexivity|exact F].
      * destruct IH as [F ->]. split; [constructor; [reflexivity|exact F]|].
        cbn [map Key]. now rewrite <- app_assoc.
    + specialize (IH acc). destruct (collect qe objs acc) as [e|files].
      * destruct IH as (b & key & a & -> & F). exists (mkObject k None :: b), key, a.
        split; [reflexivity|]. constructor; [reflexivity|exact F].
      * destruct IH as [F ->]. split; [constructor; [reflexivity|exact F]|reflexivity].
Qed.

(** What [parquetFileList] returns. *)
Lemma parquetFileList_spec qe limit :
  match parquetFileList ListObjects qe limit with
  | inl e =>
      exists before key after,
        ListObjects (bucket qe) (prefix qe)
        = before ++ mkObject key (Some e) :: after
        /\ Forall noError before
  | inr files =>
      Forall noError (ListObjects (bucket qe) (prefix qe))
      /\ StronglySorted strLe files
      /\ (0 < limit ->
          Z.of_nat (length files)
          = Z.min limit
              (Z.of_nat (length (parquetURLs qe (ListObjects (bucket qe) (prefix qe))))))
      /\ exists dropped,
           dropped ++ files
           ≡ₚ parquetURLs qe (ListObjects (bucket qe) (prefix qe))
           /\ Forall (fun d => Forall (strLe d) files) dropped
           /\ (limit <= 0
               \/ Z.of_nat (length (parquetURLs qe (ListObjects (bucket qe) (prefix qe))))
                  <= limit ->
               dropped = [])
  end.
Proof.
  unfold parquetFileList.
  pose proof (collect_spec qe (ListObjects (bucket qe) (prefix qe)) []) as C.
  destruct (collect qe _ []) as [e|all]; [exact C|].
  destruct C as [F ->]. cbn [app].
  set (urls := parquetURLs qe (ListObjects (bucket qe) (prefix qe))).
  pose proof (StronglySorted_merge_sort strLe urls) as S.
  pose proof (merge_sort_Permutation strLe urls) as P.
  fold (sortStrings urls) in S, P.
  assert (length (sortStrings urls) = length urls) as L by now rewrite P.
  destruct ((0 <? limit) && (limit <? Z.of_nat (length (sortStrings urls)))) eqn:T.
  - apply andb_prop in T as [T1 T2]. apply Z.ltb_lt in T1, T2.
    set (n := (length (sortStrings urls) - Z.to_nat limit)%nat).
    rewrite <- (take_drop n (sortStrings urls)) in S, P.
    splits; auto.
    + now apply StronglySorted_app_1_r in S.
    + intros _. rewrite length_drop. fold urls. lia.
    + exists (take n (sortStrings urls)). splits; auto.
      * apply Forall_forall. intros d D. apply Forall_forall. intros f Ff.
        eapply StronglySorted_app_1_elem_of; eauto.
      * rewrite <- L. lia.
  - splits; auto.
    + intros LP. fold urls. apply andb_false_iff in T as [T|T].
      * apply Z.ltb_ge in T. lia.
      * apply Z.ltb_ge in T. lia.
    + exists []. splits; auto.
Qed.

(** X10.  [parquetFileList] fails exactly when the listing reports an
    error, with the first error reported, whatever was listed before
    it.  Otherwise it returns URLs of objects whose key ends in
    [.parquet], in ascending byte order, the greatest [limit] of them for
    a positive [limit]: the files returned together with the ones left
    out are all such URLs of the listing, every file left out sorts
    before every file returned, and none is left out when [limit] is
    not positive or not exceeded. *)
Theorem parquetFileList_result qe limit :
  match parquetFileList ListObjects qe limit with
  | inl e =>
      exists before key after,
        ListObjects (bucket qe) (prefix qe)
        = before ++ mkObject key (Some e) :: after
        /\ Forall noError before
  | inr files =>
      Forall noError (ListObjects (bucket qe) (prefix qe))
      /\ StronglySorted strLe files
      /\ (0 < limit ->
          Z.of_nat (length files)
          = Z.min limit
              (Z.of_nat (length (parquetURLs qe (ListObjects (bucket qe) (prefix qe))))))
      /\ exists dropped,
           dropped ++ files
           ≡ₚ parquetURLs qe (ListObjects (bucket qe) (prefix qe))
           /\ Forall (fun d => Forall (strLe d) files) dropped
           /\ (limit <= 0
               \/ Z.of_nat (length (parquetURLs qe (ListObjects (bucket qe) (prefix qe))))
                  <= limit ->
               dropped = [])
  end.
Proof. apply parquetFileList_spec. Qed.

End Listing.

End QueryProofs.

Module QueryLiteral.
Import Query TextFacts.

(** The escaped text of a constant reads back up to its closing quote. *)
Lemma readConstant_escaped f : forall rest,
  (forall r, rest <> String "'" r) ->
  readConstant (ReplaceAll f "'" "''" +:+ String "'" rest) = Some (f, rest).
Proof.
  induction f as [|c f IH]; intros rest NQ.
  - cbn [ReplaceAll]. rewrite append_empty. cbn [readConstant].
    change (Ascii.eqb "'" "'") with true. cbv iota.
    destruct rest as [|c' rest']; [reflexivity|].
    destruct (Ascii.eqb c' "'") eqn:Q; [|reflexivity].
    apply Ascii.eqb_eq in Q. subst. now destruct (NQ rest').
  - cbn [ReplaceAll]. destruct (Ascii.eqb c "'") eqn:Q.
    + apply Ascii.eqb_eq in Q. subst c.
      rewrite append_assoc, !append_cons, append_empty.
      cbn [readConstant]. change (Ascii.eqb "'" "'") with true. cbv iota.
      now rewrite IH.
    + rewrite append_cons. cbn [readConstant]. rewrite Q. now rewrite IH.
Qed.

Lemma readConstants_joined files : forall fuel,
  files <> [] -> (length files <= fuel)%nat ->
  readConstants fuel (Join (map quoted files) "," +:+ "]") = Some files.
Proof.
  induction files as [|f files IH]; intros fuel NE L; [contradiction|].
  destruct fuel as [|fuel]; [cbn in L; lia|].
  destruct files as [|g files].
  - cbn [map Join]. unfold quoted.
    rewrite !append_cons, append_empty, append_assoc, append_cons, append_empty.
    cbn [readConstants]. change (Ascii.eqb "'" "'") with true. cbv iota.
    rewrite readConstant_escaped by discriminate. reflexivity.
  - change (Join (map quoted (f :: g :: files)) ",")
      with (quoted f +:+ "," +:+ Join (map quoted (g :: files)) ",").
    unfold quoted at 1.
    rewrite !append_cons, append_empty, !append_assoc, !append_cons, !append_empty.
    cbn [readConstants]. change (Ascii.eqb "'" "'") with true. cbv iota.
    rewrite readConstant_escaped by discriminate.
    change (Ascii.eqb "," ",") with true. cbv iota.
    rewrite IH; [reflexivity|discriminate|]. cbn [length] in *. clear - L. lia.
Qed.

Lemma length_joined files :
  (length files <= String.length (Join (map quoted files) "," +:+ "]"))%nat.
Proof.
  induction files as [|f files IH]; [cbn; lia|].
  destruct files as [|g files].
  - cbn [map Join length]. rewrite GoLibFacts.length_append. cbn. lia.
  - change (Join (map quoted (f :: g :: files)) ",")
      with (quoted f +:+ "," +:+ Join (map quoted (g :: files)) ",").
    rewrite !append_assoc, GoLibFacts.length_append, (GoLibFacts.length_append ",").
    cbn [String.length length] in IH |- *. lia.
Qed.

(** X11.  The list literal [duckdbFileArrayLiteral] writes reads back
    as the files it was given, in order, whatever bytes the names
    hold: a quote in a name is doubled, so it neither ends the constant
    nor starts another. *)
Theorem file_list_literal_reads_back files :
  readListLiteral (duckdbFileArrayLiteral files) = Some files.
Proof.
  unfold duckdbFileArrayLiteral. fold quoted.
  rewrite append_cons, append_empty. cbn [readListLiteral].
  change (Ascii.eqb "[" "[") with true. cbv iota.
  destruct files as [|f files]; [reflexivity|].
  assert (String.eqb (Join (map quoted (f :: files)) "," +:+ "]") "]" = false) as ->.
  { destruct files; cbn [map Join]; unfold quoted; rewrite !append_cons; reflexivity. }
  apply readConstants_joined; [discriminate|apply length_joined].
Qed.

End QueryLiteral.

(** ** The keys of the writer under the listing of the query API *)
Module KeyOrder.
Import Writer Query TextFacts QueryProofs QueryLiteral.

Lemma compare_app_prefix p a b :
  String.compare (p +:+ a) (p +:+ b) = String.compare a b.
Proof.
  induction p as [|c p IH]; [reflexivity|].
  rewrite !append_cons. cbn [String.compare]. now rewrite ascii_compare_refl.
Qed.

(** Strings that start with parts of one length compare by the parts. *)
Lemma compare_app_lt a1 : forall a2 b1 b2,
  String.length a1 = String.length a2 ->
  String.compare a1 a2 = Lt ->
  String.compare (a1 +:+ b1) (a2 +:+ b2) = Lt.
Proof.
  induction a1 as [|x a1 IH]; intros [|y a2] b1 b2 L C; try discriminate.
  rewrite !append_cons. cbn [String.compare] in *.
  destruct (Ascii.compare x y); try discriminate; auto.
Qed.

(** A number and its successor, padded to one width, are in order. *)
Lemma fmt_0d_succ (width : nat) (bound z : Z) :
  forallb
    (fun n =>
       match String.compare (fmt_0d width (Z.of_nat n)) (fmt_0d width (Z.of_nat n + 1)) with
       | Lt => true
       | _ => false
       end)
    (seq 0 (Z.to_nat bound)) = true ->
  0 <= z < bound ->
  String.compare (fmt_0d width z) (fmt_0d width (z + 1)) = Lt.
Proof.
  intros A H. rewrite forallb_forall in A.
  specialize (A (Z.to_nat z)). rewrite Z2Nat.id in A by lia.
  destruct (String.compare _ _); try reflexivity; discriminate A; apply in_seq; lia.
Qed.

Lemma fmt_0d_lt (width : nat) (bound : Z) :
  (forall z, 0 <= z < bound ->
     String.compare (fmt_0d width z) (fmt_0d width (z + 1)) = Lt) ->
  forall x y, 0 <= x -> x < y -> y <= bound ->
    String.compare (fmt_0d width x) (fmt_0d width y) = Lt.
Proof.
  intros Step x y X L B.
  replace y with (x + 1 + Z.of_nat (Z.to_nat (y - x - 1))) by lia.
  assert (x + 1 + Z.of_nat (Z.to_nat (y - x - 1)) <= bound) as B' by lia.
  induction (Z.to_nat (y - x - 1)) as [|k IH].
  - rewrite Z.add_0_r. apply Step. lia.
  - eapply compare_lt_trans; [apply IH; lia|].
    replace (x + 1 + Z.of_nat (S k)) with (x + 1 + Z.of_nat k + 1) by lia.
    apply Step. lia.
Qed.

Lemma fmt4_lt x y : 0 <= x -> x < y -> y <= 9999 ->
  String.compare (fmt_0d 4 x) (fmt_0d 4 y) = Lt.
Proof.
  apply (fmt_0d_lt 4 9999). intros z Z.
  apply (fmt_0d_succ 4 9999); [vm_compute; reflexivity|exact Z].
Qed.

Lemma fmt2_lt x y : 0 <= x -> x < y -> y <= 99 ->
  String.compare (fmt_0d 2 x) (fmt_0d 2 y) = Lt.
Proof.
  apply (fmt_0d_lt 2 99). intros z Z.
  apply (fmt_0d_succ 2 99); [vm_compute; reflexivity|exact Z].
Qed.

Lemma length4 z : 0 <= z <= 9999 -> String.length (fmt_0d 4 z) = 4%nat.
Proof. intros H. now apply GoLibFacts.padded_spec, GoLibFacts.padded4. Qed.

Lemma length2 z : 0 <= z <= 99 -> String.length (fmt_0d 2 z) = 2%nat.
Proof. intros H. now apply GoLibFacts.padded_spec, GoLibFacts.padded2. Qed.

(** The keys of flushes in different hours compare as the hours do. *)
Lemma objectKey_lt t1 t2 s1 s2 :
  civil t1 -> civil t2 -> hourBefore t1 t2 ->
  String.compare (objectKey t1 s1) (objectKey t2 s2) = Lt.
Proof.
  intros (Y1 & M1 & D1 & H1) (Y2 & M2 & D2 & H2) B. unfold objectKey.
  rewrite compare_app_prefix.
  destruct B as [B|[-> B]].
  { apply compare_app_lt; [rewrite !length4; auto|apply fmt4_lt; lia]. }
  rewrite !compare_app_prefix.
  destruct B as [B|[-> B]].
  { apply compare_app_lt; [rewrite !length2; auto; lia|apply fmt2_lt; lia]. }
  rewrite !compare_app_prefix.
  destruct B as [B|[-> B]].
  { apply compare_app_lt; [rewrite !length2; auto; lia|apply fmt2_lt; lia]. }
  rewrite !compare_app_prefix.
  apply compare_app_lt; [rewrite !length2; auto; lia|apply fmt2_lt; lia].
Qed.

(** X12.  The object keys of the writer sort by time: for two flushes
    in different hours (by the date and hour of the clock, years 0 to
    9999) the key of the earlier one comes first in byte order, whatever
    the random suffixes, and so does its URL in the list of files of
    the query API. *)
Theorem object_keys_sort_by_hour t1 t2 s1 s2 qe :
  civil t1 -> civil t2 -> hourBefore t1 t2 ->
  String.compare (objectKey t1 s1) (objectKey t2 s2) = Lt
  /\ String.compare (fileURL qe (objectKey t1 s1)) (fileURL qe (objectKey t2 s2)) = Lt.
Proof.
  intros C1 C2 B. split; [now apply objectKey_lt|].
  unfold fileURL. rewrite !compare_app_prefix. now apply objectKey_lt.
Qed.

Lemma substring_all b : substring 0 (String.length b) b = b.
Proof. induction b as [|c b IH]; [reflexivity|]. cbn. now rewrite IH. Qed.

Lemma substring_suffix a b :
  substring (String.length a) (String.length b) (a +:+ b) = b.
Proof.
  induction a as [|c a IH]; [apply substring_all|].
  rewrite append_cons. cbn [String.length substring]. exact IH.
Qed.

Lemma HasSuffix_app a b : HasSuffix (a +:+ b) b = true.
Proof.
  unfold HasSuffix. rewrite GoLibFacts.length_append.
  apply andb_true_intro. split; [apply Nat.leb_le; lia|].
  replace (String.length a + String.length b - String.length b)%nat
    with (String.length a) by lia.
  rewrite substring_suffix. apply String.eqb_refl.
Qed.

(** The keys of the writer end in [.parquet]. *)
Lemma objectKey_suffix t sfx : HasSuffix (objectKey t sfx) ".parquet" = true.
Proof.
  unfold objectKey. rewrite <- !append_assoc. apply HasSuffix_app.
Qed.

Section Listing.

Variable ListObjects : string -> string -> list ObjectInfo.

(** The URL of a listed key of the writer is among the [.parquet] URLs. *)
Lemma objectKey_url qe t sfx :
  In (mkObject (objectKey t sfx) None) (ListObjects (bucket qe) (prefix qe)) ->
  In (fileURL qe (objectKey t sfx))
     (parquetURLs qe (ListObjects (bucket qe) (prefix qe))).
Proof.
  intros I. unfold parquetURLs.
  apply (in_map (fun o => fileURL qe (Key o)) _ (mkObject (objectKey t sfx) None)).
  apply filter_In. split; [exact I|apply objectKey_suffix].
Qed.

(** X13.  What the writer stores, the query API reads: a key [flush]
    builds lies under the prefix the engine lists and ends in
    [.parquet], so when the listing shows the object (and reports no
    error) its URL is among the files of [parquetFileList], unless the
    limit leaves it out. *)
Theorem stored_objects_are_listed qe limit t sfx files :
  In (mkObject (objectKey t sfx) None) (ListObjects (bucket qe) (prefix qe)) ->
  parquetFileList ListObjects qe limit = inr files ->
  limit <= 0
  \/ Z.of_nat (length (parquetURLs qe (ListObjects (bucket qe) (prefix qe)))) <= limit ->
  In (fileURL qe (objectKey t sfx)) files
  /\ (exists rest, isPrefix (prefix mainEngine) (objectKey t sfx) = Some rest)
  /\ HasSuffix (objectKey t sfx) ".parquet" = true.
Proof.
  intros I P L. pose proof (parquetFileList_spec ListObjects qe limit) as S.
  rewrite P in S. destruct S as (_ & _ & _ & dropped & Perm & _ & D).
  rewrite (D L) in Perm. cbn [app] in Perm. splits.
  - apply objectKey_url in I. apply list_elem_of_In.
    rewrite Perm. now apply list_elem_of_In.
  - eexists. reflexivity.
  - apply objectKey_suffix.
Qed.

(** X14.  The limit of [parquetFileList] leaves out the oldest files:
    when the URL of an object the writer stored in one hour is among the
    files returned, so is the URL of every listed object the writer
    stored in a later hour. *)
Theorem newer_files_are_kept qe limit files t1 s1 t2 s2 :
  parquetFileList ListObjects qe limit = inr files ->
  civil t1 -> civil t2 -> hourBefore t1 t2 ->
  In (fileURL qe (objectKey t1 s1)) files ->
  In (mkObject (objectKey t2 s2) None) (ListObjects (bucket qe) (prefix qe)) ->
  In (fileURL qe (objectKey t2 s2)) files.
Proof.
  intros P C1 C2 B K I. pose proof (parquetFileList_spec ListObjects qe limit) as S.
  rewrite P in S. destruct S as (_ & _ & _ & dropped & Perm & Le & _).
  apply objectKey_url in I. apply list_elem_of_In in I. rewrite <- Perm in I.
  apply elem_of_app in I as [I|I]; [|now apply list_elem_of_In].
  exfalso. rewrite Forall_forall in Le. specialize (Le _ I).
  rewrite Forall_forall in Le. apply list_elem_of_In in K. specialize (Le _ K).
  unfold strLe, String.leb in Le.
  rewrite String.compare_antisym in Le.
  unfold fileURL in Le. rewrite !compare_app_prefix in Le.
  now rewrite (objectKey_lt _ _ s1 s2 C1 C2 B) in Le.
Qed.

End Listing.

End KeyOrder.

Module QueryHandlers.
Import Query QueryProofs QueryLiteral.

Section Handlers.

Variable ListObjects : string -> string -> list ObjectInfo.
Variable float64 : Type.
Variable Time : Type.
Variable formatUTC : Time -> string.

(** The bound of two hundred files. *)
Lemma at_most_200 qe files :
  parquetFileList ListObjects qe 200 = inr files -> (length files <= 200)%nat.
Proof.
  intros P. pose proof (parquetFileList_spec ListObjects qe 200) as S.
  rewrite P in S. destruct S as (_ & _ & L & _). lia.
Qed.

Lemma listHandler_asks {Row} (sql : string -> string) (db : string -> QueryResult Row) qe :
  asksAtMostOnce (listHandler ListObjects sql db qe) sql EmptyList
    (parquetFileList ListObjects qe 200).
Proof.
  intros qs. unfold listHandler.
  destruct (parquetFileList ListObjects qe 200) as [e|[|f files]] eqn:P;
    [reflexivity|reflexivity|].
  split; [|now apply (at_most_200 qe)].
  cbn [length Nat.eqb]. cbv [bind runQuery].
  destruct (db _) as [e|rows]; [reflexivity|].
  destruct (scanRows rows []); reflexivity.
Qed.

(** X15.  Each of the five endpoints runs at most one statement on the
    database for a request, and none when the listing fails (the answer
    is 500 with the listing's error) or shows no [.parquet] object (the
    answer is 200 with an empty list; for the summary, zero rows and an
    empty [latest_ingested]).  The one statement is the endpoint's own,
    over the list literal of the files, at most two hundred. *)
Theorem endpoints_ask_at_most_once qe dbE dbP dbT dbA dbS :
  asksAtMostOnce (handleErrorRate ListObjects float64 dbE qe) errorRateSQL
    EmptyList (parquetFileList ListObjects qe 200)
  /\ asksAtMostOnce (handleP95Latency ListObjects float64 dbP qe) p95LatencySQL
       EmptyList (parquetFileList ListObjects qe 200)
  /\ asksAtMostOnce (handleTopImpactedCustomers ListObjects dbT qe)
       topImpactedCustomersSQL EmptyList (parquetFileList ListObjects qe 200)
  /\ asksAtMostOnce (handleCustomerAvailability ListObjects float64 dbA qe)
       customerAvailabilitySQL EmptyList (parquetFileList ListObjects qe 200)
  /\ asksAtMostOnce (handleSummary ListObjects Time formatUTC dbS qe) summarySQL
       (SummaryBody 0 "") (parquetFileList ListObjects qe 200)
  /\ (parquetFileList ListObjects qe 200 = inr []
      <-> Forall noError (ListObjects (bucket qe) (prefix qe))
          /\ parquetURLs qe (ListObjects (bucket qe) (prefix qe)) = []).
Proof.
  splits; try apply listHandler_asks.
  - intros qs. unfold handleSummary.
    destruct (parquetFileList ListObjects qe 200) as [e|[|f files]] eqn:P;
      [reflexivity|reflexivity|].
    split; [|now apply (at_most_200 qe)].
    cbn [length Nat.eqb]. cbv [bind runQuery].
    destruct (dbS _) as [e|[total t]]; reflexivity.
  - pose proof (parquetFileList_spec ListObjects qe 200) as S. split.
    + intros P. rewrite P in S. destruct S as (F & _ & L & _).
      split; [exact F|]. specialize (L ltac:(lia)). cbn [length] in L.
      destruct (parquetURLs qe _); [reflexivity|cbn [length] in L; lia].
    + intros [F U].
      destruct (parquetFileList ListObjects qe 200) as [e|files].
      * destruct S as (b & k & a & E & _). rewrite E in F.
        apply Forall_app in F as [_ F]. inversion F as [|? ? N _]. discriminate N.
      * destruct S as (_ & _ & L & _). specialize (L ltac:(lia)).
        rewrite U in L. cbn [length] in L. destruct files; [reflexivity|cbn [length] in L; lia].
Qed.

End Handlers.
End QueryHandlers.

(** ** Integers and the environment *)
Module EnvFacts.
Import TextFacts.

Lemma hasPlain_app a b : hasPlain (a +:+ b) = hasPlain a || hasPlain b.
Proof.
  induction a as [|c a IH]; [reflexivity|].
  rewrite append_cons. cbn [hasPlain]. now rewrite IH, orb_assoc.
Qed.

Lemma isPrefix_Some p : forall s t, isPrefix p s = Some t -> s = p +:+ t.
Proof.
  induction p as [|a p IH]; intros s t H.
  - cbn in H. now injection H as ->.
  - destruct s as [|b s]; [discriminate|]. cbn [isPrefix] in H.
    destruct (Ascii.eqb a b) eqn:E; [|discriminate].
    apply Ascii.eqb_eq in E. subst. rewrite append_cons. f_equal. now apply IH.
Qed.

(** Removing a white-space rune removes no plain byte. *)
Lemma dropSpace_hasPlain runes s s' :
  forallb (fun r => negb (hasPlain r)) runes = true ->
  dropSpace runes s = Some s' -> hasPlain s' = hasPlain s.
Proof.
  intros R. destruct s as [|c s]; [discriminate|]. cbn [dropSpace].
  destruct (isSpaceASCII c) eqn:Sp.
  - intros [= <-]. cbn [hasPlain]. unfold plain. rewrite Sp. cbn.
    now rewrite andb_false_r.
  - induction runes as [|r runes IH]; [discriminate|]. cbn [fold_right].
    cbn [forallb] in R. apply andb_prop in R as [Rr R].
    destruct (isPrefix r (String c s)) as [t|] eqn:P.
    + intros [= <-]. apply isPrefix_Some in P. rewrite P, hasPlain_app.
      apply negb_true_iff in Rr. now rewrite Rr.
    + now apply IH.
Qed.

Lemma trimLeftWith_hasPlain runes fuel : forall s,
  forallb (fun r => negb (hasPlain r)) runes = true ->
  hasPlain (trimLeftWith runes fuel s) = hasPlain s.
Proof.
  induction fuel as [|fuel IH]; intros s R; [reflexivity|]. cbn [trimLeftWith].
  destruct (dropSpace runes s) as [s'|] eqn:D; [|reflexivity].
  rewrite IH by exact R. eapply dropSpace_hasPlain; eassumption.
Qed.

Lemma hasPlain_rev_app s : forall acc,
  hasPlain (String.rev_app s acc) = hasPlain s || hasPlain acc.
Proof.
  induction s as [|c s IH]; intros acc; [reflexivity|].
  cbn [String.rev_app hasPlain]. rewrite IH. cbn [hasPlain].
  destruct (plain c), (hasPlain s), (hasPlain acc); reflexivity.
Qed.

Lemma hasPlain_rev s : hasPlain (String.rev s) = hasPlain s.
Proof. unfold String.rev. rewrite hasPlain_rev_app. cbn. now rewrite orb_false_r. Qed.

(** [strings.TrimSpace] removes no plain byte: a string that holds one is
    not blank. *)
Lemma TrimSpace_hasPlain s : hasPlain (TrimSpace s) = hasPlain s.
Proof.
  unfold TrimSpace, TrimRightSpace, TrimLeftSpace.
  rewrite hasPlain_rev.
  rewrite trimLeftWith_hasPlain by (vm_compute; reflexivity).
  rewrite hasPlain_rev.
  now rewrite trimLeftWith_hasPlain by (vm_compute; reflexivity).
Qed.

Lemma TrimSpace_nonblank s : hasPlain s = true -> String.eqb (TrimSpace s) "" = false.
Proof.
  intros H. rewrite <- TrimSpace_hasPlain in H.
  destruct (TrimSpace s); [discriminate|reflexivity].
Qed.

(** *** The decimal writing *)

Lemma string_of_uint_digits d : allDigits (NilEmpty.string_of_uint d) = true.
Proof. induction d; cbn; auto. Qed.

Lemma digits_allDigits n : allDigits (digits n) = true.
Proof. apply string_of_uint_digits. Qed.

Lemma digitsValue_digits n : digitsValue (digits n) = Some n.
Proof.
  unfold digitsValue, digits. rewrite NilEmpty.usu. cbn.
  now rewrite DecimalN.Unsigned.of_to.
Qed.

Lemma digits_nonempty n : digits n <> EmptyString.
Proof.
  intros E. pose proof (digitsValue_digits n) as V. rewrite E in V.
  cbn in V. injection V as <-. discriminate E.
Qed.

Ltac each_byte c := destruct c as [[] [] [] [] [] [] [] []].

Lemma digit_plain c : isDigit c = true -> plain c = true.
Proof. each_byte c; intros H; try discriminate H; reflexivity. Qed.

Lemma digit_no_sign c s : isDigit c = true -> splitSign (String c s) = (false, String c s).
Proof. each_byte c; intros H; try discriminate H; reflexivity. Qed.

Lemma plain_stops_trim c s : plain c = true -> dropSpace spaceRunes (String c s) = None.
Proof. each_byte c; intros H; try discriminate H; reflexivity. Qed.

Lemma plain_no_newline c : plain c = true -> (byte_of c =? 10)%N = false.
Proof. each_byte c; intros H; try discriminate H; reflexivity. Qed.

Lemma not_digit_no_value c d : isDigit c = false -> uint_of_char c d = None.
Proof. each_byte c; intros H; try discriminate H; destruct d; reflexivity. Qed.

Lemma digits_first n : exists c s, digits n = String c s /\ isDigit c = true.
Proof.
  pose proof (digits_allDigits n) as A. pose proof (digits_nonempty n) as N.
  destruct (digits n) as [|c s]; [contradiction|]. exists c, s. split; [reflexivity|].
  cbn [allDigits] in A. apply andb_prop in A as [A _]. exact A.
Qed.

Lemma parseDecimal_digits (neg : bool) n :
  fits_int64 (if neg then - Z.of_N n else Z.of_N n) = true ->
  parseDecimal neg (digits n) = Some (if neg then - Z.of_N n else Z.of_N n).
Proof.
  intros F. unfold parseDecimal. rewrite digitsValue_digits, F.
  destruct (digits_first n) as (c & s & -> & _). reflexivity.
Qed.

Lemma Itoa_hasPlain z : hasPlain (Itoa z) = true.
Proof.
  unfold Itoa. destruct (z <? 0); [reflexivity|].
  destruct (digits_first (Z.to_N z)) as (c & s & -> & D).
  cbn [hasPlain]. now rewrite digit_plain.
Qed.

(** [strconv.Atoi] reads back what [strconv.Itoa] writes. *)
Lemma Atoi_Itoa z : fits_int64 z = true -> Atoi (Itoa z) = Some z.
Proof.
  intros F. unfold Itoa, Atoi. destruct (z <? 0) eqn:N.
  - apply Z.ltb_lt in N. cbn [splitSign]. change (Ascii.eqb "-" "-") with true. cbv iota.
    rewrite (parseDecimal_digits true); rewrite Z2N.id by lia; rewrite Z.opp_involutive;
      [reflexivity|exact F].
  - apply Z.ltb_ge in N.
    destruct (digits_first (Z.to_N z)) as (c & s & E & D).
    rewrite E, (digit_no_sign _ _ D), <- E.
    rewrite (parseDecimal_digits false); rewrite Z2N.id by lia; [reflexivity|exact F].
Qed.

Lemma digitsValue_garbage ds c rest :
  isDigit c = false -> digitsValue (ds +:+ String c rest) = None.
Proof.
  intros D. unfold digitsValue.
  assert (NilEmpty.uint_of_string (ds +:+ String c rest) = None) as ->; [|reflexivity].
  induction ds as [|x ds IH].
  - cbn. now apply not_digit_no_value.
  - rewrite append_cons. cbn [NilEmpty.uint_of_string]. now rewrite IH.
Qed.

Lemma parseDecimal_garbage neg ds c rest :
  isDigit c = false -> parseDecimal neg (ds +:+ String c rest) = None.
Proof.
  intros D. unfold parseDecimal. rewrite (digitsValue_garbage _ _ _ D).
  destruct (ds +:+ String c rest); reflexivity.
Qed.

Lemma leadingDigits_none rest :
  leadingDigits rest = EmptyString ->
  rest = EmptyString \/ exists c r, rest = String c r /\ isDigit c = false.
Proof.
  destruct rest as [|c r]; [now left|]. cbn [leadingDigits]. fold (isDigit c).
  destruct (isDigit c) eqn:D; [discriminate|]. intros _. right. now exists c, r.
Qed.

(** [strconv.Atoi] accepts nothing after the digits, and no space
    before them. *)
Lemma Atoi_trailing z rest :
  rest <> EmptyString -> leadingDigits rest = EmptyString ->
  Atoi (Itoa z +:+ rest) = None.
Proof.
  intros NE L. apply leadingDigits_none in L as [->|(c & r & -> & D)]; [contradiction|].
  unfold Itoa, Atoi. destruct (z <? 0).
  - rewrite append_cons. cbn [splitSign]. change (Ascii.eqb "-" "-") with true. cbv iota.
    now apply parseDecimal_garbage.
  - destruct (digits_first (Z.to_N z)) as (x & s & E & Dx).
    rewrite E, append_cons, (digit_no_sign _ _ Dx), <- append_cons, <- E.
    now apply parseDecimal_garbage.
Qed.

Lemma Atoi_leading_space s : Atoi (String " " s) = None.
Proof.
  unfold Atoi. cbn [splitSign]. change (Ascii.eqb " " "-") with false.
  change (Ascii.eqb " " "+") with false. cbv iota.
  change (String " " s) with (EmptyString +:+ String " " s).
  now apply parseDecimal_garbage.
Qed.

Lemma leadingDigits_app ds rest :
  allDigits ds = true -> leadingDigits rest = EmptyString ->
  leadingDigits (ds +:+ rest) = ds.
Proof.
  intros A L. induction ds as [|c ds IH]; [exact L|].
  cbn [allDigits] in A. apply andb_prop in A as [Ac A].
  rewrite append_cons. cbn [leadingDigits]. rewrite Ac. now rewrite IH.
Qed.

Lemma skipBlanks_spaces k : forall fuel c s,
  (k <= fuel)%nat -> plain c = true ->
  skipBlanks fuel (spaces k +:+ String c s) = Some (String c s).
Proof.
  induction k as [|k IH]; intros fuel c s L P.
  - cbn [spaces]. change (EmptyString +:+ String c s) with (String c s).
    destruct fuel; [reflexivity|]. cbn [skipBlanks].
    now rewrite (plain_no_newline _ P), (plain_stops_trim _ _ P).
  - destruct fuel as [|fuel]; [lia|]. cbn [spaces]. rewrite append_cons.
    cbn [skipBlanks]. change (byte_of " " =? 10)%N with false. cbv iota.
    change (dropSpace spaceRunes (String " " (spaces k +:+ String c s)))
      with (Some (spaces k +:+ String c s)).
    apply IH; [lia|exact P].
Qed.

Lemma length_spaces k : String.length (spaces k) = k.
Proof. induction k; cbn; auto. Qed.

(** [fmt.Sscanf] with [%d] reads the decimal writing of an [int], after
    spaces and before anything that does not go on with a digit. *)
Lemma Sscanf_Itoa k z rest :
  fits_int64 z = true -> leadingDigits rest = EmptyString ->
  Sscanf_d (spaces k +:+ Itoa z +:+ rest) = Some z.
Proof.
  intros F L. unfold Sscanf_d.
  assert (exists c s, Itoa z +:+ rest = String c s /\ plain c = true) as (c & s & E & P).
  { unfold Itoa. destruct (z <? 0).
    - eexists; eexists. rewrite append_cons. split; reflexivity.
    - destruct (digits_first (Z.to_N z)) as (x & t & -> & D).
      eexists; eexists. rewrite append_cons. split; [reflexivity|now apply digit_plain]. }
  rewrite E, skipBlanks_spaces; [|rewrite GoLibFacts.length_append, length_spaces; lia|exact P].
  rewrite <- E. unfold Itoa. destruct (z <? 0) eqn:N.
  - apply Z.ltb_lt in N. rewrite append_cons. cbn [splitSign].
    change (Ascii.eqb "-" "-") with true. cbv iota.
    rewrite leadingDigits_app by (auto using digits_allDigits).
    rewrite (parseDecimal_digits true); rewrite Z2N.id by lia; rewrite Z.opp_involutive;
      [reflexivity|exact F].
  - apply Z.ltb_ge in N.
    destruct (digits_first (Z.to_N z)) as (x & t & Ex & D).
    rewrite Ex, append_cons, (digit_no_sign _ _ D), <- append_cons, <- Ex.
    rewrite leadingDigits_app by (auto using digits_allDigits).
    rewrite (parseDecimal_digits false); rewrite Z2N.id by lia; [reflexivity|exact F].
Qed.

(** *** The two [getenvInt] *)

Lemma Getenv_set (environ : gmap string string) key v :
  environ !! key = Some v -> Getenv environ key = v.
Proof. unfold Getenv. now intros ->. Qed.

Lemma nonblank_app a b : hasPlain a = true -> String.eqb (TrimSpace (a +:+ b)) "" = false.
Proof. intros H. apply TrimSpace_nonblank. now rewrite hasPlain_app, H. Qed.

(** X16.  [getenvInt] of the ingestion API is strict: it returns the
    number for a variable that holds exactly the decimal writing of an
    [int], and the default for a variable that is not set, that has
    anything after the digits, or that has a space before them (the
    test for a blank value trims, [strconv.Atoi] does not). *)
Theorem gateway_getenvInt_is_strict (environ : gmap string string) key def z :
  fits_int64 z = true ->
  (environ !! key = Some (Itoa z) -> Gateway.getenvInt environ key def = z)
  /\ (forall rest,
        rest <> EmptyString -> leadingDigits rest = EmptyString ->
        environ !! key = Some (Itoa z +:+ rest) ->
        Gateway.getenvInt environ key def = def)
  /\ (environ !! key = Some (String " " (Itoa z)) ->
      Gateway.getenvInt environ key def = def)
  /\ (environ !! key = None -> Gateway.getenvInt environ key def = def).
Proof.
  intros F. unfold Gateway.getenvInt. splits.
  - intros E. rewrite (Getenv_set _ _ _ E).
    rewrite TrimSpace_nonblank by apply Itoa_hasPlain. now rewrite Atoi_Itoa.
  - intros rest NE L E. rewrite (Getenv_set _ _ _ E).
    rewrite nonblank_app by apply Itoa_hasPlain. now rewrite Atoi_trailing.
  - intros E. rewrite (Getenv_set _ _ _ E).
    change (String " " (Itoa z)) with (" " +:+ Itoa z) at 1.
    rewrite TrimSpace_nonblank by (rewrite hasPlain_app, Itoa_hasPlain; apply orb_true_r).
    now rewrite Atoi_leading_space.
  - intros E. unfold Getenv. rewrite E. reflexivity.
Qed.

Lemma writer_getenvInt_lenient (environ : gmap string string) key def z k rest :
  fits_int64 z = true -> leadingDigits rest = EmptyString ->
  environ !! key = Some (spaces k +:+ Itoa z +:+ rest) ->
  Writer.getenvInt environ key def = z.
Proof.
  intros F L E. unfold Writer.getenvInt. rewrite (Getenv_set _ _ _ E).
  rewrite TrimSpace_nonblank.
  - now rewrite Sscanf_Itoa.
  - rewrite !hasPlain_app, Itoa_hasPlain. cbn. apply orb_true_r.
Qed.

(** X17.  [getenvInt] of the writer is lenient: [fmt.Sscanf] skips
    spaces before the number and leaves unread what follows its digits,
    so a variable that holds the decimal writing of an [int], after
    spaces and before any text that does not go on with a digit, gives
    that number: [5s] reads as 5, [0.5] as 0. *)
Theorem writer_getenvInt_is_lenient (environ : gmap string string) key def z k rest :
  fits_int64 z = true -> leadingDigits rest = EmptyString ->
  environ !! key = Some (spaces k +:+ Itoa z +:+ rest) ->
  Writer.getenvInt environ key def = z.
Proof. apply writer_getenvInt_lenient. Qed.

Section Consumer.

Variable parseTime : string -> option Writer.Time.
Variable optionalCell : string -> option string.

(** X18.  The flush interval comes from [FLUSH_EVERY_SECS] as
    [getenvInt] reads it.  With the variable not set the interval is
    five seconds and [ConsumeClaim] runs its loop.  With a value that
    reads as zero or less ([0], [-1], also [0.5]) [ConsumeClaim] panics
    before it receives anything. *)
Theorem flush_interval_from_environment (environ : gmap string string)
  schedule evs t w :
  (environ !! "FLUSH_EVERY_SECS" = None ->
     Writer.flushInterval (Writer.mainConfig environ) = 5 * Second
     /\ Writer.ConsumeClaim parseTime optionalCell schedule
          (Writer.mkHandler (Writer.mainConfig environ) evs t) w
        = Writer.consumeLoop parseTime optionalCell schedule
            (Writer.mkHandler (Writer.mainConfig environ) evs t) w)
  /\ (forall z rest,
        - 9223372036 <= z <= 0 -> leadingDigits rest = EmptyString ->
        environ !! "FLUSH_EVERY_SECS" = Some (Itoa z +:+ rest) ->
        Writer.ConsumeClaim parseTime optionalCell schedule
          (Writer.mkHandler (Writer.mainConfig environ) evs t) w
        = (Writer.Panicked, Writer.mkHandler (Writer.mainConfig environ) evs t, w)).
Proof.
  split.
  - intros E. unfold Writer.ConsumeClaim, Writer.flushInterval.
    cbn [Writer.cfg Writer.mainConfig Writer.FlushEverySecs].
    assert (Writer.getenvInt environ "FLUSH_EVERY_SECS" 5 = 5) as ->.
    { unfold Writer.getenvInt, Getenv. now rewrite E. }
    split; reflexivity.
  - intros z rest B L E. unfold Writer.ConsumeClaim, Writer.flushInterval.
    cbn [Writer.cfg Writer.mainConfig Writer.FlushEverySecs].
    rewrite (writer_getenvInt_lenient environ "FLUSH_EVERY_SECS" 5 z 0 rest);
      [|unfold fits_int64, min_int64, max_int64; apply andb_true_intro;
        split; apply Z.leb_le; lia
       |exact L|exact E].
    unfold wrap64, Second.
    replace ((z * 1000000000 + 2 ^ 63) mod 2 ^ 64) with (z * 1000000000 + 2 ^ 63)
      by (symmetry; apply Z.mod_small; lia).
    destruct (_ <=? 0) eqn:T; [reflexivity|]. apply Z.leb_gt in T. lia.
Qed.

End Consumer.

End EnvFacts.

(** ** The load generator *)
Module LoadGenProofs.
Import LoadGen.

Lemma Itoa_inj x y : Itoa x = Itoa y -> x = y.
Proof.
  unfold Itoa. intros E.
  destruct (x <? 0) eqn:X, (y <? 0) eqn:Y;
    try apply Z.ltb_lt in X; try apply Z.ltb_lt in Y;
    try apply Z.ltb_ge in X; try apply Z.ltb_ge in Y.
  - injection E as E. apply (f_equal digitsValue) in E.
    rewrite !EnvFacts.digitsValue_digits in E. injection E as E. lia.
  - destruct (EnvFacts.digits_first (Z.to_N y)) as (c & s & Ey & D).
    rewrite Ey in E. injection E as <- _. discriminate D.
  - destruct (EnvFacts.digits_first (Z.to_N x)) as (c & s & Ex & D).
    rewrite Ex in E. injection E as -> _. discriminate D.
  - apply (f_equal digitsValue) in E.
    rewrite !EnvFacts.digitsValue_digits in E. injection E as E. lia.
Qed.

(** An index that is a remainder of a number that is not negative. *)
Lemma index_rem (l : list string) i :
  0 <= i -> l <> [] ->
  exists x, index l (Z.rem i (Z.of_nat (length l))) = Some x /\ In x l.
Proof.
  intros I NE. unfold index.
  assert (0 < Z.of_nat (length l)) as L by (destruct l; [contradiction|cbn; lia]).
  pose proof (Z.rem_bound_pos i (Z.of_nat (length l)) I L) as B.
  destruct (_ <? 0) eqn:N; [apply Z.ltb_lt in N; lia|].
  destruct (nth_error l (Z.to_nat (Z.rem i (Z.of_nat (length l))))) as [x|] eqn:E.
  - exists x. split; [reflexivity|]. eapply nth_error_In; eassumption.
  - apply nth_error_None in E. lia.
Qed.

Lemma event_trace now j ev :
  event now j = Some ev -> TraceID ev = "trace-" +:+ Itoa j.
Proof.
  unfold event.
  destruct (index services (Z.rem j (Z.of_nat (length services))));
    [|discriminate].
  destruct (index customers (Z.rem j (Z.of_nat (length customers))));
    [|discriminate].
  intros [= <-]. cbn [StatusCode]. destruct (500 <=? pickStatus j); reflexivity.
Qed.

(** The event of a turn. *)
Lemma event_spec now i :
  0 <= i ->
  exists ev,
    event now i = Some ev
    /\ Timestamp ev = now
    /\ In (Service ev) services /\ In (CustomerID ev) customers
    /\ 50 <= LatencyMs ev < 350
    /\ TraceID ev = "trace-" +:+ Itoa i
    /\ (if Z.rem i 10 =? 0
        then StatusCode ev = 500 /\ Error ev = "simulated_failure"
        else StatusCode ev = 200 /\ Error ev = "")
    /\ (forall now' j ev',
          event now' j = Some ev' -> TraceID ev' = TraceID ev -> j = i).
Proof.
  intros I. unfold event.
  destruct (index_rem services i I) as (sv & -> & Is); [discriminate|].
  destruct (index_rem customers i I) as (cu & -> & Ic); [discriminate|].
  pose proof (Z.rem_bound_pos i 300 I ltac:(lia)) as B.
  eexists. split; [reflexivity|].
  pose proof event_trace as T.
  cbn [StatusCode]. unfold pickStatus.
  destruct (Z.rem i 10 =? 0); cbn [Z.leb Z.compare Pos.compare Pos.compare_cont
    setError Timestamp Service CustomerID LatencyMs TraceID StatusCode Error];
    splits; auto; try lia.
  all: intros now' j ev' E Tr; rewrite (T _ _ _ E) in Tr;
       injection Tr as Tr; symmetry; now apply Itoa_inj.
Qed.

(** X19.  For every turn [i] that is not negative the generator builds
    an event without a panic: a service and a customer of its lists, a
    latency from 50 to 349 ms, the trace id [trace-i] and the time it
    was given.  The status is 500, with the error [simulated_failure],
    exactly when [i] is a multiple of ten, and otherwise 200 with no
    error.  Different turns have different trace ids. *)
Theorem generated_event now i :
  0 <= i ->
  exists ev,
    event now i = Some ev
    /\ Timestamp ev = now
    /\ In (Service ev) services /\ In (CustomerID ev) customers
    /\ 50 <= LatencyMs ev < 350
    /\ TraceID ev = "trace-" +:+ Itoa i
    /\ (if Z.rem i 10 =? 0
        then StatusCode ev = 500 /\ Error ev = "simulated_failure"
        else StatusCode ev = 200 /\ Error ev = "")
    /\ (forall now' j ev',
          event now' j = Some ev' -> TraceID ev' = TraceID ev -> j = i).
Proof. apply event_spec. Qed.

Ltac lred :=
  cbv [bind ret timeNow Post print Sleep sendEvent read] in *;
  cbn [fst snd clock network posted printed slept next pos] in *.

(** One turn of the loop. *)
Lemma loop_turn i rest w ev :
  event (next (clock w) (pos (clock w))) i = Some ev ->
  loop (i :: rest) w
  = loop rest
      (mkWorld (mkStream (next (clock w)) (S (pos (clock w))))
         (mkStream (next (network w)) (S (pos (network w))))
         (posted w ++ [(url, Marshal ev)])
         (printed w
          ++ [if next (network w) (pos (network w)) then Failed
              else Sent (Service ev) (CustomerID ev) (StatusCode ev)])
         (slept w + 50 * Millisecond)).
Proof.
  intros E. cbn [loop]. lred. rewrite E. lred.
  destruct (next (network w) (pos (network w))); lred; reflexivity.
Qed.

(** The loop over the turns from [a] on, [n] of them. *)
Lemma loop_spec n : forall a w,
  exists posts lines,
    fst (loop (map Z.of_nat (seq a n)) w) = true
    /\ posted (snd (loop (map Z.of_nat (seq a n)) w)) = posted w ++ posts
    /\ Forall2
         (fun k p =>
            fst p = url
            /\ option_map Marshal
                 (event (next (clock w) (pos (clock w) + k)) (Z.of_nat (a + k)))
               = Some (snd p))
         (seq 0 n) posts
    /\ printed (snd (loop (map Z.of_nat (seq a n)) w)) = printed w ++ lines
    /\ length lines = n
    /\ slept (snd (loop (map Z.of_nat (seq a n)) w))
       = slept w + Z.of_nat n * (50 * Millisecond).
Proof.
  induction n as [|n IH]; intros a w.
  - exists [], []. cbn. rewrite !app_nil_r. splits; auto. lia.
  - cbn [seq map].
    destruct (event_spec (next (clock w) (pos (clock w))) (Z.of_nat a))
      as (ev & E & _); [lia|].
    rewrite (loop_turn _ _ _ _ E).
    match goal with |- context [loop _ ?ww] => set (w1 := ww) end.
    destruct (IH (S a) w1) as (posts & lines & R & P & F & L & N & Sl).
    exists ((url, Marshal ev) :: posts).
    exists ((if next (network w) (pos (network w)) then Failed
             else Sent (Service ev) (CustomerID ev) (StatusCode ev)) :: lines).
    splits; auto.
    + rewrite P. subst w1. cbn [posted]. now rewrite <- app_assoc.
    + constructor.
      * split; [reflexivity|]. cbn [snd]. now rewrite !Nat.add_0_r, E.
      * rewrite <- seq_shift. apply Forall2_fmap_l.
        eapply Forall2_impl; [exact F|].
        intros k p [U B]. split; [exact U|]. subst w1. cbn [clock next pos] in B.
        cbn [compose]. rewrite !Nat.add_succ_r. exact B.
    + rewrite L. subst w1. cbn [printed]. now rewrite <- app_assoc.
    + cbn [length]. now rewrite N.
    + rewrite Sl. subst w1. cbn [slept]. lia.
Qed.

(** X20.  [main] sends fifty requests whatever happens to them: a
    failed [http.Post] is printed and the loop goes on.  The requests
    go to the one URL, in the order of the turns 1 to 50, each with the
    event of its turn at the reading of the clock of that turn; between
    the line that announces the start and the line that announces the
    end one line is printed per request, and the program sleeps fifty
    times 50 ms. *)
Theorem main_sends_fifty_requests w :
  fst (main w) = true
  /\ exists posts lines,
       posted (snd (main w)) = posted w ++ posts
       /\ Forall2 (fun k p => fst p = url /\ bodyOf w k = Some (snd p)) (seq 0 50) posts
       /\ printed (snd (main w)) = printed w ++ Starting :: lines ++ [Done]
       /\ length lines = 50%nat
       /\ slept (snd (main w)) = slept w + 2500 * Millisecond.
Proof.
  unfold main. cbv [bind print]. cbn [clock network posted printed slept].
  match goal with |- context [loop _ ?ww] => set (w1 := ww) end.
  destruct (loop_spec 50 1 w1) as (posts & lines & R & P & F & L & N & Sl).
  destruct (loop (map Z.of_nat (seq 1 50)) w1) as [ok w2]. cbn [fst snd] in *.
  subst ok. cbv [ret]. cbn [fst snd clock network posted printed slept].
  split; [reflexivity|]. exists posts, lines. subst w1.
  cbn [clock network posted printed slept] in *. splits; auto.
  rewrite L, <- !app_assoc. reflexivity.
Qed.

(** *** The generator's events at the gateway *)

Section Gateway.

Variable parseRFC3339 : string -> option Gateway.Time.
Variable formatRFC3339 : Gateway.Time -> option string.
Variable s : Gateway.Server.
Variable env : string.

Ltac gstep :=
  cbn [Json.decodeMembers Json.lookupField find fst snd String.eqb Ascii.eqb Bool.eqb
       Gateway.eventFields Json.field Json.storeString Json.storeInt Json.storeTime app
       Gateway.setTimestamp Gateway.setService Gateway.setCustomerID
       Gateway.setEndpoint Gateway.setMethod Gateway.setStatusCode
       Gateway.setLatencyMs Gateway.setTraceID Gateway.setError
       Gateway.setAttributes Gateway.setRequestID Gateway.setIngestedAt
       Gateway.setSchemaVer Gateway.setEnvironment Gateway.zeroEvent
       Gateway.Timestamp Gateway.Service Gateway.CustomerID Gateway.Endpoint
       Gateway.Method Gateway.StatusCode Gateway.LatencyMs Gateway.TraceID
       Gateway.Error Gateway.Attributes Gateway.RequestID Gateway.IngestedAt
       Gateway.SchemaVer Gateway.Environment].

(** What the strict decoder of the gateway makes of a marshalled event
    of the generator. *)
Lemma Decode_Marshal ev t m :
  parseRFC3339 (Timestamp ev) = Some t ->
  fits_int64 (StatusCode ev) = true -> fits_int64 (LatencyMs ev) = true ->
  Attributes ev = Some m ->
  Gateway.Decode parseRFC3339 (Json.WellFormed (Marshal ev))
  = inr (Gateway.mkEvent t (Service ev) (CustomerID ev) (Endpoint ev) (Method ev)
           (StatusCode ev) (LatencyMs ev) (TraceID ev) (Error ev) m
           "" Gateway.zeroTime 0 "").
Proof.
  intros T F1 F2 A. unfold Gateway.Decode, Json.decodeStruct, Marshal. cbv beta iota.
  gstep. rewrite T, F1, F2, A. gstep.
  destruct (String.eqb (Error ev) "") eqn:E; gstep;
    rewrite Pipeline.storeMap_marshalled; gstep.
  - apply String.eqb_eq in E. now rewrite E.
  - reflexivity.
Qed.

Lemma nonblank_names :
  Forall (fun x => String.eqb (TrimSpace x) "" = false)
    (services ++ customers ++ ["/api/demo"; "POST"]).
Proof. repeat constructor; vm_compute; reflexivity. Qed.

(** X21.  The ingestion API takes what the generator sends: for a turn
    that is not negative, with a timestamp the API can parse, the body
    passes the strict decoder and the check of the required fields, so
    the answer is neither 400 nor 405; and when the request is accepted
    the trace id answered is the generator's [trace-i]. *)
Theorem generated_events_pass_the_gateway now i ev t w :
  0 <= i -> event now i = Some ev -> parseRFC3339 now = Some t ->
  Gateway.status
    (fst (Gateway.ingest parseRFC3339 formatRFC3339 s env
            (Gateway.post (Json.WellFormed (Marshal ev))) w))
  <> Gateway.StatusBadRequest
  /\ Gateway.status
       (fst (Gateway.ingest parseRFC3339 formatRFC3339 s env
               (Gateway.post (Json.WellFormed (Marshal ev))) w))
     <> Gateway.StatusMethodNotAllowed
  /\ (forall tp partition offset tid rid,
        Gateway.reply
          (fst (Gateway.ingest parseRFC3339 formatRFC3339 s env
                  (Gateway.post (Json.WellFormed (Marshal ev))) w))
        = Gateway.Accepted tp partition offset tid rid ->
        tid = "trace-" +:+ Itoa i).
Proof.
  intros I E T.
  destruct (event_spec now i I) as (ev0 & E0 & Ts & Sv & Cu & Lat & Tr & St & _).
  rewrite E in E0. injection E0 as <-.
  assert (fits_int64 (StatusCode ev) = true) as F1.
  { destruct (Z.rem i 10 =? 0); destruct St as [-> _]; reflexivity. }
  assert (fits_int64 (LatencyMs ev) = true) as F2.
  { unfold fits_int64, min_int64, max_int64. apply andb_true_intro.
    split; apply Z.leb_le; lia. }
  assert (exists m, Attributes ev = Some m) as [m A].
  { clear - E. unfold event in E.
    destruct (index services _); [|discriminate].
    destruct (index customers _); [|discriminate].
    injection E as <-. destruct (500 <=? _); eexists; reflexivity. }
  assert (Endpoint ev = "/api/demo" /\ Method ev = "POST") as [Ep Me].
  { clear - E. unfold event in E.
    destruct (index services _); [|discriminate].
    destruct (index customers _); [|discriminate].
    injection E as <-. destruct (500 <=? _); split; reflexivity. }
  rewrite <- Ts in T.
  pose proof (Decode_Marshal ev t m T F1 F2 A) as D.
  rewrite (GatewayProofs.ingest_served parseRFC3339 formatRFC3339 s env _ _ w D).
  unfold Gateway.served.
  match goal with |- context [Gateway.missingRequired ?g] =>
    assert (Gateway.missingRequired g = false) as ->; [|set (gev := g)] end.
  { unfold Gateway.missingRequired.
    cbn [Gateway.Service Gateway.CustomerID Gateway.Endpoint Gateway.Method
         Gateway.StatusCode].
    pose proof nonblank_names as N. rewrite Forall_forall in N.
    rewrite Ep, Me, !N.
    - cbn [orb]. destruct (Z.rem i 10 =? 0); destruct St as [-> _]; reflexivity.
    - apply list_elem_of_In. cbn. auto 10.
    - apply list_elem_of_In. cbn. auto 10.
    - apply list_elem_of_In, in_or_app. right. apply in_or_app. left. exact Cu.
    - apply list_elem_of_In, in_or_app. left. exact Sv. }
  assert (Gateway.TraceID (Gateway.canonical env gev w) = "trace-" +:+ Itoa i) as TC.
  { rewrite (GatewayProofs.canonical_trace env gev w). subst gev.
    cbn [Gateway.TraceID]. rewrite Tr. reflexivity. }
  destruct (Gateway.Marshal formatRFC3339 (Gateway.canonical env gev w)) as [b|].
  2:{ cbn. splits; try discriminate. }
  destruct (next (Gateway.broker w) (pos (Gateway.broker w))) as [[p o]|].
  2:{ cbn. splits; try discriminate. }
  destruct (next (Gateway.ctxDone w) (pos (Gateway.ctxDone w))).
  { cbn. splits; try discriminate. }
  cbn [fst Gateway.status Gateway.reply]. splits; try discriminate.
  intros tp partition offset tid rid [= _ _ _ <- _]. exact TC.
Qed.

End Gateway.

End LoadGenProofs.


(** ** The dashboard *)
Module DashboardProofs.
Import Dashboard.

Section Refresh.

Variable API_BASE : string.
Variable fetch : string -> Fetched.

Lemma firstRejected_from promises order e :
  firstRejected promises order = Some e ->
  exists i, nth_error promises i = Some (inl e).
Proof.
  induction order as [|i order IH]; [discriminate|]. cbn [firstRejected].
  unfold rejectedAt.
  destruct (nth_error promises i) as [[r|v]|] eqn:N; auto.
  intros [= <-]. now exists i.
Qed.

Lemma values_none promises :
  values promises = None ->
  exists i e, (i < length promises)%nat /\ rejectedAt promises i = Some e.
Proof.
  induction promises as [|[r|v] rest IH]; cbn [values]; [discriminate| |].
  - intros _. exists 0%nat, r. split; [cbn; lia|reflexivity].
  - destruct (values rest); [discriminate|]. intros _.
    destruct (IH eq_refl) as (i & e & L & R).
    exists (S i), e. split; [cbn; lia|exact R].
Qed.

Lemma firstRejected_some promises order i e :
  In i order -> rejectedAt promises i = Some e ->
  exists e', firstRejected promises order = Some e'.
Proof.
  induction order as [|j order IH]; [intros []|]. cbn [firstRejected].
  intros [->|I] R.
  - rewrite R. now exists e.
  - destruct (rejectedAt promises j) as [e'|]; [now exists e'|]. now apply IH.
Qed.

(** X22.  A refresh of the dashboard is all or nothing.  When the five
    requests all succeed, the five tables and the summary are replaced
    together, each by the answer of its own endpoint, and the error is
    cleared.  When one fails (the request itself, a status outside 200
    to 299, or a body that is no JSON), the tables and the summary stay
    as they were and the error shown is that of a request that failed.
    Either way [loading] ends false, and a state is reached in
    whatever order the five requests settle.  For an answer with a
    status outside 200 to 299 the error of the request reads
    [<path> failed: <status>]. *)
Theorem refresh_is_all_or_nothing order st :
  (forall path status json,
     fetch (API_BASE +:+ path) = Response status json -> ok status = false ->
     exists reason,
       fetchJSON API_BASE fetch path = inl reason
       /\ shown reason = path +:+ " failed: " +:+ Itoa status)
  /\
  match values (map (fetchJSON API_BASE fetch) paths) with
  | Some _ =>
      exists a t e p s,
        refresh API_BASE fetch order st
        = Some (mkState false "" a t e p s (autoRefresh st))
        /\ fetchJSON API_BASE fetch "/metrics/customer-availability" = inr a
        /\ fetchJSON API_BASE fetch "/metrics/top-impacted-customers" = inr t
        /\ fetchJSON API_BASE fetch "/metrics/error-rate" = inr e
        /\ fetchJSON API_BASE fetch "/metrics/p95-latency" = inr p
        /\ fetchJSON API_BASE fetch "/metrics/summary" = inr s
  | None =>
      ((forall i, (i < 5)%nat -> In i order) ->
       exists st', refresh API_BASE fetch order st = Some st')
      /\
      forall st',
        refresh API_BASE fetch order st = Some st' ->
        loading st' = false
        /\ availability st' = availability st
        /\ topImpacted st' = topImpacted st
        /\ errorRate st' = errorRate st
        /\ p95 st' = p95 st
        /\ summary st' = summary st
        /\ autoRefresh st' = autoRefresh st
        /\ exists path reason,
             In path paths
             /\ fetchJSON API_BASE fetch path = inl reason
             /\ err st' = shown reason
  end.
Proof.
  split.
  { intros path status json F O. unfold fetchJSON. rewrite F, O. cbn [negb].
    eexists. split; [reflexivity|]. unfold shown, newError. cbn [message].
    destruct path; reflexivity. }
  unfold refresh, PromiseAll.
  destruct (values (map (fetchJSON API_BASE fetch) paths)) as [vs|] eqn:V.
  - cbn [paths map values] in V.
    destruct (fetchJSON API_BASE fetch "/metrics/customer-availability") as [|a];
      [discriminate|].
    destruct (fetchJSON API_BASE fetch "/metrics/top-impacted-customers") as [|t];
      [discriminate|].
    destruct (fetchJSON API_BASE fetch "/metrics/error-rate") as [|e]; [discriminate|].
    destruct (fetchJSON API_BASE fetch "/metrics/p95-latency") as [|p]; [discriminate|].
    destruct (fetchJSON API_BASE fetch "/metrics/summary") as [|s]; [discriminate|].
    cbn in V. injection V as <-. exists a, t, e, p, s. splits; reflexivity.
  - split.
    { intros All. destruct (values_none _ V) as (i & e & L & R).
      destruct (firstRejected_some _ order i e (All i L) R) as [e' F].
      rewrite F. cbn [option_map]. eexists. reflexivity. }
    intros st'.
    destruct (firstRejected _ order) as [reason|] eqn:F; [|discriminate].
    cbn [option_map]. intros [= <-]. cbn. splits; auto.
    apply firstRejected_from in F as [i N].
    apply nth_error_In in N. apply in_map_iff in N as (path & E & I).
    exists path, reason. splits; auto.
Qed.

End Refresh.
End DashboardProofs.


(** ** What the gateway keeps of a payload *)
Module GatewayFields.
Import Gateway GatewayProofs.

Section Handler.

Variable parseRFC3339 : string -> option Time.
Variable formatRFC3339 : Time -> option string.
Variable s : Server.
Variable env : string.

(** The fields of the canonical event that are the caller's. *)
Lemma canonical_caller_fields ev w :
  Service (canonical env ev w) = Service ev
  /\ CustomerID (canonical env ev w) = CustomerID ev
  /\ Endpoint (canonical env ev w) = Endpoint ev
  /\ Method (canonical env ev w) = Method ev
  /\ StatusCode (canonical env ev w) = StatusCode ev
  /\ LatencyMs (canonical env ev w) = LatencyMs ev
  /\ Error (canonical env ev w) = Error ev
  /\ Attributes (canonical env ev w) = Attributes ev
  /\ Timestamp (canonical env ev w)
     = (if IsZero (Timestamp ev) then acceptedAt w else UTC (Timestamp ev)).
Proof.
  unfold canonical, filled. destruct ev. setters.
  destruct (IsZero _), (String.eqb _ _); splits; reflexivity.
Qed.

Lemma Marshal_caller_members ev b :
  Marshal formatRFC3339 ev = Some b ->
  Json.member "timestamp" b = option_map Json.Str (formatRFC3339 (Timestamp ev))
  /\ Json.member "service" b = Some (Json.Str (Service ev))
  /\ Json.member "customer_id" b = Some (Json.Str (CustomerID ev))
  /\ Json.member "endpoint" b = Some (Json.Str (Endpoint ev))
  /\ Json.member "method" b = Some (Json.Str (Method ev))
  /\ Json.member "status_code" b = Some (Json.Num (Json.Int (StatusCode ev)))
  /\ Json.member "latency_ms" b = Some (Json.Num (Json.Int (LatencyMs ev)))
  /\ Json.member "error" b
     = (if String.eqb (Error ev) "" then None else Some (Json.Str (Error ev))).
Proof.
  unfold Marshal.
  destruct (formatRFC3339 (Timestamp ev)) as [ts|]; [|discriminate].
  destruct (formatRFC3339 (IngestedAt ev)) as [ing|]; [|discriminate].
  intros [= <-].
  destruct (String.eqb (Error ev) ""), (decide (Attributes ev = ∅));
    splits; reflexivity.
Qed.

(** X23.  The gateway publishes the caller's fields as it decoded
    them: in the event of a message handed to the producer the service,
    customer, endpoint, method, status code, latency, error and
    attributes are those of the payload, and the timestamp is the
    payload's instant, shown in UTC, or the time of acceptance when the
    payload has none (or the zero time); the published JSON carries
    them under their keys, [error] left out when empty. *)
Theorem caller_fields_published_unchanged body ev w msg :
  Decode parseRFC3339 body = inr ev ->
  sent (snd (ingest parseRFC3339 formatRFC3339 s env (post body) w))
  = sent w ++ [msg] ->
  exists cev,
    Marshal formatRFC3339 cev = Some (msgValue msg)
    /\ Service cev = Service ev /\ CustomerID cev = CustomerID ev
    /\ Endpoint cev = Endpoint ev /\ Method cev = Method ev
    /\ StatusCode cev = StatusCode ev /\ LatencyMs cev = LatencyMs ev
    /\ Error cev = Error ev /\ Attributes cev = Attributes ev
    /\ Timestamp cev
       = (if IsZero (Timestamp ev) then acceptedAt w else UTC (Timestamp ev))
    /\ Json.member "service" (msgValue msg) = Some (Json.Str (Service ev))
    /\ Json.member "customer_id" (msgValue msg) = Some (Json.Str (CustomerID ev))
    /\ Json.member "endpoint" (msgValue msg) = Some (Json.Str (Endpoint ev))
    /\ Json.member "method" (msgValue msg) = Some (Json.Str (Method ev))
    /\ Json.member "status_code" (msgValue msg)
       = Some (Json.Num (Json.Int (StatusCode ev)))
    /\ Json.member "latency_ms" (msgValue msg)
       = Some (Json.Num (Json.Int (LatencyMs ev)))
    /\ Json.member "error" (msgValue msg)
       = (if String.eqb (Error ev) "" then None else Some (Json.Str (Error ev))).
Proof.
  intros D. rewrite (ingest_served parseRFC3339 formatRFC3339 s env _ _ w D).
  unfold served.
  assert (forall l : list ProducerMessage, l = l ++ [msg] -> False) as Absurd.
  { intros l X. apply (f_equal (@length _)) in X. rewrite length_app in X.
    cbn in X. lia. }
  destruct (missingRequired ev); [intros X; now apply Absurd in X|].
  destruct (Marshal formatRFC3339 (canonical env ev w)) as [b|] eqn:Mb;
    [|intros X; now apply Absurd in X].
  intros X.
  assert (msg = published s env ev w b) as ->.
  { assert (sent w ++ [published s env ev w b] = sent w ++ [msg]) as Y.
    { rewrite <- X.
      destruct (next (broker w) (pos (broker w))) as [[p o]|]; [|reflexivity].
      destruct (next (ctxDone w) (pos (ctxDone w))); reflexivity. }
    apply app_inv_head in Y. now injection Y. }
  destruct (canonical_caller_fields ev w) as (A1 & A2 & A3 & A4 & A5 & A6 & A7 & A8 & A9).
  destruct (Marshal_caller_members _ _ Mb) as (_ & B2 & B3 & B4 & B5 & B6 & B7 & B8).
  rewrite A1 in B2. rewrite A2 in B3. rewrite A3 in B4. rewrite A4 in B5.
  rewrite A5 in B6. rewrite A6 in B7. rewrite A7 in B8.
  exists (canonical env ev w). unfold published. cbn [msgValue]. splits; auto.
Qed.

Ltac gstep :=
  cbn [Json.decodeMembers Json.lookupField find fst snd String.eqb Ascii.eqb Bool.eqb
       eventFields Json.field Json.storeString Json.storeInt Json.storeTime app
       setTimestamp setService setCustomerID setEndpoint setMethod setStatusCode
       setLatencyMs setTraceID setError setAttributes setRequestID setIngestedAt
       setSchemaVer setEnvironment zeroEvent
       Timestamp Service CustomerID Endpoint Method StatusCode LatencyMs TraceID
       Error Attributes RequestID IngestedAt SchemaVer Environment].

(** X24.  The strict decoder of the gateway reads back what
    [json.Marshal] writes for a [TelemetryEvent]: every key written is a
    key of the schema, a field left out ([error], [attributes]) was
    empty, and the result is the event itself, provided the two
    instants survive their RFC 3339 strings. *)
Theorem Decode_reads_back_Marshal ev b :
  Marshal formatRFC3339 ev = Some b ->
  (forall str, formatRFC3339 (Timestamp ev) = Some str ->
               parseRFC3339 str = Some (Timestamp ev)) ->
  (forall str, formatRFC3339 (IngestedAt ev) = Some str ->
               parseRFC3339 str = Some (IngestedAt ev)) ->
  fits_int64 (StatusCode ev) = true -> fits_int64 (LatencyMs ev) = true ->
  fits_int64 (SchemaVer ev) = true ->
  Decode parseRFC3339 (Json.WellFormed b) = inr ev.
Proof.
  unfold Marshal.
  destruct (formatRFC3339 (Timestamp ev)) as [ts|]; [|discriminate].
  destruct (formatRFC3339 (IngestedAt ev)) as [ing|]; [|discriminate].
  intros [= <-] PT PI F1 F2 F3. specialize (PT _ eq_refl). specialize (PI _ eq_refl).
  unfold Decode, Json.decodeStruct. cbv beta iota.
  gstep. rewrite PT, F1, F2. gstep.
  destruct (String.eqb (Error ev) "") eqn:E;
    destruct (decide (Attributes ev = ∅)) as [A|A]; gstep;
    rewrite ?Pipeline.storeMap_marshalled; gstep; rewrite PI, F3; gstep.
  all: try (apply String.eqb_eq in E; rewrite <- E).
  all: try rewrite <- A.
  all: destruct ev; reflexivity.
Qed.

End Handler.
End GatewayFields.

(** ** The properties of whole runs, on concrete inputs *)
Module Instances.

(** X5, an instance: a threshold of two, two messages and a tick, and no
    failing call. *)
Lemma buffer_stays_below_threshold_example :
  Writer.cfg
    (snd (fst (Writer.consumeLoop Writer.exampleParse Writer.storesValue
                 [ Writer.Message (Writer.exampleMessage 0);
                   Writer.Message (Writer.exampleMessage 1);
                   Writer.Tick ]
                 (Writer.freshHandler 2 5)
                 (Writer.exampleWorld Second countingBytes (fun _ => false)))))
  = Writer.cfg (Writer.freshHandler 2 5)
  /\ Z.of_nat
       (length
          (Writer.events
             (snd (fst (Writer.consumeLoop Writer.exampleParse Writer.storesValue
                          [ Writer.Message (Writer.exampleMessage 0);
                            Writer.Message (Writer.exampleMessage 1);
                            Writer.Tick ]
                          (Writer.freshHandler 2 5)
                          (Writer.exampleWorld Second countingBytes (fun _ => false)))))))
     < Writer.FlushEveryN (Writer.cfg (Writer.freshHandler 2 5)).
Proof.
  apply WriterRuns.buffer_stays_below_threshold.
  - intros n. reflexivity.
  - cbn. lia.
  - cbn. lia.
Defined.

(** X6, an instance: one message, then the channel is closed; the row is
    stored by [Cleanup]. *)
Lemma session_keeps_every_row_example :
  exists batches rows,
    Writer.storedTables
      (Writer.effects
         (snd (Writer.session Writer.exampleParse Writer.storesValue
                 [ Writer.Message (Writer.exampleMessage 0); Writer.MessagesClosed ]
                 (Writer.freshHandler 2 5)
                 (Writer.exampleWorld Second countingBytes (fun _ => false)))))
    = Writer.storedTables
        (Writer.effects (Writer.exampleWorld Second countingBytes (fun _ => false)))
      ++ map (Writer.encodeBatch Writer.storesValue) batches
    /\ concat batches
        ++ Writer.events
             (snd (fst (Writer.session Writer.exampleParse Writer.storesValue
                          [ Writer.Message (Writer.exampleMessage 0);
                            Writer.MessagesClosed ]
                          (Writer.freshHandler 2 5)
                          (Writer.exampleWorld Second countingBytes (fun _ => false)))))
       = Writer.events (Writer.freshHandler 2 5) ++ rows
    /\ Forall2 (Writer.rowFrom Writer.exampleParse)
         (List.filter Writer.accepted
            (Writer.received
               [ Writer.Message (Writer.exampleMessage 0); Writer.MessagesClosed ]))
         rows
    /\ (Writer.noFaults (Writer.exampleWorld Second countingBytes (fun _ => false)) ->
        snd (fst (fst (Writer.session Writer.exampleParse Writer.storesValue
                         [ Writer.Message (Writer.exampleMessage 0);
                           Writer.MessagesClosed ]
                         (Writer.freshHandler 2 5)
                         (Writer.exampleWorld Second countingBytes (fun _ => false)))))
        = None
        /\ Writer.events
             (snd (fst (Writer.session Writer.exampleParse Writer.storesValue
                          [ Writer.Message (Writer.exampleMessage 0);
                            Writer.MessagesClosed ]
                          (Writer.freshHandler 2 5)
                          (Writer.exampleWorld Second countingBytes (fun _ => false)))))
           = []).
Proof.
  apply WriterRuns.session_keeps_every_row.
  - reflexivity.
  - vm_compute. reflexivity.
Defined.

(** X8, an instance: the message handed over for the scenario's payload. *)
Lemma handed_message_is_complete_example :
  exists msg ev,
    Gateway.sent (snd (Gateway.exampleIngest (Gateway.scenario [])))
    = Gateway.sent Gateway.exampleWorld ++ [msg]
    /\ Gateway.Marshal Gateway.exampleFormat ev = Some (Gateway.msgValue msg)
    /\ Gateway.msgTopic msg = Gateway.topic Gateway.exampleServer
    /\ Gateway.msgKey msg = Gateway.CustomerID ev
    /\ Gateway.msgHeaders msg = [("service", Gateway.Service ev); ("env", "local")]
    /\ Gateway.msgTimestamp msg = Gateway.IngestedAt ev
    /\ ~ Gateway.requiredBlank ev
    /\ Gateway.TraceID ev <> ""
    /\ String.length (Gateway.RequestID ev) = 24%nat
    /\ allHex (Gateway.RequestID ev) = true
    /\ Gateway.SchemaVer ev = 1
    /\ Gateway.Environment ev = "local"
    /\ Gateway.zoneOffset (Gateway.Timestamp ev) = 0
    /\ Gateway.zoneOffset (Gateway.IngestedAt ev) = 0.
Proof.
  assert (exists msg,
            Gateway.sent (snd (Gateway.exampleIngest (Gateway.scenario [])))
            = Gateway.sent Gateway.exampleWorld ++ [msg]) as [msg H]
    by (eexists; vm_compute; reflexivity).
  exists msg.
  destruct (GatewayPaths.handed_message_is_complete Gateway.exampleParse
              Gateway.exampleFormat Gateway.exampleServer "local"
              (Gateway.post (Gateway.scenario [])) Gateway.exampleWorld msg H)
    as (ev & P).
  exists ev. split; [exact H|exact P].
Defined.

(** X9, an instance: the event the gateway publishes for the
    scenario's payload, read by the writer. *)
Lemma writer_reads_gateway_message_example :
  exists b ts ing,
    Gateway.Marshal Gateway.exampleFormat
      (Gateway.mkEvent (Gateway.mkTime Gateway.callerInstant 0) "auth" "c1" "/x" "GET"
         200 12 "t1" "" ∅ "r1" (Gateway.mkTime Gateway.clockInstant 0) 1 "local")
    = Some b
    /\ Gateway.exampleFormat (Gateway.mkTime Gateway.callerInstant 0) = Some ts
    /\ Gateway.exampleFormat (Gateway.mkTime Gateway.clockInstant 0) = Some ing
    /\ fst (Writer.parseKafkaJSON Writer.exampleParse (Json.WellFormed b)
              (Writer.exampleWorld Second countingBytes (fun _ => false)))
       = inr (Writer.mkEvent
                (Writer.UnixMilli
                   (Writer.instantOf Writer.exampleParse ts
                      (Writer.exampleWorld Second countingBytes (fun _ => false)) 0))
                "auth" "c1" "/x" "GET" 200 12 "t1" "" "local" 1
                (Writer.UnixMilli
                   (Writer.instantOf Writer.exampleParse ing
                      (Writer.exampleWorld Second countingBytes (fun _ => false))
                      (Writer.clockReads Writer.exampleParse ts)))).
Proof.
  assert (forall b,
    Gateway.Marshal Gateway.exampleFormat
      (Gateway.mkEvent (Gateway.mkTime Gateway.callerInstant 0) "auth" "c1" "/x" "GET"
         200 12 "t1" "" ∅ "r1" (Gateway.mkTime Gateway.clockInstant 0) 1 "local")
    = Some b ->
    exists ts ing,
      Gateway.exampleFormat (Gateway.mkTime Gateway.callerInstant 0) = Some ts
      /\ Gateway.exampleFormat (Gateway.mkTime Gateway.clockInstant 0) = Some ing
      /\ fst (Writer.parseKafkaJSON Writer.exampleParse (Json.WellFormed b)
                (Writer.exampleWorld Second countingBytes (fun _ => false)))
         = inr (Writer.mkEvent
                  (Writer.UnixMilli
                     (Writer.instantOf Writer.exampleParse ts
                        (Writer.exampleWorld Second countingBytes (fun _ => false)) 0))
                  "auth" "c1" "/x" "GET" 200 12 "t1" "" "local" 1
                  (Writer.UnixMilli
                     (Writer.instantOf Writer.exampleParse ing
                        (Writer.exampleWorld Second countingBytes (fun _ => false))
                        (Writer.clockReads Writer.exampleParse ts))))) as A.
  { intros b M.
    exact (Pipeline.writer_reads_gateway_message Gateway.exampleFormat
             Writer.exampleParse _ b
             (Writer.exampleWorld Second countingBytes (fun _ => false)) M). }
  assert (exists b,
    Gateway.Marshal Gateway.exampleFormat
      (Gateway.mkEvent (Gateway.mkTime Gateway.callerInstant 0) "auth" "c1" "/x" "GET"
         200 12 "t1" "" ∅ "r1" (Gateway.mkTime Gateway.clockInstant 0) 1 "local")
    = Some b) as [b M] by (eexists; vm_compute; reflexivity).
  destruct (A b M) as (ts & ing & T & I & P).
  exists b, ts, ing. splits; assumption.
Defined.

(** X12, an instance: a flush at 22 h and one at 23 h of the same day. *)
Lemma object_keys_sort_by_hour_example :
  String.compare
    (Writer.objectKey Writer.exampleTime "ff")
    (Writer.objectKey (Writer.mkTime 1793401740000000000 2026 10 30 23) "00") = Lt
  /\ String.compare
       (Query.fileURL Query.mainEngine (Writer.objectKey Writer.exampleTime "ff"))
       (Query.fileURL Query.mainEngine
          (Writer.objectKey (Writer.mkTime 1793401740000000000 2026 10 30 23) "00"))
     = Lt.
Proof.
  apply KeyOrder.object_keys_sort_by_hour.
  - unfold Writer.civil. cbn. lia.
  - unfold Writer.civil. cbn. lia.
  - unfold Writer.hourBefore. cbn. lia.
Defined.

(** X13, an instance: a bucket that holds one object of the writer, and
    no limit. *)
Lemma stored_objects_are_listed_example :
  exists files,
    Query.parquetFileList
      (fun _ _ => [Query.mkObject (Writer.objectKey Writer.exampleTime "ff") None])
      Query.mainEngine 0
    = inr files
    /\ In (Query.fileURL Query.mainEngine (Writer.objectKey Writer.exampleTime "ff")) files
    /\ (exists rest,
          isPrefix (Query.prefix Query.mainEngine)
            (Writer.objectKey Writer.exampleTime "ff") = Some rest)
    /\ Query.HasSuffix (Writer.objectKey Writer.exampleTime "ff") ".parquet" = true.
Proof.
  eexists. split; [vm_compute; reflexivity|].
  apply (KeyOrder.stored_objects_are_listed
           (fun _ _ => [Query.mkObject (Writer.objectKey Writer.exampleTime "ff") None])
           Query.mainEngine 0 Writer.exampleTime "ff").
  - left. reflexivity.
  - vm_compute. reflexivity.
  - left. lia.
Defined.

(** X14, an instance: two objects an hour apart; the earlier one is
    among the files, so the later one is. *)
Lemma newer_files_are_kept_example :
  exists files,
    Query.parquetFileList
      (fun _ _ =>
         [ Query.mkObject
             (Writer.objectKey (Writer.mkTime 1793401740000000000 2026 10 30 23) "00")
             None;
           Query.mkObject (Writer.objectKey Writer.exampleTime "ff") None ])
      Query.mainEngine 200
    = inr files
    /\ In (Query.fileURL Query.mainEngine
             (Writer.objectKey (Writer.mkTime 1793401740000000000 2026 10 30 23) "00"))
         files.
Proof.
  eexists. split; [vm_compute; reflexivity|].
  apply (KeyOrder.newer_files_are_kept
           (fun _ _ =>
              [ Query.mkObject
                  (Writer.objectKey (Writer.mkTime 1793401740000000000 2026 10 30 23) "00")
                  None;
                Query.mkObject (Writer.objectKey Writer.exampleTime "ff") None ])
           Query.mainEngine 200 _ Writer.exampleTime "ff"
           (Writer.mkTime 1793401740000000000 2026 10 30 23) "00").
  - vm_compute. reflexivity.
  - unfold Writer.civil. cbn. lia.
  - unfold Writer.civil. cbn. lia.
  - unfold Writer.hourBefore. cbn. lia.
  - vm_compute. auto.
  - left. reflexivity.
Defined.

(** X16, an instance: [PORT=8080], and what [strconv.Atoi] refuses. *)
Lemma gateway_getenvInt_is_strict_example :
  ((({["PORT" := "8080"]} : gmap string string) !! "PORT" = Some (Itoa 8080) ->
    Gateway.getenvInt {["PORT" := "8080"]} "PORT" 1 = 8080)
   /\ (forall rest,
         rest <> EmptyString -> leadingDigits rest = EmptyString ->
         ({["PORT" := "8080"]} : gmap string string) !! "PORT" = Some (Itoa 8080 +:+ rest) ->
         Gateway.getenvInt {["PORT" := "8080"]} "PORT" 1 = 1)
   /\ (({["PORT" := "8080"]} : gmap string string) !! "PORT"
       = Some (String " " (Itoa 8080)) ->
       Gateway.getenvInt {["PORT" := "8080"]} "PORT" 1 = 1)
   /\ (({["PORT" := "8080"]} : gmap string string) !! "PORT" = None ->
       Gateway.getenvInt {["PORT" := "8080"]} "PORT" 1 = 1))
  /\ Gateway.getenvInt {["PORT" := "8080"]} "PORT" 1 = 8080.
Proof.
  pose proof (EnvFacts.gateway_getenvInt_is_strict {["PORT" := "8080"]} "PORT" 1 8080
                eq_refl) as H.
  split; [exact H|]. apply (proj1 H). vm_compute. reflexivity.
Defined.

(** X17, an instance: [FLUSH_EVERY_SECS=5s] reads as 5. *)
Lemma writer_getenvInt_is_lenient_example :
  Writer.getenvInt {["FLUSH_EVERY_SECS" := "5s"]} "FLUSH_EVERY_SECS" 7 = 5.
Proof.
  apply (EnvFacts.writer_getenvInt_is_lenient {["FLUSH_EVERY_SECS" := "5s"]}
           "FLUSH_EVERY_SECS" 7 5 0 "s").
  - reflexivity.
  - reflexivity.
  - vm_compute. reflexivity.
Defined.

(** X19, an instance: turn 10, the first failure injected. *)
Lemma generated_event_example :
  exists ev,
    LoadGen.event "2026-10-30T22:09:00Z" 10 = Some ev
    /\ LoadGen.Timestamp ev = "2026-10-30T22:09:00Z"
    /\ In (LoadGen.Service ev) LoadGen.services
    /\ In (LoadGen.CustomerID ev) LoadGen.customers
    /\ 50 <= LoadGen.LatencyMs ev < 350
    /\ LoadGen.TraceID ev = "trace-" +:+ Itoa 10
    /\ (if Z.rem 10 10 =? 0
        then LoadGen.StatusCode ev = 500 /\ LoadGen.Error ev = "simulated_failure"
        else LoadGen.StatusCode ev = 200 /\ LoadGen.Error ev = "")
    /\ (forall now' j ev',
          LoadGen.event now' j = Some ev' ->
          LoadGen.TraceID ev' = LoadGen.TraceID ev -> j = 10).
Proof. apply LoadGenProofs.generated_event. lia. Defined.

(** X21, an instance: the event of turn 10 at the gateway of the
    scenario. *)
Lemma generated_events_pass_the_gateway_example :
  exists ev,
    LoadGen.event "2026-10-30T22:09:00Z" 10 = Some ev
    /\ Gateway.status
         (fst (Gateway.exampleIngest (Json.WellFormed (LoadGen.Marshal ev))))
       <> Gateway.StatusBadRequest
    /\ Gateway.status
         (fst (Gateway.exampleIngest (Json.WellFormed (LoadGen.Marshal ev))))
       <> Gateway.StatusMethodNotAllowed
    /\ (forall tp partition offset tid rid,
          Gateway.reply
            (fst (Gateway.exampleIngest (Json.WellFormed (LoadGen.Marshal ev))))
          = Gateway.Accepted tp partition offset tid rid ->
          tid = "trace-" +:+ Itoa 10).
Proof.
  eexists. split; [vm_compute; reflexivity|].
  apply (LoadGenProofs.generated_events_pass_the_gateway Gateway.exampleParse
           Gateway.exampleFormat Gateway.exampleServer "local"
           "2026-10-30T22:09:00Z" 10 _ (Gateway.mkTime Gateway.callerInstant 0)
           Gateway.exampleWorld).
  - lia.
  - vm_compute. reflexivity.
  - reflexivity.
Defined.

(** X23, an instance: the scenario's payload with a latency and an
    error text. *)
Lemma caller_fields_published_unchanged_example :
  exists ev msg cev,
    Gateway.Decode Gateway.exampleParse
      (Gateway.scenario [("latency_ms", Json.Num (Json.Int 12));
                         ("error", Json.Str "boom")]) = inr ev
    /\ Gateway.sent
         (snd (Gateway.exampleIngest
                 (Gateway.scenario [("latency_ms", Json.Num (Json.Int 12));
                                    ("error", Json.Str "boom")])))
       = Gateway.sent Gateway.exampleWorld ++ [msg]
    /\ Gateway.Marshal Gateway.exampleFormat cev = Some (Gateway.msgValue msg)
    /\ Gateway.Service cev = Gateway.Service ev
    /\ Gateway.LatencyMs cev = Gateway.LatencyMs ev
    /\ Gateway.Error cev = Gateway.Error ev
    /\ Json.member "latency_ms" (Gateway.msgValue msg)
       = Some (Json.Num (Json.Int (Gateway.LatencyMs ev)))
    /\ Json.member "error" (Gateway.msgValue msg)
       = (if String.eqb (Gateway.Error ev) "" then None
          else Some (Json.Str (Gateway.Error ev))).
Proof.
  assert (exists ev,
            Gateway.Decode Gateway.exampleParse
              (Gateway.scenario [("latency_ms", Json.Num (Json.Int 12));
                                 ("error", Json.Str "boom")]) = inr ev) as [ev D]
    by (eexists; vm_compute; reflexivity).
  assert (exists msg,
            Gateway.sent
              (snd (Gateway.exampleIngest
                      (Gateway.scenario [("latency_ms", Json.Num (Json.Int 12));
                                         ("error", Json.Str "boom")])))
            = Gateway.sent Gateway.exampleWorld ++ [msg]) as [msg H]
    by (eexists; vm_compute; reflexivity).
  destruct (GatewayFields.caller_fields_published_unchanged Gateway.exampleParse
              Gateway.exampleFormat Gateway.exampleServer "local" _ ev
              Gateway.exampleWorld msg D H)
    as (cev & M & S1 & _ & _ & _ & _ & S6 & S7 & _ & _ & _ & _ & _ & _ & _ & J6 & J7).
  exists ev, msg, cev. splits; assumption.
Defined.

(** X24, an instance: an event with both instants at the caller's
    instant, an empty error and no attributes. *)
Lemma Decode_reads_back_Marshal_example :
  exists b,
    Gateway.Marshal Gateway.exampleFormat
      (Gateway.mkEvent (Gateway.mkTime Gateway.callerInstant 0) "auth" "c1" "/x" "GET"
         200 12 "t1" "" ∅ "r1" (Gateway.mkTime Gateway.callerInstant 0) 1 "local")
    = Some b
    /\ Gateway.Decode Gateway.exampleParse (Json.WellFormed b)
       = inr (Gateway.mkEvent (Gateway.mkTime Gateway.callerInstant 0) "auth" "c1" "/x"
                "GET" 200 12 "t1" "" ∅ "r1" (Gateway.mkTime Gateway.callerInstant 0) 1
                "local").
Proof.
  assert (exists b,
    Gateway.Marshal Gateway.exampleFormat
      (Gateway.mkEvent (Gateway.mkTime Gateway.callerInstant 0) "auth" "c1" "/x" "GET"
         200 12 "t1" "" ∅ "r1" (Gateway.mkTime Gateway.callerInstant 0) 1 "local")
    = Some b) as [b M] by (eexists; vm_compute; reflexivity).
  exists b. split; [exact M|].
  apply (GatewayFields.Decode_reads_back_Marshal Gateway.exampleParse
           Gateway.exampleFormat _ b M).
  - intros str E. vm_compute in E. injection E as <-. reflexivity.
  - intros str E. vm_compute in E. injection E as <-. reflexivity.
  - reflexivity.
  - reflexivity.
  - reflexivity.
Defined.

End Instances.
